(** * The streaming session controller of [streaming_code_generator.py]

    A shallow embedding of [StreamingCodeGenerator]: the chunk formatter
    [format_chunk], the stream consumer [handle_stream] and the retrying
    controller [generate_code_with_explanation], followed by the
    properties of the specification that concern them.

    The three methods are written in a small monad of coroutines whose
    operations are the ones the Python code performs on its surroundings:
    reading and writing the [stats] attribute of the generator, calling the
    callbacks and the logger, opening a streaming request, asking whether
    the current task is cancelled, awaiting a sleep and reading the clock.
    An interpreter answers the last four from an environment. *)

From Stdlib Require Import ZArith String Ascii DecimalString.
From stdpp Require Import base tactics option list strings.

(** ** Python values *)

(** Text. A [str] is modelled by a [string] whose characters are the code
    points below 256. *)

(** [str(n)] for an [int]. *)
Definition str_of_int (n : Z) : string := NilZero.string_of_int (Z.to_int n).

(** [c.isspace()], which is what [str.split()] without argument splits on:
    TAB to CR, FS to US, the space, NEL and the no-break space. *)
Definition isspace (c : ascii) : bool :=
  let n := N_of_ascii c in
  ((9 <=? n)%N && (n <=? 13)%N) || ((28 <=? n)%N && (n <=? 32)%N)
  || (n =? 133)%N || (n =? 160)%N.

(** [s.split()]: the maximal runs of characters that are not whitespace.
    [word] is the run being read. *)
Fixpoint split_from (word : string) (s : string) : list string :=
  match s with
  | EmptyString => match word with EmptyString => [] | _ => [word] end
  | String c s' =>
      if isspace c
      then match word with
           | EmptyString => split_from EmptyString s'
           | _ => word :: split_from EmptyString s'
           end
      else split_from (word +:+ String c EmptyString) s'
  end.

Definition split (s : string) : list string := split_from EmptyString s.

(** [len(s.split())] *)
Definition word_count (s : string) : Z := Z.of_nat (length (split s)).

(** Truth value of a [str]: only the empty string is false. *)
Definition truthy (s : string) : bool :=
  match s with EmptyString => false | String _ _ => true end.

(** Exceptions. [asyncio.CancelledError] derives from [BaseException] and
    not from [Exception] (Python 3.8 and later); every other class of the
    model derives from [Exception]: [APIError] and [StreamProcessError],
    the subclasses of [StreamingError] of the module, the built-in errors
    the code can run into, and any other one, named. The signals
    [KeyboardInterrupt] and [SystemExit] are not modelled. *)
Inductive exn_class : Type :=
| CancelledError
| APIError
| StreamProcessError
| AttributeError
| TypeError
| IndexError
| OtherException (name : string).

Record exn : Type := mk_exn { exn_class_of : exn_class; exn_msg : string }.

(** [str(e)] *)
Definition str (e : exn) : string := exn_msg e.

(** [isinstance(e, asyncio.CancelledError)] *)
Definition is_CancelledError (e : exn) : bool :=
  match exn_class_of e with CancelledError => true | _ => false end.

(** [isinstance(e, Exception)] *)
Definition is_Exception (e : exn) : bool := negb (is_CancelledError e).

(** ** The data model *)

Inductive StreamStatus : Type := INITIALIZING | PROCESSING | COMPLETED | ERROR.

(** Clock readings of [time.time()]. *)
Definition time : Type := Z.

Record StreamStats : Type := mk_StreamStats {
  start_time : time;
  chunks_processed : Z;
  total_tokens : Z;
  status : StreamStatus
}.

(** [StreamStats(start_time=t)] with the defaults of the dataclass. *)
Definition new_StreamStats (t : time) : StreamStats :=
  mk_StreamStats t 0 0 INITIALIZING.

Definition set_chunks_processed (n : Z) (s : StreamStats) : StreamStats :=
  mk_StreamStats (start_time s) n (total_tokens s) (status s).
Definition set_total_tokens (n : Z) (s : StreamStats) : StreamStats :=
  mk_StreamStats (start_time s) (chunks_processed s) n (status s).
Definition set_status (x : StreamStatus) (s : StreamStats) : StreamStats :=
  mk_StreamStats (start_time s) (chunks_processed s) (total_tokens s) x.

(** A raw chunk is duck-typed: each attribute on the path
    [chunk.choices[0].delta.content] may be missing, may hold [None], or may
    hold a value. The name of the class of an object appears in the
    [AttributeError] raised for a missing attribute. *)
Inductive attr (A : Type) : Type :=
| Missing
| IsNone
| Val (a : A).
Arguments Missing {A}.
Arguments IsNone {A}.
Arguments Val {A} a.

Record Delta : Type := mk_Delta { delta_type : string; content : attr string }.
Record Choice : Type := mk_Choice { choice_type : string; delta : attr Delta }.
Record Chunk : Type := mk_Chunk { chunk_type : string; choices : attr (list Choice) }.

(** The iterator returned by the streaming request: advancing it yields a
    chunk, stops, or raises. *)
Inductive stream : Type :=
| SEnd
| SRaise (e : exn)
| SYield (chunk : Chunk) (rest : stream).

(** The stream that yields the chunks of a list and then goes on as [tl]. *)
Fixpoint stream_app (chunks : list Chunk) (tl : stream) : stream :=
  match chunks with
  | [] => tl
  | c :: chunks' => SYield c (stream_app chunks' tl)
  end.

Definition stream_of (chunks : list Chunk) : stream := stream_app chunks SEnd.

(** The arguments of [self.client.chat.completions.create]. *)
Record request : Type := mk_request {
  req_model : string;
  req_messages : list (string * string);
  req_stream : bool;
  req_timeout : Z
}.

(** The generator object: its configuration. Its mutable attribute [stats]
    lives in the store below. *)
Record StreamingCodeGenerator : Type := mk_generator {
  model : string;
  timeout : Z;
  chunk_size : Z
}.

(** The dictionary returned on success. ["stats"] holds the value of
    [self.stats], a reference. *)
Record SessionResult : Type := mk_result {
  text : string;
  stats : option nat;
  completion_time : time
}.

(** The store: the [StreamStats] objects allocated so far, and the [stats]
    attribute of the generator, [None] or a reference to one of them. *)
Record Store : Type := mk_Store {
  objs : list StreamStats;
  self_stats : option nat
}.

(** What [self.stats] denotes. References are only made by allocation, so
    one that denotes nothing does not arise; it reads as [None]. *)
Definition current_stats (st : Store) : option StreamStats :=
  r ← self_stats st; objs st !! r.

(** ** What a call does to its surroundings *)

Inductive level : Type := WARNING | ERROR_LEVEL.

(** [asyncio.sleep(0.01)] and [asyncio.sleep(n)] for an integer [n]. *)
Inductive delay : Type :=
| Hundredth
| Seconds (n : Z).

Inductive event : Type :=
| EvRequest (req : request)
| EvChunk (fragment : string)
| EvProgress (seen : option StreamStats)
| EvLog (lvl : level) (msg : string)
| EvSleep (d : delay).

(** The caller's callbacks: what matters of them here is whether they
    return or raise. The progress callback receives [self.stats] and is
    given what it reads there. *)
Definition callback_t : Type := string -> option exn.
Definition progress_callback_t : Type := option StreamStats -> option exn.

(** ** Coroutines *)

Inductive coro (A : Type) : Type :=
| Ret (a : A)
| Throw (e : exn)
| GetStore (k : Store -> coro A)
| PutStore (st : Store) (k : coro A)
| Emit (ev : event) (k : coro A)
| Create (req : request) (k : exn + stream -> coro A)
| TaskCancelled (k : bool -> coro A)
| Sleep (d : delay) (k : bool -> coro A)
| Clock (k : time -> coro A).
Arguments Ret {A} a.
Arguments Throw {A} e.
Arguments GetStore {A} k.
Arguments PutStore {A} st k.
Arguments Emit {A} ev k.
Arguments Create {A} req k.
Arguments TaskCancelled {A} k.
Arguments Sleep {A} d k.
Arguments Clock {A} k.

Fixpoint bind {A B : Type} (c : coro A) (f : A -> coro B) : coro B :=
  match c with
  | Ret a => f a
  | Throw e => Throw e
  | GetStore k => GetStore (fun st => bind (k st) f)
  | PutStore st k => PutStore st (bind k f)
  | Emit ev k => Emit ev (bind k f)
  | Create req k => Create req (fun r => bind (k r) f)
  | TaskCancelled k => TaskCancelled (fun b => bind (k b) f)
  | Sleep d k => Sleep d (fun b => bind (k b) f)
  | Clock k => Clock (fun t => bind (k t) f)
  end.

(** [try: c except BaseException as e: h e]. The handlers of the source
    name a class; [h] raises again what they do not catch. *)
Fixpoint try_except {A : Type} (c : coro A) (h : exn -> coro A) : coro A :=
  match c with
  | Ret a => Ret a
  | Throw e => h e
  | GetStore k => GetStore (fun st => try_except (k st) h)
  | PutStore st k => PutStore st (try_except k h)
  | Emit ev k => Emit ev (try_except k h)
  | Create req k => Create req (fun r => try_except (k r) h)
  | TaskCancelled k => TaskCancelled (fun b => try_except (k b) h)
  | Sleep d k => Sleep d (fun b => try_except (k b) h)
  | Clock k => Clock (fun t => try_except (k t) h)
  end.

#[global] Instance coro_ret : MRet coro := fun A a => Ret a.
#[global] Instance coro_bind : MBind coro := fun A B f c => bind c f.

(** ** The interpreter *)

(** The surroundings of a run: the answer of the service to the [k]-th
    request, the value of [asyncio.current_task().cancelled()] the [k]-th
    time it is asked, whether the [k]-th sleep is woken by a
    [CancelledError] thrown into the coroutine, and the [k]-th reading of
    the clock. *)
Record env : Type := mk_env {
  service : request -> nat -> exn + stream;
  cancelled_at : nat -> bool;
  cancel_wakeup : nat -> bool;
  clock : nat -> time
}.

(** The state of a run: the store, the events so far in order, the
    successive contents of the store (every write appends one), and how many
    times each part of the environment has been asked. *)
Record machine : Type := mk_machine {
  store : Store;
  trace : list event;
  history : list Store;
  n_requests : nat;
  n_polls : nat;
  n_sleeps : nat;
  n_clock : nat
}.

Definition write (st : Store) (m : machine) : machine :=
  mk_machine st (trace m) (history m ++ [st])
             (n_requests m) (n_polls m) (n_sleeps m) (n_clock m).

Definition record (ev : event) (m : machine) : machine :=
  mk_machine (store m) (trace m ++ [ev]) (history m)
             (n_requests m) (n_polls m) (n_sleeps m) (n_clock m).

Definition requested (req : request) (m : machine) : machine :=
  mk_machine (store m) (trace m ++ [EvRequest req]) (history m)
             (S (n_requests m)) (n_polls m) (n_sleeps m) (n_clock m).

Definition polled (m : machine) : machine :=
  mk_machine (store m) (trace m) (history m)
             (n_requests m) (S (n_polls m)) (n_sleeps m) (n_clock m).

Definition slept (d : delay) (m : machine) : machine :=
  mk_machine (store m) (trace m ++ [EvSleep d]) (history m)
             (n_requests m) (n_polls m) (S (n_sleeps m)) (n_clock m).

Definition ticked (m : machine) : machine :=
  mk_machine (store m) (trace m) (history m)
             (n_requests m) (n_polls m) (n_sleeps m) (S (n_clock m)).

Inductive outcome (A : Type) : Type :=
| Returned (a : A)
| Raised (e : exn).
Arguments Returned {A} a.
Arguments Raised {A} e.

(** A task that runs alone: every sleep is followed by its resumption. *)
Fixpoint run {A : Type} (E : env) (c : coro A) (m : machine) : machine * outcome A :=
  match c with
  | Ret a => (m, Returned a)
  | Throw e => (m, Raised e)
  | GetStore k => run E (k (store m)) m
  | PutStore st k => run E k (write st m)
  | Emit ev k => run E k (record ev m)
  | Create req k => run E (k (service E req (n_requests m))) (requested req m)
  | TaskCancelled k => run E (k (cancelled_at E (n_polls m))) (polled m)
  | Sleep d k => run E (k (cancel_wakeup E (n_sleeps m))) (slept d m)
  | Clock k => run E (k (clock E (n_clock m))) (ticked m)
  end.

(** A task among others: it runs up to its next sleep, where the event
    loop may resume another task before this one. *)
Inductive progress (A : Type) : Type :=
| Finished (o : outcome A)
| Suspended (k : bool -> coro A).
Arguments Finished {A} o.
Arguments Suspended {A} k.

Fixpoint advance {A : Type} (E : env) (c : coro A) (m : machine) : machine * progress A :=
  match c with
  | Ret a => (m, Finished (Returned a))
  | Throw e => (m, Finished (Raised e))
  | GetStore k => advance E (k (store m)) m
  | PutStore st k => advance E k (write st m)
  | Emit ev k => advance E k (record ev m)
  | Create req k => advance E (k (service E req (n_requests m))) (requested req m)
  | TaskCancelled k => advance E (k (cancelled_at E (n_polls m))) (polled m)
  | Sleep d k => (slept d m, Suspended k)
  | Clock k => advance E (k (clock E (n_clock m))) (ticked m)
  end.

(** The tasks of an event loop. A waiting task remembers which sleep it
    is in, for the environment to say how it is woken. *)
Inductive task (A : Type) : Type :=
| Ready (c : coro A)
| Waiting (sleep_no : nat) (k : bool -> coro A)
| Done (o : outcome A).
Arguments Ready {A} c.
Arguments Waiting {A} sleep_no k.
Arguments Done {A} o.

Definition resume {A : Type} (E : env) (t : task A) (m : machine) : machine * task A :=
  let step c :=
    match advance E c m with
    | (m', Finished o) => (m', Done o)
    | (m', Suspended k) => (m', Waiting (n_sleeps m) k)
    end in
  match t with
  | Ready c => step c
  | Waiting n k => step (k (cancel_wakeup E n))
  | Done o => (m, Done o)
  end.

(** The event loop resumes the tasks in the order of [schedule]. *)
Fixpoint event_loop {A : Type} (E : env) (schedule : list nat)
    (tasks : list (task A)) (m : machine) : machine * list (task A) :=
  match schedule with
  | [] => (m, tasks)
  | i :: schedule' =>
      match tasks !! i with
      | Some t =>
          let (m', t') := resume E t m in
          event_loop E schedule' (<[i := t']> tasks) m'
      | None => event_loop E schedule' tasks m
      end
  end.

(** ** The methods of [StreamingCodeGenerator] *)

Definition raise {A : Type} (cls : exn_class) (msg : string) : coro A :=
  Throw (mk_exn cls msg).

Definition no_attribute (type_name attribute : string) : exn :=
  mk_exn AttributeError
    ("'" +:+ type_name +:+ "' object has no attribute '" +:+ attribute +:+ "'").

(** [logger.warning(msg)], [logger.error(msg)] *)
Definition log (lvl : level) (msg : string) : coro unit :=
  Emit (EvLog lvl msg) (Ret tt).

(** [await asyncio.sleep(d)] *)
Definition sleep (d : delay) : coro unit :=
  Sleep d (fun cancelled =>
    if cancelled then raise CancelledError "" else Ret tt).

(** [self.stats.<attribute>] *)
Definition stats_get {X : Type} (attribute : string) (f : StreamStats -> X) : coro X :=
  GetStore (fun st =>
    match current_stats st with
    | Some s => Ret (f s)
    | None => Throw (no_attribute "NoneType" attribute)
    end).

(** [self.stats.<attribute> = ...], the new object being [f] of the old *)
Definition stats_update (attribute : string) (f : StreamStats -> StreamStats) : coro unit :=
  GetStore (fun st =>
    match self_stats st, current_stats st with
    | Some r, Some s =>
        PutStore (mk_Store (<[r := f s]> (objs st)) (self_stats st)) (Ret tt)
    | _, _ => Throw (no_attribute "NoneType" attribute)
    end).

(** [callback(fragment)] *)
Definition call (callback : callback_t) (fragment : string) : coro unit :=
  Emit (EvChunk fragment)
    (match callback fragment with Some e => Throw e | None => Ret tt end).

(** [progress_callback(self.stats)] *)
Definition notify (progress_callback : progress_callback_t) : coro unit :=
  GetStore (fun st =>
    Emit (EvProgress (current_stats st))
      (match progress_callback (current_stats st) with
       | Some e => Throw e
       | None => Ret tt
       end)).

(** [if progress_callback: progress_callback(self.stats)] *)
Definition notify_if (progress_callback : option progress_callback_t) : coro unit :=
  match progress_callback with
  | Some p => notify p
  | None => Ret tt
  end.

(** *** [format_chunk] *)

(** [chunk.choices] *)
Definition get_choices (chunk : Chunk) : coro (option (list Choice)) :=
  match choices chunk with
  | Missing => Throw (no_attribute (chunk_type chunk) "choices")
  | IsNone => Ret None
  | Val l => Ret (Some l)
  end.

(** [l[0]] *)
Definition item0 (l : option (list Choice)) : coro Choice :=
  match l with
  | None => raise TypeError "'NoneType' object is not subscriptable"
  | Some [] => raise IndexError "list index out of range"
  | Some (c :: _) => Ret c
  end.

(** [c.delta] *)
Definition get_delta (c : Choice) : coro (option Delta) :=
  match delta c with
  | Missing => Throw (no_attribute (choice_type c) "delta")
  | IsNone => Ret None
  | Val d => Ret (Some d)
  end.

(** [chunk.choices[0].delta] *)
Definition first_delta (chunk : Chunk) : coro (option Delta) :=
  l ← get_choices chunk; c ← item0 l; get_delta c.

(** [hasattr(d, 'content')] *)
Definition hasattr_content (d : option Delta) : bool :=
  match d with
  | Some d => match content d with Missing => false | _ => true end
  | None => false
  end.

(** [d.content] *)
Definition get_content (d : option Delta) : coro (option string) :=
  match d with
  | None => Throw (no_attribute "NoneType" "content")
  | Some d =>
      match content d with
      | Missing => Throw (no_attribute (delta_type d) "content")
      | IsNone => Ret None
      | Val s => Ret (Some s)
      end
  end.

(** [v or ""] *)
Definition or_empty (v : option string) : string :=
  match v with
  | Some s => if truthy s then s else ""
  | None => ""
  end.

(** The [try] block yields [Some] of what it returns, and [None] when
    control leaves it, or its handler, for the final [return ""]. *)
Definition format_chunk (chunk : Chunk) : coro string :=
  r ← try_except
        (d ← first_delta chunk;
         if hasattr_content d
         then d' ← first_delta chunk;
              v ← get_content d';
              mret (Some (or_empty v))
         else mret None)
        (fun e =>
           if is_Exception e
           then log WARNING ("Error formatting chunk: " +:+ str e);; mret None
           else Throw e);
  match r with
  | Some s => mret s
  | None => mret ""
  end.

(** *** [handle_stream] *)

Section handle_stream.
Context (callback : callback_t) (progress_callback : option progress_callback_t).

(** One turn of the [for] loop, from the value of [full_response] to
    its next value. *)
Definition for_body (chunk : Chunk) (full_response : string) : coro string :=
  cancelled ← TaskCancelled Ret;
  (if cancelled : bool then raise CancelledError "" else mret tt);;
  formatted_chunk ← format_chunk chunk;
  full_response ←
    (if truthy formatted_chunk
     then
       n ← stats_get "chunks_processed" chunks_processed;
       stats_update "chunks_processed" (set_chunks_processed (n + 1));;
       n ← stats_get "total_tokens" total_tokens;
       stats_update "total_tokens"
         (set_total_tokens (n + word_count formatted_chunk));;
       let full_response := full_response +:+ formatted_chunk in
       call callback formatted_chunk;;
       mret full_response
     else mret full_response);
  notify_if progress_callback;;
  mret full_response.

(** The [for] loop, from the stream that is left. *)
Fixpoint for_chunk_in (s : stream) (full_response : string) : coro string :=
  match s with
  | SEnd => mret full_response
  | SRaise e => Throw e
  | SYield chunk rest =>
      full_response ← for_body chunk full_response;
      for_chunk_in rest full_response
  end.

(** The body of the [try] statement. *)
Definition consume (s : stream) : coro string :=
  full_response ← for_chunk_in s "";
  sleep Hundredth;;
  mret full_response.

Definition handle_stream (s : stream) : coro string :=
  full_response ←
    try_except (consume s)
      (fun e =>
         if is_CancelledError e
         then log WARNING "Stream processing cancelled";; Throw e
         else raise StreamProcessError ("Error processing stream: " +:+ str e));
  stats_update "status" (set_status COMPLETED);;
  notify_if progress_callback;;
  mret full_response.
End handle_stream.

(** *** [generate_code_with_explanation] *)

Definition system_prompt : string :=
  "You are an expert code developer. Your task is to generate  codes and provide clear explanations of the code in real-time. Ensure that the code you produce is efficient and follows best practices. The output should be structured and easy to understand, suitable for both beginners and experienced developers.".

(** [range(n)] *)
Definition range (n : Z) : list Z := Z.of_nat <$> seq 0 (Z.to_nat n).

Section generate.
Context (self : StreamingCodeGenerator) (prompt : string)
        (callback : callback_t) (max_retries : Z)
        (progress_callback : option progress_callback_t).

Definition the_request : request :=
  mk_request (model self)
    [("system", system_prompt); ("user", prompt)] true (timeout self).

(** [self.stats = StreamStats(start_time=time.time())] *)
Definition init_stats : coro unit :=
  t ← Clock Ret;
  GetStore (fun st =>
    PutStore (mk_Store (objs st ++ [new_StreamStats t]) (Some (length (objs st))))
      (Ret tt)).

(** The body of the [try] statement of one attempt. *)
Definition attempt_body : coro SessionResult :=
  stats_update "status" (set_status PROCESSING);;
  opened ← Create the_request Ret;
  s ← (match opened with inl e => Throw e | inr s => mret s end);
  final_response ← handle_stream callback progress_callback s;
  stats_update "status" (set_status COMPLETED);;
  ref ← GetStore (fun st => Ret (self_stats st));
  now ← Clock Ret;
  started ← stats_get "start_time" start_time;
  mret (mk_result final_response ref (now - started)%Z).

(** The [except Exception as e] clause of attempt number [attempt]. *)
Definition on_failure (attempt : Z) (e : exn) : coro unit :=
  stats_update "status" (set_status ERROR);;
  log ERROR_LEVEL
    ("Attempt " +:+ str_of_int (attempt + 1) +:+ " failed: " +:+ str e);;
  (if (attempt =? max_retries - 1)%Z
   then raise APIError
          ("Failed after " +:+ str_of_int max_retries +:+ " attempts: " +:+ str e)
   else mret tt);;
  sleep (Seconds (Z.min (2 ^ attempt) 10)).

(** One turn of the [for] loop: [Some] of what the function returns, or
    [None] when the loop goes on. *)
Definition one_attempt (attempt : Z) : coro (option SessionResult) :=
  try_except
    (result ← attempt_body; mret (Some result))
    (fun e =>
       if is_Exception e
       then on_failure attempt e;; mret None
       else Throw e).

(** The [for] loop; a function that reaches its end returns [None]. *)
Fixpoint for_attempt_in (attempts : list Z) : coro (option SessionResult) :=
  match attempts with
  | [] => mret None
  | attempt :: attempts' =>
      returned ← one_attempt attempt;
      match returned with
      | Some result => mret (Some result)
      | None => for_attempt_in attempts'
      end
  end.

Definition generate_code_with_explanation : coro (option SessionResult) :=
  init_stats;;
  for_attempt_in (range max_retries).
End generate.

(** ** Observations on a run *)

(** What [chunk.choices[0].delta.content] is looked up in: the [content]
    attribute of the [delta] of the first choice, when there are a first
    choice and a [delta] object. *)
Definition content_path (chunk : Chunk) : option (attr string) :=
  match choices chunk with
  | Val (c :: _) =>
      match delta c with
      | Val d => Some (content d)
      | _ => None
      end
  | _ => None
  end.

(** The text a chunk carries: the string at the end of the path, if any. *)
Definition fragment_of (chunk : Chunk) : string :=
  match content_path chunk with
  | Some (Val s) => s
  | _ => ""
  end.

(** A chunk without the path, or whose content is [None] or empty. *)
Definition lacks_text (chunk : Chunk) : Prop :=
  content_path chunk = None \/ content_path chunk = Some Missing \/
  content_path chunk = Some IsNone \/ content_path chunk = Some (Val "").

(** The fragments of a list of chunks that are not empty, in order. *)
Definition texts (chunks : list Chunk) : list string :=
  filter (fun s => truthy s = true) (fragment_of <$> chunks).

(** [''.join(l)] *)
Definition join (l : list string) : string := foldr String.append "" l.

Definition sum_list (l : list Z) : Z := foldr Z.add 0%Z l.

Definition records (evs : list event) (m : machine) : machine :=
  mk_machine (store m) (trace m ++ evs) (history m)
             (n_requests m) (n_polls m) (n_sleeps m) (n_clock m).

Definition is_warning (ev : event) : Prop :=
  match ev with EvLog WARNING _ => True | _ => False end.

(** The arguments of the successive calls of the chunk callback. *)
Definition fragments (tr : list event) : list string :=
  omap (fun ev => match ev with EvChunk s => Some s | _ => None end) tr.

(** What the successive calls of the progress callback are given. *)
Definition snapshots (tr : list event) : list (option StreamStats) :=
  omap (fun ev => match ev with EvProgress s => Some s | _ => None end) tr.

(** The streaming requests opened. *)
Definition requests (tr : list event) : list request :=
  omap (fun ev => match ev with EvRequest r => Some r | _ => None end) tr.

(** The messages of [logger.error]. *)
Definition errors_logged (tr : list event) : list string :=
  omap (fun ev => match ev with EvLog ERROR_LEVEL s => Some s | _ => None end) tr.

(** The attempts and the backoff delays of a trace, in order. *)
Inductive mark : Type :=
| Attempt
| Backoff (seconds : Z).

Definition skeleton (tr : list event) : list mark :=
  omap (fun ev =>
          match ev with
          | EvRequest _ => Some Attempt
          | EvSleep (Seconds n) => Some (Backoff n)
          | _ => None
          end) tr.

(** The attempts and delays of a call in which every attempt fails and
    is followed by a delay. *)
Definition retry_schedule (attempts : list Z) : list mark :=
  attempts ≫= (fun attempt => [Attempt; Backoff (Z.min (2 ^ attempt) 10)]).

(** [path R x l y]: [l] lists the states visited after [x], each related
    by [R] to the one before, and [y] is the last of them. *)
Inductive path {A : Type} (R : A -> A -> Prop) : A -> list A -> A -> Prop :=
| path_nil x : path R x [] x
| path_cons x y l z : R x y -> path R y l z -> path R x (y :: l) z.

(** The [stats] attribute refers to the object [r]. *)
Definition refers_to (r : nat) (st : Store) : Prop :=
  self_stats st = Some r /\ is_Some (objs st !! r).

(** From one content of the store to the next, for the object [r] that
    [self.stats] refers to: no object is made, [self.stats] stays, the
    counters do not decrease and the status moves along [T]. *)
Definition evolves (r : nat) (T : StreamStatus -> StreamStatus -> Prop)
    (st st' : Store) : Prop :=
  self_stats st' = Some r /\ length (objs st') = length (objs st) /\
  exists s s',
    objs st !! r = Some s /\ objs st' !! r = Some s' /\
    start_time s' = start_time s /\
    (chunks_processed s <= chunks_processed s')%Z /\
    (total_tokens s <= total_tokens s')%Z /\
    T (status s) (status s').

(** The moves of the status that the code makes. *)
Inductive status_step : StreamStatus -> StreamStatus -> Prop :=
| step_start : status_step INITIALIZING PROCESSING
| step_retry : status_step ERROR PROCESSING
| step_chunk : status_step PROCESSING PROCESSING
| step_done : status_step PROCESSING COMPLETED
| step_done_again : status_step COMPLETED COMPLETED
| step_failed : status_step PROCESSING ERROR
| step_failed_late : status_step COMPLETED ERROR.

(** The moves of the state machine of the specification. *)
Inductive spec_status_step : StreamStatus -> StreamStatus -> Prop :=
| spec_start : spec_status_step INITIALIZING PROCESSING
| spec_retry : spec_status_step ERROR PROCESSING
| spec_chunk : spec_status_step PROCESSING PROCESSING
| spec_done : spec_status_step PROCESSING COMPLETED
| spec_done_again : spec_status_step COMPLETED COMPLETED
| spec_failed : spec_status_step PROCESSING ERROR.

(** The status of the object [r] in a content of the store. *)
Definition status_in (r : nat) (st : Store) : option StreamStatus :=
  status <$> objs st !! r.

(** The events [handle_stream] gives rise to. *)
Definition quiet (ev : event) : Prop :=
  match ev with
  | EvChunk _ | EvProgress _ | EvLog WARNING _ | EvSleep Hundredth => True
  | _ => False
  end.

(** [m'] comes after [m] in a part of a run that opens no request, reads
    no clock, and lets the object [r] evolve along [T]. *)
Definition stays (r : nat) (T : StreamStatus -> StreamStatus -> Prop)
    (m m' : machine) : Prop :=
  exists tr h,
    trace m' = trace m ++ tr /\ Forall quiet tr /\
    history m' = history m ++ h /\
    path (evolves r T) (store m) h (store m') /\
    n_requests m' = n_requests m /\ n_clock m' = n_clock m.

(** The machine after [self.stats.<attribute> = ...] gave the object [r] the
    value [s]. *)
Definition updated (r : nat) (s : StreamStats) (m : machine) : machine :=
  write (mk_Store (<[r := s]> (objs (store m))) (Some r)) m.

(** A callback that raises no [CancelledError]. *)
Definition never_cancels {X : Type} (f : X -> option exn) : Prop :=
  forall x e, f x = Some e -> is_Exception e = true.

Definition never_cancels_if {X : Type} (f : option (X -> option exn)) : Prop :=
  match f with Some p => never_cancels p | None => True end.

(** A callback that returns on every element of a list. *)
Definition returns_on {X : Type} (f : X -> option exn) (l : list X) : Prop :=
  Forall (fun x => f x = None) l.

(** The exception [e] is one the stream raises when advanced. *)
Fixpoint stream_raises (s : stream) (e : exn) : Prop :=
  match s with
  | SEnd => False
  | SRaise e' => e' = e
  | SYield _ rest => stream_raises rest e
  end.

(** Where an exception that leaves the loop of [handle_stream] comes from:
    the cancellation test, a callback, or the stream. *)
Definition raised_in_loop (E : env) (callback : callback_t)
    (progress_callback : option progress_callback_t) (s : stream) (e : exn) : Prop :=
  (e = mk_exn CancelledError "" /\ exists k, cancelled_at E k = true) \/
  (exists x, callback x = Some e) \/
  (exists p x, progress_callback = Some p /\ p x = Some e) \/
  stream_raises s e.

(** The moves of the status in [handle_stream], entered with the object
    [st]: the status stays, and at the end becomes [COMPLETED]. *)
Definition handle_stream_step (st : StreamStats) (a b : StreamStatus) : Prop :=
  a = status st /\ (b = status st \/ b = COMPLETED).

(** Where an exception that leaves [handle_stream] comes from: the loop
    and an [Exception], which is wrapped; the loop or the sleep and a
    [CancelledError]; or the last call of the progress callback. *)
Definition raised_in_handle_stream (E : env) (callback : callback_t)
    (progress_callback : option progress_callback_t) (s : stream) (e : exn) : Prop :=
  (exists e0, raised_in_loop E callback progress_callback s e0 /\
     is_Exception e0 = true /\
     e = mk_exn StreamProcessError ("Error processing stream: " +:+ str e0)) \/
  (is_CancelledError e = true /\
     (raised_in_loop E callback progress_callback s e \/
      (e = mk_exn CancelledError "" /\ exists k, cancel_wakeup E k = true))) \/
  (exists p x, progress_callback = Some p /\ p x = Some e).

(** [m'] comes after [m] in a call: the events [tr] were added, and the
    object [r] evolved along the moves of the status. *)
Definition advances (r : nat) (m m' : machine) (tr : list event) : Prop :=
  trace m' = trace m ++ tr /\
  exists h, history m' = history m ++ h /\
            path (evolves r status_step) (store m) h (store m').

(** Where an exception that leaves the body of an attempt comes from: the
    opening of the stream, or [handle_stream]. *)
Definition raised_in_attempt (E : env) (callback : callback_t)
    (progress_callback : option progress_callback_t)
    (response : exn + stream) (e : exn) : Prop :=
  response = inl e \/
  exists s, response = inr s /\
            raised_in_handle_stream E callback progress_callback s e.

(** The message logged when an attempt fails, and the message of the
    [APIError] raised after the last one. *)
Definition failure_message (attempt : Z) (msg : string) : string :=
  "Attempt " +:+ str_of_int (attempt + 1) +:+ " failed: " +:+ msg.

Definition final_message (max_retries : Z) (msg : string) : string :=
  "Failed after " +:+ str_of_int max_retries +:+ " attempts: " +:+ msg.

(** The attempts [i], [i + 1], ... of the loop, [n] of them. *)
Definition attempts_from (i n : nat) : list Z := Z.of_nat <$> seq i n.

(** The store once a call has set [self.stats] to a new object. *)
Definition store_at_start (E : env) (m : machine) : Store :=
  mk_Store (objs (store m) ++ [new_StreamStats (clock E (n_clock m))])
           (Some (length (objs (store m)))).

(** A response of the service that makes the attempt fail: the request
    raises an [Exception], or the stream does after some chunks. *)
Definition fails (response : exn + stream) : Prop :=
  (exists e, response = inl e /\ is_Exception e = true) \/
  (exists chunks e,
     response = inr (stream_app chunks (SRaise e)) /\ is_Exception e = true).

(** Nothing cancels the task: no test of cancellation succeeds, no sleep
    is woken by a cancellation and no callback raises one. *)
Definition no_cancellation (E : env) (callback : callback_t)
    (progress_callback : option progress_callback_t) : Prop :=
  (forall k, cancelled_at E k = false) /\
  (forall k, cancel_wakeup E k = false) /\
  never_cancels callback /\ never_cancels_if progress_callback.

(** Callbacks that never raise. *)
Definition never_raises {X : Type} (f : X -> option exn) : Prop :=
  forall x, f x = None.

Definition never_raises_if {X : Type} (f : option (X -> option exn)) : Prop :=
  match f with Some p => never_raises p | None => True end.

(** A delay of the schedule is at most ten seconds. *)
Definition within_cap (mk : mark) : Prop :=
  match mk with Backoff d => (d <= 10)%Z | Attempt => True end.

(** The counters of the object [r] do not decrease from [st] to [st']. *)
Definition grows (r : nat) (st st' : Store) : Prop :=
  exists s s',
    objs st !! r = Some s /\ objs st' !! r = Some s' /\
    (chunks_processed s <= chunks_processed s')%Z /\
    (total_tokens s <= total_tokens s')%Z.

(** The statistics a result refers to, in the store of a machine. *)
Definition stats_of (m : machine) (res : SessionResult) : option StreamStats :=
  r ← stats res; objs (store m) !! r.

(** What a finished task returned. *)
Definition returned_by {A : Type} (t : option (task (option A))) : option A :=
  match t with
  | Some (Done (Returned (Some a))) => Some a
  | _ => None
  end.

(** What [asyncio] answers a task that runs: [Task.cancelled()] is [False]
    until the task is done, also once [cancel()] has been called on it; the
    request is delivered as a [CancelledError] thrown into the coroutine
    at its next [await]. *)
Definition running_task (E : env) : Prop := forall k, cancelled_at E k = false.

(** ** Examples *)

(** A chunk of the service that carries [s]. *)
Definition text_chunk (s : string) : Chunk :=
  mk_Chunk "ChatCompletionChunk"
    (Val [mk_Choice "Choice" (Val (mk_Delta "ChoiceDelta" (Val s)))]).

(** The chunk without choices of the tests. *)
Definition malformed_chunk : Chunk := mk_Chunk "Chunk" (Val []).

Definition generator : StreamingCodeGenerator :=
  mk_generator "gpt-3.5-turbo" 60 1024.

(** An environment in which nothing is cancelled and the service answers
    its [k]-th request by [response k]. *)
Definition calm (response : nat -> exn + stream) : env :=
  mk_env (fun _ k => response k) (fun _ => false) (fun _ => false) Z.of_nat.

Definition silent : callback_t := fun _ => None.
Definition watching : option progress_callback_t := Some (fun _ => None).

Definition timeout_error : exn :=
  mk_exn (OtherException "APITimeoutError") "Request timed out.".

(** The scenario of the specification: three fragments. *)
Definition add_chunks : list Chunk :=
  [text_chunk "def add(a"; text_chunk "Okay, c"; text_chunk "... urn a+b"].

(** The machine of a generator just made: [self.stats] is [None]. *)
Definition machine0 : machine := mk_machine (mk_Store [] None) [] [] 0 0 0 0.

(** A machine in which [self.stats] refers to a fresh object. *)
Definition machine1 : machine :=
  mk_machine (mk_Store [new_StreamStats 0%Z] (Some 0)) [] [] 0 0 0 0.

(** A stream that breaks after its first chunk. *)
Definition broken_stream : stream :=
  stream_app [text_chunk "def"] (SRaise (mk_exn (OtherException "APIConnectionError") "Connection error.")).

(** A service that fails three times: a timeout, a stream that breaks,
    a timeout. *)
Definition failing_service (k : nat) : exn + stream :=
  match k with
  | 1 => inr broken_stream
  | _ => inl timeout_error
  end.

(** A progress callback that raises. *)
Definition raising : option progress_callback_t :=
  Some (fun _ => Some (mk_exn (OtherException "RuntimeError") "observer failed")).

(** A task that is cancelled while it goes through the stream of the
    scenario, as [asyncio] has it: the test of cancellation answers
    [False], and the [CancelledError] comes with the first sleep. *)
Definition cancelled_while_streaming : env :=
  mk_env (fun _ _ => inr (stream_of add_chunks))
         (fun _ => false) (fun k => Nat.eqb k 0) Z.of_nat.

(** Two calls on the same generator: the service answers the first
    request by three words and the second by one. *)
Definition two_streams (k : nat) : exn + stream :=
  match k with
  | 0 => inr (stream_of [text_chunk "x y z"])
  | _ => inr (stream_of [text_chunk "w"])
  end.

Definition two_calls : list (task (option SessionResult)) :=
  [Ready (generate_code_with_explanation generator "first" silent 3 None);
   Ready (generate_code_with_explanation generator "second" silent 3 None)].

(** A service whose first stream breaks after the chunk ["a"], and whose
    second stream is the single chunk ["b"]. *)
Definition retry_service (k : nat) : exn + stream :=
  match k with
  | 0 => inr (stream_app [text_chunk "a"]
                (SRaise (mk_exn (OtherException "APIConnectionError") "Connection error.")))
  | _ => inr (stream_of [text_chunk "b"])
  end.

(** A machine in which [self.stats] refers to an object that a first
    attempt has left with one chunk and one word, at the start of the
    next attempt. *)
Definition machine_retried : machine :=
  mk_machine (mk_Store [mk_StreamStats 0%Z 1%Z 1%Z PROCESSING] (Some 0)) [] [] 0 0 0 0.

(** ** The constructor *)

(** [StreamingCodeGenerator(api_key, model, timeout, chunk_size)]: the
    constructor keeps the configuration and sets [self.stats = None]. The
    client it makes of [api_key] is the service of the environment. *)
Definition new_StreamingCodeGenerator (api_key model : string) (timeout chunk_size : Z) :
    coro StreamingCodeGenerator :=
  GetStore (fun st =>
    PutStore (mk_Store (objs st) None)
      (Ret (mk_generator model timeout chunk_size))).

(** ** Further observations on a run *)

(** A string of whitespace only. *)
Fixpoint blank (s : string) : bool :=
  match s with
  | EmptyString => true
  | String c s' => isspace c && blank s'
  end.

(** What the progress callback is shown, checked against the deliveries:
    over the events [tr], each object shown holds the count [n] of the
    fragments delivered before and the count [t] of their words. *)
Fixpoint audit (n t : Z) (tr : list event) : bool :=
  match tr with
  | [] => true
  | EvChunk f :: tr' => audit (n + 1) (t + word_count f) tr'
  | EvProgress (Some s) :: tr' =>
      (chunks_processed s =? n)%Z && (total_tokens s =? t)%Z && audit n t tr'
  | EvProgress None :: _ => false
  | _ :: tr' => audit n t tr'
  end.

(** The progress callback is shown an object whose status satisfies [P]. *)
Definition shown (P : StreamStatus -> Prop) (seen : option StreamStats) : Prop :=
  exists s, seen = Some s /\ P (status s).

(** It is shown an object whose status is [PROCESSING] or [COMPLETED]. *)
Definition in_progress (seen : option StreamStats) : Prop :=
  shown (fun x => x = PROCESSING \/ x = COMPLETED) seen.

(** [m'] comes after [m] and the events [tr]: the object [r] that
    [self.stats] refers to has counted the fragments delivered in [tr] and
    their words, every other object is as it was, and the progress callback
    was shown the counters of the moment. *)
Definition accounts (r : nat) (m m' : machine) (tr : list event) : Prop :=
  trace m' = trace m ++ tr /\
  self_stats (store m') = Some r /\
  length (objs (store m')) = length (objs (store m)) /\
  (forall j, j <> r -> objs (store m') !! j = objs (store m) !! j) /\
  exists s s',
    objs (store m) !! r = Some s /\ objs (store m') !! r = Some s' /\
    start_time s' = start_time s /\
    chunks_processed s' =
      (chunks_processed s + Z.of_nat (length (fragments tr)))%Z /\
    total_tokens s' =
      (total_tokens s + sum_list (word_count <$> fragments tr))%Z /\
    audit (chunks_processed s) (total_tokens s) tr = true.

(** What a call reads of the clock after its start: nothing, unless it
    returns a result, whose [completion_time] is then that reading less
    the [start_time] of the object. *)
Definition timed (E : env) {A : Type} (result : A -> option SessionResult)
    (m m' : machine) (started : time) (o : outcome A) : Prop :=
  match o with
  | Returned a =>
      match result a with
      | Some res =>
          n_clock m' = S (n_clock m) /\
          completion_time res = (clock E (n_clock m) - started)%Z
      | None => n_clock m' = n_clock m
      end
  | Raised _ => n_clock m' = n_clock m
  end.

(** [min(2 ** attempt, 10)] *)
Definition backoff_delay (attempt : Z) : Z := Z.min (2 ^ attempt) 10.

(** The delays of the backoff sleeps of a trace, in seconds. *)
Definition backoffs (tr : list event) : list Z :=
  omap (fun ev => match ev with EvSleep (Seconds n) => Some n | _ => None end) tr.

(** What the progress callback was shown last in an attempt that
    returned: the object as the call leaves it. *)
Definition shown_last (pcb : option progress_callback_t) (tr : list event)
    (n : nat) (st' : StreamStats) : Prop :=
  match pcb with
  | Some _ =>
      exists seen last,
        snapshots tr = seen ++ [Some last] /\ length seen = n /\
        status last = COMPLETED /\
        chunks_processed last = chunks_processed st' /\
        total_tokens last = total_tokens st'
  | None => snapshots tr = []
  end.

(** Nothing disturbs the call: no test of cancellation succeeds, no sleep
    is woken by a cancellation, and the callbacks raise nothing. *)
Definition undisturbed (E : env) (callback : callback_t)
    (progress_callback : option progress_callback_t) : Prop :=
  (forall k, cancelled_at E k = false) /\
  (forall k, cancel_wakeup E k = false) /\
  never_raises callback /\ never_raises_if progress_callback.

(** ** The collector of the tests *)

Module StreamCollector.

(** [StreamCollector.chunk_callback] appends the fragment to
    [collector.chunks] and returns: the list is the fragments of the
    trace. *)
Definition chunk_callback : callback_t := fun _ => None.

(** [StreamCollector.progress_callback] reads [stats.chunks_processed] and
    [stats.status] and appends them to [collector.progress_updates]. *)
Definition progress_callback : progress_callback_t :=
  fun stats =>
    match stats with
    | Some _ => None
    | None => Some (no_attribute "NoneType" "chunks_processed")
    end.

(** [collector.progress_updates] after the events [tr]: the values of
    ['chunks'] and ['status'] of each call. *)
Definition progress_updates (tr : list event) : list (Z * StreamStatus) :=
  omap (fun seen => (fun s => (chunks_processed s, status s)) <$> seen) (snapshots tr).
End StreamCollector.

(** * Properties *)

(** ** Running a coroutine *)

Lemma run_bind {A B : Type} (E : env) (c : coro A) (f : A -> coro B) (m : machine) :
  run E (c ≫= f) m =
  match run E c m with
  | (m', Returned a) => run E (f a) m'
  | (m', Raised e) => (m', Raised e)
  end.
Proof.
  unfold mbind, coro_bind. revert m.
  induction c as [a|e|k IH|st k IH|ev k IH|req k IH|k IH|d k IH|k IH];
    intros m; simpl; auto.
Qed.

Lemma run_try_except {A : Type} (E : env) (c : coro A) (h : exn -> coro A) (m : machine) :
  run E (try_except c h) m =
  match run E c m with
  | (m', Returned a) => (m', Returned a)
  | (m', Raised e) => run E (h e) m'
  end.
Proof.
  revert m.
  induction c as [a|e|k IH|st k IH|ev k IH|req k IH|k IH|d k IH|k IH];
    intros m; simpl; auto.
Qed.

Lemma run_ret {A : Type} (E : env) (a : A) (m : machine) :
  run E (mret a) m = (m, Returned a).
Proof. reflexivity. Qed.

(** A task that runs alone is a task of the event loop that is resumed as
    soon as it sleeps. *)
Lemma run_advance {A : Type} (E : env) (c : coro A) (m : machine) :
  run E c m =
  match advance E c m with
  | (m', Finished o) => (m', o)
  | (m', Suspended k) => run E (k (cancel_wakeup E (pred (n_sleeps m')))) m'
  end.
Proof.
  revert m.
  induction c as [a|e|k IH|st k IH|ev k IH|req k IH|k IH|d k IH|k IH];
    intros m; simpl; auto.
Qed.

Lemma records_nil (m : machine) : records [] m = m.
Proof. destruct m. unfold records. simpl. by rewrite app_nil_r. Qed.

(** ** [format_chunk] *)

(** [format_chunk] returns the text the chunk carries, and does nothing
    else than log warnings. *)
Lemma format_chunk_run (E : env) (chunk : Chunk) (m : machine) :
  exists evs, Forall is_warning evs /\
    run E (format_chunk chunk) m = (records evs m, Returned (fragment_of chunk)).
Proof.
  destruct chunk as [ty [| |[|[cty [| |[dty [| |s]]]] l]]];
    unfold format_chunk, fragment_of, content_path; simpl;
    try (eexists [EvLog WARNING _]; split;
         [repeat constructor | reflexivity]);
    try (exists []; split; [constructor | by rewrite records_nil]).
  exists []. split; [constructor|]. rewrite records_nil.
  by destruct s.
Qed.

(** ** Paths and traces *)

Lemma path_app {A : Type} (R : A -> A -> Prop) x l1 y l2 z :
  path R x l1 y -> path R y l2 z -> path R x (l1 ++ l2) z.
Proof.
  induction 1 as [x|x y' l z' Hxy Hp IH]; simpl; intros H2; auto.
  constructor; auto.
Qed.

Lemma path_weaken {A : Type} (R R' : A -> A -> Prop) x l y :
  (forall a b, R a b -> R' a b) -> path R x l y -> path R' x l y.
Proof. intros HR. induction 1; constructor; auto. Qed.

Lemma fragments_app tr1 tr2 : fragments (tr1 ++ tr2) = fragments tr1 ++ fragments tr2.
Proof. apply omap_app. Qed.
Lemma snapshots_app tr1 tr2 : snapshots (tr1 ++ tr2) = snapshots tr1 ++ snapshots tr2.
Proof. apply omap_app. Qed.
Lemma requests_app tr1 tr2 : requests (tr1 ++ tr2) = requests tr1 ++ requests tr2.
Proof. apply omap_app. Qed.
Lemma errors_logged_app tr1 tr2 :
  errors_logged (tr1 ++ tr2) = errors_logged tr1 ++ errors_logged tr2.
Proof. apply omap_app. Qed.
Lemma skeleton_app tr1 tr2 : skeleton (tr1 ++ tr2) = skeleton tr1 ++ skeleton tr2.
Proof. apply omap_app. Qed.

Lemma quiet_silent tr :
  Forall quiet tr ->
  requests tr = [] /\ errors_logged tr = [] /\ skeleton tr = [].
Proof.
  induction 1 as [|ev tr Hev _ (IH1 & IH2 & IH3)]; [done|].
  destruct ev as [?|?|?|[] ?|[]]; simpl in *; try done.
Qed.

Lemma warnings_quiet evs : Forall is_warning evs -> Forall quiet evs.
Proof. intros H. eapply Forall_impl; [exact H|]. by intros [?|?|?|[] ?|?]. Qed.

Lemma warnings_silent evs :
  Forall is_warning evs -> fragments evs = [] /\ snapshots evs = [].
Proof.
  induction 1 as [|ev tr Hev _ (IH1 & IH2)]; [done|].
  destruct ev as [?|?|?|[] ?|?]; simpl in *; try done.
Qed.

(** ** References *)

Lemma evolves_refers r T st st' : evolves r T st st' -> refers_to r st'.
Proof. intros (Hr & _ & s & s' & _ & Hs' & _). split; eauto. Qed.

Lemma path_refers r T st h st' :
  refers_to r st -> path (evolves r T) st h st' -> refers_to r st'.
Proof. intros Hr Hp. induction Hp; eauto using evolves_refers. Qed.

Lemma current_stats_refers r st s :
  self_stats st = Some r -> objs st !! r = Some s -> current_stats st = Some s.
Proof. unfold current_stats. intros -> H. simpl. exact H. Qed.

Lemma lookup_updated r s s' (l : list StreamStats) :
  l !! r = Some s -> <[r := s']> l !! r = Some s'.
Proof. intros H. apply list_lookup_insert_eq. by eapply lookup_lt_Some. Qed.

(** ** [stays] *)

Lemma stays_refl r T m : stays r T m m.
Proof.
  exists [], []. rewrite !app_nil_r. repeat split; auto. constructor.
Qed.

Lemma stays_trans r T m1 m2 m3 : stays r T m1 m2 -> stays r T m2 m3 -> stays r T m1 m3.
Proof.
  intros (tr1 & h1 & Ht1 & Hq1 & Hh1 & Hp1 & Hn1 & Hc1)
         (tr2 & h2 & Ht2 & Hq2 & Hh2 & Hp2 & Hn2 & Hc2).
  exists (tr1 ++ tr2), (h1 ++ h2).
  rewrite Ht2, Ht1, Hh2, Hh1, !app_assoc.
  repeat split; auto; try congruence.
  - by apply Forall_app.
  - eapply path_app; eauto.
Qed.

Lemma stays_weaken r (T T' : StreamStatus -> StreamStatus -> Prop) m m' :
  (forall a b, T a b -> T' a b) -> stays r T m m' -> stays r T' m m'.
Proof.
  intros HT (tr & h & Ht & Hq & Hh & Hp & Hn & Hc).
  exists tr, h. repeat split; auto.
  eapply path_weaken; [|exact Hp].
  intros a b (H1 & H2 & s & s' & H3 & H4 & H5 & H6 & H7 & H8).
  split; [done|]. split; [done|]. exists s, s'. repeat split; auto.
Qed.

Lemma stays_refers r T m m' : refers_to r (store m) -> stays r T m m' -> refers_to r (store m').
Proof. intros Hr (tr & h & _ & _ & _ & Hp & _). eapply path_refers; eauto. Qed.

Lemma stays_records r T m evs : Forall quiet evs -> stays r T m (records evs m).
Proof.
  intros Hq. exists evs, []. simpl. rewrite app_nil_r.
  repeat split; auto. constructor.
Qed.

Lemma stays_record r T m ev : quiet ev -> stays r T m (record ev m).
Proof. intros Hq. apply (stays_records r T m [ev]). by constructor. Qed.

Lemma stays_polled r T m : stays r T m (polled m).
Proof.
  exists [], []. simpl. rewrite !app_nil_r. repeat split; auto. constructor.
Qed.

Lemma stays_slept r T m : stays r T m (slept Hundredth m).
Proof.
  exists [EvSleep Hundredth], []. simpl. rewrite !app_nil_r.
  repeat split; auto; repeat constructor.
Qed.

Lemma stays_updated r T m s s' :
  self_stats (store m) = Some r -> objs (store m) !! r = Some s ->
  start_time s' = start_time s ->
  (chunks_processed s <= chunks_processed s')%Z ->
  (total_tokens s <= total_tokens s')%Z ->
  T (status s) (status s') ->
  stays r T m (updated r s' m).
Proof.
  intros Hr Hs H1 H2 H3 H4.
  exists [], [mk_Store (<[r := s']> (objs (store m))) (Some r)].
  simpl. rewrite app_nil_r. repeat split; auto.
  repeat constructor; simpl; auto.
  - by rewrite length_insert.
  - exists s, s'. repeat split; eauto using lookup_updated.
Qed.

(** ** The operations on [self.stats] *)

Lemma run_stats_get {X : Type} (E : env) name (f : StreamStats -> X) m r s :
  self_stats (store m) = Some r -> objs (store m) !! r = Some s ->
  run E (stats_get name f) m = (m, Returned (f s)).
Proof.
  intros Hr Hs. simpl. by rewrite (current_stats_refers r _ s).
Qed.

Lemma run_stats_update (E : env) name f m r s :
  self_stats (store m) = Some r -> objs (store m) !! r = Some s ->
  run E (stats_update name f) m = (updated r (f s) m, Returned tt).
Proof.
  intros Hr Hs. simpl. by rewrite Hr, (current_stats_refers r _ s Hr Hs).
Qed.

(** ** The primitive operations *)

Lemma run_poll (E : env) m : run E (TaskCancelled Ret) m = (polled m, Returned (cancelled_at E (n_polls m))).
Proof. reflexivity. Qed.
Lemma run_raise {A : Type} (E : env) cls msg m : run E (@raise A cls msg) m = (m, Raised (mk_exn cls msg)).
Proof. reflexivity. Qed.
Lemma run_throw {A : Type} (E : env) e m : run E (@Throw A e) m = (m, Raised e).
Proof. reflexivity. Qed.
Lemma run_log (E : env) lvl msg m : run E (log lvl msg) m = (record (EvLog lvl msg) m, Returned tt).
Proof. reflexivity. Qed.
Lemma run_sleep (E : env) d m :
  run E (sleep d) m =
  (slept d m, if cancel_wakeup E (n_sleeps m) then Raised (mk_exn CancelledError "") else Returned tt).
Proof. simpl. by destruct (cancel_wakeup E (n_sleeps m)). Qed.
Lemma run_call (E : env) cb f m :
  run E (call cb f) m =
  (record (EvChunk f) m, match cb f with Some e => Raised e | None => Returned tt end).
Proof. simpl. by destruct (cb f). Qed.
Lemma run_notify (E : env) p m :
  run E (notify p) m =
  (record (EvProgress (current_stats (store m))) m,
   match p (current_stats (store m)) with Some e => Raised e | None => Returned tt end).
Proof. simpl. by destruct (p _). Qed.
Lemma run_clock (E : env) m : run E (Clock Ret) m = (ticked m, Returned (clock E (n_clock m))).
Proof. reflexivity. Qed.
Lemma run_create (E : env) req m :
  run E (Create req Ret) m = (requested req m, Returned (service E req (n_requests m))).
Proof. reflexivity. Qed.

Lemma append_empty_r s : s +:+ "" = s.
Proof.
  induction s as [|a s IH]; [reflexivity|].
  change (String a (s +:+ "") = String a s). by rewrite IH.
Qed.

Ltac run_pure :=
  repeat first
    [ rewrite run_bind | rewrite run_ret | rewrite run_poll | rewrite run_raise
    | rewrite run_throw | rewrite run_log | rewrite run_call | rewrite run_notify
    | rewrite run_clock | rewrite run_create | rewrite run_sleep
    | progress cbv beta iota zeta ].

(** ** One turn of the loop of [handle_stream] *)

Lemma for_body_spec (E : env) cb pcb chunk full m m' o r s :
  self_stats (store m) = Some r -> objs (store m) !! r = Some s ->
  run E (for_body cb pcb chunk full) m = (m', o) ->
  stays r eq m m' /\ n_sleeps m' = n_sleeps m /\ n_polls m' = S (n_polls m) /\
  match o with
  | Returned full' =>
      cancelled_at E (n_polls m) = false /\
      full' = full +:+ fragment_of chunk /\
      exists tr s',
        trace m' = trace m ++ tr /\
        fragments tr = (if truthy (fragment_of chunk) then [fragment_of chunk] else []) /\
        snapshots tr = match pcb with Some _ => [Some s'] | None => [] end /\
        objs (store m') !! r = Some s' /\
        chunks_processed s' =
          (chunks_processed s + if truthy (fragment_of chunk) then 1 else 0)%Z /\
        total_tokens s' =
          (total_tokens s +
           if truthy (fragment_of chunk) then word_count (fragment_of chunk) else 0)%Z /\
        status s' = status s
  | Raised e =>
      (cancelled_at E (n_polls m) = true /\ e = mk_exn CancelledError "" /\
       trace m' = trace m) \/
      (cancelled_at E (n_polls m) = false /\
       ((truthy (fragment_of chunk) = true /\ cb (fragment_of chunk) = Some e) \/
        exists p x, pcb = Some p /\ p x = Some e))
  end.
Proof.
  intros Hr Hs. unfold for_body. run_pure.
  destruct (cancelled_at E (n_polls m)) eqn:Hc; run_pure.
  { intros [= <- <-]. repeat split; auto using stays_polled. }
  destruct (format_chunk_run E chunk (polled m)) as (evs & Hw & ->). run_pure.
  set (f := fragment_of chunk).
  set (m1 := records evs (polled m)).
  assert (H1 : stays r eq m m1).
  { eapply stays_trans; [apply stays_polled|]. apply stays_records.
    by apply warnings_quiet. }
  destruct (warnings_silent evs Hw) as (Hf1 & Hp1).
  destruct (truthy f) eqn:Ht; run_pure.
  - erewrite run_stats_get by (simpl; eauto). run_pure.
    erewrite run_stats_update by (simpl; eauto). run_pure.
    set (s2 := set_chunks_processed (chunks_processed s + 1) s).
    set (m2 := updated r s2 m1).
    assert (H2 : stays r eq m1 m2).
    { eapply stays_updated; unfold s2; simpl; eauto. all: lia. }
    erewrite (run_stats_get _ _ _ m2 r s2) by (simpl; eauto using lookup_updated).
    run_pure.
    erewrite (run_stats_update _ _ _ m2 r s2) by (simpl; eauto using lookup_updated).
    run_pure.
    set (s3 := set_total_tokens (total_tokens s2 + word_count f) s2).
    set (m3 := updated r s3 m2).
    assert (H3 : stays r eq m2 m3).
    { eapply stays_updated; unfold s3, s2; simpl; eauto using lookup_updated.
      all: unfold word_count; simpl; lia. }
    assert (H4 : stays r eq m (record (EvChunk f) m3)).
    { eapply stays_trans; [exact H1|]. eapply stays_trans; [exact H2|].
      eapply stays_trans; [exact H3|]. by apply stays_record. }
    destruct (cb f) as [e|] eqn:Hcb; run_pure.
    { intros [= <- <-]. repeat split; auto. }
    assert (Hcur : current_stats (store (record (EvChunk f) m3)) = Some s3).
    { apply (current_stats_refers r); simpl; eauto using lookup_updated. }
    assert (Hs3 : objs (store m3) !! r = Some s3).
    { simpl; eauto using lookup_updated. }
    destruct pcb as [p|]; unfold notify_if; run_pure.
    + rewrite Hcur.
      assert (H5 : stays r eq m (record (EvProgress (Some s3)) (record (EvChunk f) m3))).
      { eapply stays_trans; [exact H4|]. by apply stays_record. }
      destruct (p (Some s3)) as [e|] eqn:Hp; intros [= <- <-].
      { repeat split; auto. right. split; [done|]. right. eauto. }
      repeat split; auto.
      exists (evs ++ [EvChunk f; EvProgress (Some s3)]), s3.
      rewrite fragments_app, snapshots_app, Hf1, Hp1. simpl.
      rewrite <- !app_assoc. repeat split; auto.
    + intros [= <- <-]. repeat split; auto.
      exists (evs ++ [EvChunk f]), s3.
      rewrite fragments_app, snapshots_app, Hf1, Hp1. simpl.
      rewrite <- !app_assoc. repeat split; auto.
  - assert (Hcur : current_stats (store m1) = Some s).
    { apply (current_stats_refers r); simpl; eauto. }
    assert (Hf : f = "") by (by destruct f).
    destruct pcb as [p|]; unfold notify_if; run_pure.
    + rewrite Hcur.
      assert (H5 : stays r eq m (record (EvProgress (Some s)) m1)).
      { eapply stays_trans; [exact H1|]. by apply stays_record. }
      destruct (p (Some s)) as [e|] eqn:Hp; intros [= <- <-].
      { repeat split; auto. right. split; [done|]. right. eauto. }
      repeat split; auto.
      { by rewrite Hf, append_empty_r. }
      exists (evs ++ [EvProgress (Some s)]), s.
      rewrite fragments_app, snapshots_app, Hf1, Hp1. simpl.
      rewrite <- !app_assoc. repeat split; auto; lia.
    + intros [= <- <-]. repeat split; auto.
      { by rewrite Hf, append_empty_r. }
      exists evs, s. repeat split; auto; lia.
Qed.

(** ** The loop of [handle_stream] *)

Lemma append_assoc (s1 s2 s3 : string) : (s1 +:+ s2) +:+ s3 = s1 +:+ (s2 +:+ s3).
Proof.
  induction s1 as [|a s1 IH]; [reflexivity|].
  change (String a ((s1 +:+ s2) +:+ s3) = String a (s1 +:+ (s2 +:+ s3))).
  by rewrite IH.
Qed.

Lemma truthy_false (s : string) : truthy s = false -> s = "".
Proof. by destruct s. Qed.

Lemma texts_cons (c : Chunk) (l : list Chunk) :
  texts (c :: l) =
  if truthy (fragment_of c) then fragment_of c :: texts l else texts l.
Proof.
  unfold texts. rewrite fmap_cons, filter_cons.
  destruct (truthy (fragment_of c)); by case_decide.
Qed.

Lemma for_chunk_in_spec (E : env) cb pcb s full m m' o r st :
  self_stats (store m) = Some r -> objs (store m) !! r = Some st ->
  run E (for_chunk_in cb pcb s full) m = (m', o) ->
  stays r eq m m' /\ n_sleeps m' = n_sleeps m /\
  match o with
  | Returned text =>
      exists chunks tr st',
        s = stream_of chunks /\
        (forall k, k < length chunks -> cancelled_at E (n_polls m + k) = false) /\
        n_polls m' = n_polls m + length chunks /\
        text = full +:+ join (texts chunks) /\
        trace m' = trace m ++ tr /\
        fragments tr = texts chunks /\
        length (snapshots tr) =
          match pcb with Some _ => length chunks | None => 0 end /\
        objs (store m') !! r = Some st' /\
        chunks_processed st' =
          (chunks_processed st + Z.of_nat (length (texts chunks)))%Z /\
        total_tokens st' =
          (total_tokens st + sum_list (word_count <$> texts chunks))%Z /\
        status st' = status st
  | Raised e => raised_in_loop E cb pcb s e
  end.
Proof.
  revert full m st. induction s as [|e0|chunk rest IH]; intros full m st Hr Hst.
  - simpl. intros [= <- <-]. split; [apply stays_refl|]. split; [done|].
    exists [], [], st. rewrite !app_nil_r, append_empty_r, Nat.add_0_r.
    repeat split; auto; simpl; try lia; by destruct pcb.
  - simpl. intros [= <- <-]. split; [apply stays_refl|]. split; [done|].
    right. right. right. reflexivity.
  - cbn [for_chunk_in]. rewrite run_bind.
    destruct (run E (for_body cb pcb chunk full) m) as [m1 o1] eqn:Hbody.
    destruct (for_body_spec E cb pcb chunk full m m1 o1 r st Hr Hst Hbody)
      as (Hstay1 & Hsl1 & Hpo1 & Ho1).
    destruct o1 as [full1|e1].
    + destruct Ho1 as (Hc & -> & tr1 & st1 & Htr1 & Hf1 & Hp1 & Hst1 & Hn1 & Ht1 & Hs1).
      intros Hrest.
      assert (Hr1 : self_stats (store m1) = Some r).
      { eapply stays_refers; [|exact Hstay1]. split; eauto. }
      destruct (IH _ m1 st1 Hr1 Hst1 Hrest) as (Hstay2 & Hsl2 & Ho).
      split; [eapply stays_trans; eauto|]. split; [congruence|].
      destruct o as [text|e]; [|].
      * destruct Ho as (chunks & tr2 & st2 & -> & Hc2 & Hpo2 & -> & Htr2 & Hf2
                        & Hp2 & Hst2 & Hn2 & Ht2 & Hs2).
        exists (chunk :: chunks), (tr1 ++ tr2), st2.
        rewrite texts_cons, fragments_app, snapshots_app, length_app, Hf1, Hf2, Hp2, Hp1.
        rewrite Htr2, Htr1, Hpo2, Hpo1, Hn2, Hn1, Ht2, Ht1, Hs2, Hs1, <- app_assoc.
        repeat split; auto.
        -- intros [|k] Hk; [by rewrite Nat.add_0_r|].
           replace (n_polls m + S k) with (n_polls m1 + k) by lia.
           apply Hc2. simpl in Hk. lia.
        -- rewrite append_assoc.
           destruct (truthy (fragment_of chunk)) eqn:Ht; [done|].
           by rewrite (truthy_false _ Ht).
        -- by destruct (truthy (fragment_of chunk)).
        -- destruct pcb; simpl; lia.
        -- destruct (truthy (fragment_of chunk)); rewrite ?length_cons; lia.
        -- destruct (truthy (fragment_of chunk)); rewrite ?fmap_cons; simpl; lia.
      * destruct Ho as [(-> & Hk)|[Hcb|[Hp|Hs]]].
        -- left. eauto.
        -- right. left. eauto.
        -- right. right. left. eauto.
        -- right. right. right. exact Hs.
    + intros [= <- <-]. split; [done|]. split; [done|].
      destruct Ho1 as [(Hc & -> & _)|(Hc & [(_ & Hcb)|Hp])].
      * left. eauto.
      * right. left. eauto.
      * right. right. left. exact Hp.
Qed.

(** ** [handle_stream] *)

Lemma path_eq_status r (x y : Store) h st :
  objs x !! r = Some st ->
  path (evolves r eq) x h y ->
  path (evolves r (fun a b => a = status st /\ b = status st)) x h y /\
  exists st', objs y !! r = Some st' /\ status st' = status st.
Proof.
  intros Hst Hp. revert st Hst.
  induction Hp as [x|x y l z Hxy Hp IH]; intros st Hst.
  - split; [constructor|eauto].
  - destruct Hxy as (H1 & H2 & s & s' & H3 & H4 & H5 & H6 & H7 & H8).
    assert (s = st) as -> by congruence.
    destruct (IH s' H4) as (IH1 & st' & IH2 & IH3).
    split; [|exists st'; split; [done|congruence]].
    constructor.
    + split; [done|]. split; [done|]. exists st, s'. repeat split; auto.
    + eapply path_weaken; [|exact IH1]. rewrite <- H8.
      intros a b (G1 & G2 & t & t' & G3 & G4 & G5 & G6 & G7 & G8 & G9).
      split; [done|]. split; [done|]. exists t, t'. repeat split; auto.
Qed.

Lemma stays_eq_status r m m' st :
  objs (store m) !! r = Some st ->
  stays r eq m m' ->
  stays r (handle_stream_step st) m m' /\
  exists st', objs (store m') !! r = Some st' /\ status st' = status st.
Proof.
  intros Hst (tr & h & Ht & Hq & Hh & Hp & Hn & Hc).
  destruct (path_eq_status r _ _ h st Hst Hp) as (Hp' & Hst').
  split; [|exact Hst'].
  exists tr, h. repeat split; auto.
  eapply path_weaken; [|exact Hp'].
  intros a b (G1 & G2 & t & t' & G3 & G4 & G5 & G6 & G7 & G8 & G9).
  split; [done|]. split; [done|]. exists t, t'. repeat split; auto.
Qed.

Lemma handle_stream_spec (E : env) cb pcb s m m' o r st :
  self_stats (store m) = Some r -> objs (store m) !! r = Some st ->
  run E (handle_stream cb pcb s) m = (m', o) ->
  stays r (handle_stream_step st) m m' /\
  match o with
  | Returned text =>
      exists chunks tr st',
        s = stream_of chunks /\
        (forall k, k < length chunks -> cancelled_at E (n_polls m + k) = false) /\
        cancel_wakeup E (n_sleeps m) = false /\
        text = join (texts chunks) /\
        trace m' = trace m ++ tr /\
        fragments tr = texts chunks /\
        match pcb with
        | Some _ =>
            exists seen, snapshots tr = seen ++ [Some st'] /\
                         length seen = length chunks
        | None => snapshots tr = []
        end /\
        objs (store m') !! r = Some st' /\
        chunks_processed st' =
          (chunks_processed st + Z.of_nat (length (texts chunks)))%Z /\
        total_tokens st' =
          (total_tokens st + sum_list (word_count <$> texts chunks))%Z /\
        status st' = COMPLETED
  | Raised e =>
      (exists st', objs (store m') !! r = Some st' /\
                   (status st' = status st \/ status st' = COMPLETED)) /\
      raised_in_handle_stream E cb pcb s e
  end.
Proof.
  intros Hr Hst. unfold handle_stream, consume.
  rewrite run_bind, run_try_except, run_bind.
  destruct (run E (for_chunk_in cb pcb s "") m) as [m1 o1] eqn:Hloop.
  destruct (for_chunk_in_spec E cb pcb s "" m m1 o1 r st Hr Hst Hloop)
    as (Hstay1 & Hsl1 & Ho1).
  destruct (stays_eq_status r m m1 st Hst Hstay1) as (Hstay1' & st1' & Hst1' & Hs1').
  assert (Hr1 : self_stats (store m1) = Some r).
  { eapply stays_refers; [|exact Hstay1]. split; eauto. }
  destruct o1 as [full|e1]; run_pure.
  - destruct Ho1 as (chunks & tr1 & st1 & -> & Hc & Hpo & -> & Htr1 & Hf1 & Hp1
                     & Hst1 & Hn1 & Ht1 & Hs1).
    assert (Hstay2 : stays r (handle_stream_step st) m (slept Hundredth m1)).
    { eapply stays_trans; [exact Hstay1'|apply stays_slept]. }
    rewrite Hsl1.
    destruct (cancel_wakeup E (n_sleeps m)) eqn:Hw; run_pure.
    + simpl. run_pure. intros [= <- <-].
      split.
      { eapply stays_trans; [exact Hstay2|]. by apply stays_record. }
      split; [exists st1; simpl; eauto|].
      right. left. split; [done|]. right. eauto.
    + rewrite (run_stats_update E _ _ _ r st1) by (simpl; auto). run_pure.
      set (st2 := set_status COMPLETED st1).
      set (m2 := updated r st2 (slept Hundredth m1)).
      assert (Hstay3 : stays r (handle_stream_step st) m m2).
      { eapply stays_trans; [exact Hstay2|].
        apply (stays_updated r _ _ st1 st2); simpl; auto; try lia.
        split; [congruence|by right]. }
      assert (Hst2 : objs (store m2) !! r = Some st2).
      { simpl. eauto using lookup_updated. }
      assert (Hcur : current_stats (store m2) = Some st2).
      { by apply (current_stats_refers r). }
      destruct pcb as [p|]; unfold notify_if; run_pure.
      * rewrite Hcur.
        assert (Hstay4 : stays r (handle_stream_step st) m
                           (record (EvProgress (Some st2)) m2)).
        { eapply stays_trans; [exact Hstay3|]. by apply stays_record. }
        destruct (p (Some st2)) as [e|] eqn:Hp; intros [= <- <-].
        { split; [done|]. split; [exists st2; eauto|].
          right. right. eauto. }
        split; [done|].
        exists chunks, (tr1 ++ [EvSleep Hundredth; EvProgress (Some st2)]), st2.
        rewrite fragments_app, snapshots_app, Hf1. simpl.
        rewrite Htr1, <- !app_assoc, app_nil_r.
        repeat split; auto.
        exists (snapshots tr1). split; [done|]. exact Hp1.
      * intros [= <- <-]. split; [done|].
        exists chunks, (tr1 ++ [EvSleep Hundredth]), st2.
        rewrite fragments_app, snapshots_app, Hf1. simpl.
        rewrite Htr1, <- !app_assoc, !app_nil_r.
        repeat split; auto.
        by destruct (snapshots tr1).
  - destruct (is_CancelledError e1) eqn:Hcancel; run_pure.
    + intros [= <- <-].
      split.
      { eapply stays_trans; [exact Hstay1'|]. by apply stays_record. }
      split; [exists st1'; simpl; eauto|].
      right. left. eauto.
    + intros [= <- <-].
      split; [done|]. split; [exists st1'; eauto|].
      left. exists e1. unfold is_Exception. rewrite Hcancel. eauto.
Qed.

(** ** [advances] *)

Lemma advances_refl r m : advances r m m [].
Proof.
  split; [by rewrite app_nil_r|]. exists []. split; [by rewrite app_nil_r|constructor].
Qed.

Lemma advances_trans r m1 m2 m3 tr1 tr2 :
  advances r m1 m2 tr1 -> advances r m2 m3 tr2 -> advances r m1 m3 (tr1 ++ tr2).
Proof.
  intros (Ht1 & h1 & Hh1 & Hp1) (Ht2 & h2 & Hh2 & Hp2).
  split; [by rewrite Ht2, Ht1, app_assoc|].
  exists (h1 ++ h2). split; [by rewrite Hh2, Hh1, app_assoc|].
  eapply path_app; eauto.
Qed.

Lemma advances_stays r T m m' :
  (forall a b, T a b -> status_step a b) ->
  stays r T m m' ->
  exists tr, advances r m m' tr /\ Forall quiet tr /\
             n_requests m' = n_requests m /\ n_clock m' = n_clock m.
Proof.
  intros HT Hs. apply (stays_weaken r T status_step m m' HT) in Hs.
  destruct Hs as (tr & h & Ht & Hq & Hh & Hp & Hn & Hc).
  exists tr. repeat split; eauto.
Qed.

Lemma advances_updated r m s s' :
  self_stats (store m) = Some r -> objs (store m) !! r = Some s ->
  start_time s' = start_time s ->
  chunks_processed s' = chunks_processed s ->
  total_tokens s' = total_tokens s ->
  status_step (status s) (status s') ->
  advances r m (updated r s' m) [].
Proof.
  intros Hr Hs H1 H2 H3 H4.
  destruct (stays_updated r status_step m s s' Hr Hs H1) as (tr & h & Ht & _ & Hh & Hp & _);
    try lia; auto.
  split; [by rewrite app_nil_r|]. exists h. split; auto.
Qed.

Lemma advances_same_store r m m' tr :
  store m' = store m -> history m' = history m -> trace m' = trace m ++ tr ->
  advances r m m' tr.
Proof.
  intros Hs Hh Ht. split; [done|]. exists [].
  rewrite app_nil_r, Hs. split; [done|constructor].
Qed.

Lemma advances_refers r m m' tr :
  refers_to r (store m) -> advances r m m' tr -> refers_to r (store m').
Proof. intros Hr (_ & h & _ & Hp). eapply path_refers; eauto. Qed.

Lemma current_stats_inv (st : Store) (s : StreamStats) :
  current_stats st = Some s ->
  exists r, self_stats st = Some r /\ objs st !! r = Some s.
Proof.
  unfold current_stats. destruct (self_stats st) as [r|]; simpl; [eauto|done].
Qed.

Lemma stream_of_inj (l1 l2 : list Chunk) : stream_of l1 = stream_of l2 -> l1 = l2.
Proof.
  revert l2. induction l1 as [|c l1 IH]; intros [|c2 l2]; simpl; try done.
  intros [= -> H]. f_equal. by apply IH.
Qed.

Lemma stream_app_not_ended (l1 l2 : list Chunk) (e : exn) :
  stream_app l1 (SRaise e) <> stream_of l2.
Proof.
  revert l2. induction l1 as [|c l1 IH]; intros [|c2 l2]; simpl; try done.
  intros [= -> H]. by eapply IH.
Qed.

Lemma stream_app_raises (l : list Chunk) (e e' : exn) :
  stream_raises (stream_app l (SRaise e)) e' -> e = e'.
Proof. induction l; simpl; auto. Qed.

(** ** One attempt *)

Lemma handle_stream_step_sound (st : StreamStats) (a b : StreamStatus) :
  status st = PROCESSING -> handle_stream_step st a b -> status_step a b.
Proof. intros H (-> & [->| ->]); rewrite H; constructor. Qed.

Section attempts.
Context (E : env) (self : StreamingCodeGenerator) (prompt : string)
        (cb : callback_t) (N : Z) (pcb : option progress_callback_t).

Lemma attempt_body_spec m m' o r st :
  self_stats (store m) = Some r -> objs (store m) !! r = Some st ->
  status st = INITIALIZING \/ status st = ERROR ->
  run E (attempt_body self prompt cb pcb) m = (m', o) ->
  exists tr st',
    advances r m m' (EvRequest (the_request self prompt) :: tr) /\
    Forall quiet tr /\
    n_requests m' = S (n_requests m) /\
    objs (store m') !! r = Some st' /\
    match o with
    | Returned res =>
        status st' = COMPLETED /\ stats res = Some r /\
        exists chunks,
          service E (the_request self prompt) (n_requests m) = inr (stream_of chunks) /\
          text res = join (texts chunks) /\
          fragments tr = texts chunks /\
          chunks_processed st' =
            (chunks_processed st + Z.of_nat (length (texts chunks)))%Z /\
          total_tokens st' =
            (total_tokens st + sum_list (word_count <$> texts chunks))%Z
    | Raised e =>
        (status st' = PROCESSING \/ status st' = COMPLETED) /\
        raised_in_attempt E cb pcb
          (service E (the_request self prompt) (n_requests m)) e
    end.
Proof.
  intros Hr Hst Hstatus. unfold attempt_body.
  rewrite run_bind, (run_stats_update E _ _ _ r st) by auto. run_pure.
  set (req := the_request self prompt).
  set (st1 := set_status PROCESSING st).
  set (m1 := updated r st1 m).
  assert (H1 : advances r m m1 []).
  { apply (advances_updated r m st st1); auto.
    simpl. destruct Hstatus as [-> | ->]; constructor. }
  assert (H2 : advances r m (requested req m1) [EvRequest req]).
  { change [EvRequest req] with ([] ++ [EvRequest req]).
    eapply advances_trans; [exact H1|]. by apply advances_same_store. }
  assert (Hst1 : objs (store (requested req m1)) !! r = Some st1).
  { simpl. eauto using lookup_updated. }
  change (n_requests m1) with (n_requests m).
  destruct (service E req (n_requests m)) as [e|s] eqn:Hresp; run_pure.
  { intros [= <- <-]. exists [], st1.
    split; [exact H2|]. repeat split; auto. by left. }
  destruct (run E (handle_stream cb pcb s) (requested req m1)) as [m3 o3] eqn:Hhs.
  assert (Hr1 : self_stats (store (requested req m1)) = Some r) by done.
  destruct (handle_stream_spec E cb pcb s _ m3 o3 r st1 Hr1 Hst1 Hhs)
    as (Hstay & Ho3).
  assert (Hproc : status st1 = PROCESSING) by done.
  destruct (advances_stays r _ _ _ (fun a b => handle_stream_step_sound st1 a b Hproc) Hstay)
    as (tr3 & H3 & Hq3 & Hn3 & Hc3).
  assert (H4 : advances r m m3 (EvRequest req :: tr3)).
  { change (EvRequest req :: tr3) with ([EvRequest req] ++ tr3).
    eapply advances_trans; eauto. }
  assert (Hr3 : self_stats (store m3) = Some r).
  { eapply advances_refers; [|exact H4]. split; eauto. }
  destruct o3 as [final|e].
  - destruct Ho3 as (chunks & tr & st3 & -> & Hc & Hw & -> & Htr & Hf & Hp
                     & Hst3 & Hn & Ht & Hs).
    assert (tr = tr3) as ->.
    { destruct H3 as (Htr3 & _). rewrite Htr in Htr3. by apply app_inv_head in Htr3. }
    run_pure.
    rewrite (run_stats_update E _ _ _ r st3) by auto. run_pure.
    set (st4 := set_status COMPLETED st3).
    set (m4 := updated r st4 m3).
    assert (Hst4 : objs (store m4) !! r = Some st4).
    { simpl. eauto using lookup_updated. }
    simpl run at 1. run_pure.
    rewrite (run_stats_get E _ _ (ticked m4) r st4) by (simpl; auto). run_pure.
    intros [= <- <-].
    exists tr3, st4. split.
    { rewrite <- (app_nil_r (EvRequest req :: tr3)).
      eapply advances_trans; [exact H4|].
      rewrite <- (app_nil_r []).
      apply (advances_trans r m3 m4 (ticked m4)).
      - apply (advances_updated r m3 st3 st4); auto.
        simpl. rewrite Hs. constructor.
      - apply advances_same_store; simpl; by rewrite ?app_nil_r. }
    repeat split; auto.
    exists chunks. repeat split; auto.
  - intros [= <- <-]. destruct Ho3 as ((st3 & Hst3 & Hs3) & He).
    exists tr3, st3. split; [exact H4|]. repeat split; auto.
    right. eauto.
Qed.
End attempts.

Section one_attempt.
Context (E : env) (self : StreamingCodeGenerator) (prompt : string)
        (cb : callback_t) (N : Z) (pcb : option progress_callback_t).

Local Abbreviation req := (the_request self prompt).

(** What one turn of the retry loop does, by cases: the attempt
    succeeds; it is cancelled; it fails, and is either the last one or
    followed by a delay. *)
Lemma one_attempt_spec a m m' o r st :
  self_stats (store m) = Some r -> objs (store m) !! r = Some st ->
  status st = INITIALIZING \/ status st = ERROR ->
  run E (one_attempt self prompt cb N pcb a) m = (m', o) ->
  exists tr st',
    advances r m m' tr /\ n_requests m' = S (n_requests m) /\
    requests tr = [req] /\ objs (store m') !! r = Some st' /\
    ((exists res chunks,
        o = Returned (Some res) /\ skeleton tr = [Attempt] /\
        errors_logged tr = [] /\ stats res = Some r /\
        status st' = COMPLETED /\
        service E req (n_requests m) = inr (stream_of chunks) /\
        text res = join (texts chunks)) \/
     (exists e,
        o = Raised e /\ is_CancelledError e = true /\
        skeleton tr = [Attempt] /\ errors_logged tr = [] /\
        raised_in_attempt E cb pcb (service E req (n_requests m)) e) \/
     (exists e0,
        raised_in_attempt E cb pcb (service E req (n_requests m)) e0 /\
        is_Exception e0 = true /\
        errors_logged tr = [failure_message a (str e0)] /\
        status st' = ERROR /\
        ((a = (N - 1)%Z /\
          o = Raised (mk_exn APIError (final_message N (str e0))) /\
          skeleton tr = [Attempt]) \/
         (a <> (N - 1)%Z /\
          skeleton tr = [Attempt; Backoff (Z.min (2 ^ a) 10)] /\
          (o = Returned None \/
           (o = Raised (mk_exn CancelledError "") /\
            exists k, cancel_wakeup E k = true)))))).
Proof.
  intros Hr Hst Hstatus. unfold one_attempt.
  rewrite run_try_except, run_bind.
  destruct (run E (attempt_body self prompt cb pcb) m) as [m1 o1] eqn:Hbody.
  destruct (attempt_body_spec E self prompt cb pcb m m1 o1 r st Hr Hst Hstatus Hbody)
    as (tr1 & st1 & H1 & Hq1 & Hn1 & Hst1 & Ho1).
  destruct (quiet_silent tr1 Hq1) as (Hreq1 & Herr1 & Hsk1).
  assert (Hr1 : self_stats (store m1) = Some r).
  { eapply advances_refers; [|exact H1]. split; eauto. }
  destruct o1 as [res|e]; run_pure.
  { intros [= <- <-]. destruct Ho1 as (Hs1 & Hres & chunks & Hresp & Htext & _).
    exists (EvRequest req :: tr1), st1. split; [done|].
    simpl. rewrite Hreq1, Herr1, Hsk1. repeat split; auto.
    left. exists res, chunks. repeat split; auto. }
  destruct Ho1 as (Hs1 & He).
  destruct (is_Exception e) eqn:Hexc; run_pure.
  2:{ intros [= <- <-].
      exists (EvRequest req :: tr1), st1. split; [done|].
      simpl. rewrite Hreq1, Herr1, Hsk1. repeat split; auto.
      right. left. exists e. repeat split; auto.
      unfold is_Exception in Hexc. by destruct (is_CancelledError e). }
  unfold on_failure. run_pure.
  rewrite (run_stats_update E _ _ _ r st1) by auto. run_pure.
  set (st2 := set_status ERROR st1).
  set (m2 := updated r st2 m1).
  set (line := EvLog ERROR_LEVEL
                 ("Attempt " +:+ str_of_int (a + 1) +:+ " failed: " +:+ str e)).
  assert (H2 : advances r m (record line m2) (EvRequest req :: tr1 ++ [line])).
  { change (EvRequest req :: tr1 ++ [line]) with ((EvRequest req :: tr1) ++ [line]).
    eapply advances_trans; [exact H1|].
    change [line] with ([] ++ [line]).
    apply (advances_trans r m1 m2 (record line m2)).
    - apply (advances_updated r m1 st1 st2); auto.
      simpl. destruct Hs1 as [-> | ->]; constructor.
    - by apply advances_same_store. }
  assert (Hst2 : objs (store (record line m2)) !! r = Some st2).
  { simpl. eauto using lookup_updated. }
  destruct (Z.eqb_spec a (N - 1)) as [Hlast|Hlast]; run_pure.
  - intros [= <- <-].
    exists (EvRequest req :: tr1 ++ [line]), st2. split; [done|].
    simpl. rewrite requests_app, errors_logged_app, skeleton_app, Hreq1, Herr1, Hsk1.
    repeat split; auto.
    right. right. exists e. repeat split; auto.
  - set (d := Seconds (Z.min (2 ^ a) 10)).
    assert (H3 : advances r m (slept d (record line m2))
                   (EvRequest req :: tr1 ++ [line; EvSleep d])).
    { replace (EvRequest req :: tr1 ++ [line; EvSleep d])
        with ((EvRequest req :: tr1 ++ [line]) ++ [EvSleep d])
        by (simpl; by rewrite <- app_assoc).
      eapply advances_trans; [exact H2|]. by apply advances_same_store. }
    assert (Hshape :
      requests (EvRequest req :: tr1 ++ [line; EvSleep d]) = [req] /\
      errors_logged (EvRequest req :: tr1 ++ [line; EvSleep d]) =
        [failure_message a (str e)] /\
      skeleton (EvRequest req :: tr1 ++ [line; EvSleep d]) =
        [Attempt; Backoff (Z.min (2 ^ a) 10)]).
    { simpl. rewrite requests_app, errors_logged_app, skeleton_app, Hreq1, Herr1, Hsk1.
      done. }
    destruct Hshape as (Hreq3 & Herr3 & Hsk3).
    destruct (cancel_wakeup E (n_sleeps (record line m2))) eqn:Hw; run_pure;
      intros [= <- <-];
      (exists (EvRequest req :: tr1 ++ [line; EvSleep d]), st2;
       split; [done|]; repeat split; auto;
       right; right; exists e; repeat split; auto;
       right; repeat split; auto).
    right. eauto.
Qed.
End one_attempt.

(** ** The retry loop *)

Lemma retry_schedule_cons (a : Z) (l : list Z) :
  retry_schedule (a :: l) = [Attempt; Backoff (Z.min (2 ^ a) 10)] ++ retry_schedule l.
Proof. reflexivity. Qed.

Lemma attempts_from_S (i n : nat) :
  attempts_from i (S n) = Z.of_nat i :: attempts_from (S i) n.
Proof. reflexivity. Qed.

Lemma prefix_attempt (d : Z) (l : list mark) :
  [Attempt] `prefix_of` [Attempt; Backoff d] ++ l.
Proof. by exists (Backoff d :: l). Qed.

Lemma prefix_attempt_backoff (d : Z) (l : list mark) :
  [Attempt; Backoff d] `prefix_of` [Attempt; Backoff d] ++ l.
Proof. by exists l. Qed.

Section retry_loop.
Context (E : env) (self : StreamingCodeGenerator) (prompt : string)
        (cb : callback_t) (N : Z) (pcb : option progress_callback_t).

Local Abbreviation req := (the_request self prompt).

(** What the retry loop does from attempt [i] on, [n] attempts being
    left: it ends by a success, by a cancellation, or, all [n] attempts
    having failed, by the [APIError]. *)
Lemma for_attempt_in_spec n : forall i m m' o r st,
  Z.of_nat (i + n) = N ->
  self_stats (store m) = Some r -> objs (store m) !! r = Some st ->
  status st = INITIALIZING \/ status st = ERROR ->
  run E (for_attempt_in self prompt cb N pcb (attempts_from i n)) m = (m', o) ->
  exists tr,
    advances r m m' tr /\
    skeleton tr `prefix_of` retry_schedule (attempts_from i n) /\
    (exists k, k <= n /\ n_requests m' = n_requests m + k /\
               requests tr = replicate k req) /\
    match o with
    | Returned (Some res) =>
        stats res = Some r /\
        (exists st', objs (store m') !! r = Some st' /\ status st' = COMPLETED) /\
        exists k chunks,
          k < n /\
          service E req (n_requests m + k) = inr (stream_of chunks) /\
          text res = join (texts chunks)
    | Returned None => n = 0
    | Raised e =>
        (is_CancelledError e = true /\
         ((exists k, k < n /\
             raised_in_attempt E cb pcb (service E req (n_requests m + k)) e) \/
          (e = mk_exn CancelledError "" /\ exists k, cancel_wakeup E k = true))) \/
        (exists msgs e0,
           S (length msgs) = n /\
           e = mk_exn APIError (final_message N (str e0)) /\
           raised_in_attempt E cb pcb
             (service E req (n_requests m + length msgs)) e0 /\
           is_Exception e0 = true /\
           errors_logged tr =
             imap (fun k msg => failure_message (Z.of_nat (i + k)) msg)
                  (msgs ++ [str e0]) /\
           requests tr = replicate n req /\
           n_requests m' = n_requests m + n)
    end.
Proof.
  induction n as [|n IH]; intros i m m' o r st HN Hr Hst Hstatus.
  { simpl. intros [= <- <-]. exists []. split; [apply advances_refl|].
    split; [done|]. split; [|done]. exists 0. repeat split; auto. }
  rewrite attempts_from_S, retry_schedule_cons. cbn [for_attempt_in].
  rewrite run_bind.
  destruct (run E (one_attempt self prompt cb N pcb (Z.of_nat i)) m)
    as [m1 o1] eqn:Hone.
  destruct (one_attempt_spec E self prompt cb N pcb _ m m1 o1 r st Hr Hst Hstatus Hone)
    as (tr1 & st1 & H1 & Hn1 & Hreq1 & Hst1 & Hcases).
  assert (Hr1 : self_stats (store m1) = Some r).
  { eapply advances_refers; [|exact H1]. split; eauto. }
  assert (Hone_req : exists k, k <= S n /\ n_requests m1 = n_requests m + k /\
                               requests tr1 = replicate k req).
  { exists 1. repeat split; auto; lia. }
  destruct Hcases as [(res & chunks & -> & Hsk & Herr & Hres & Hs1 & Hresp & Htext)
                     |[(e & -> & Hcancel & Hsk & Herr & He)
                      |(e0 & He0 & Hexc & Herr & Hs1 & Hend)]].
  - run_pure. intros [= <- <-]. exists tr1. split; [done|].
    split; [rewrite Hsk; apply prefix_attempt|].
    split; [done|]. split; [done|]. split; [eauto|].
    exists 0, chunks. rewrite Nat.add_0_r. repeat split; auto; lia.
  - intros [= <- <-]. exists tr1. split; [done|].
    split; [rewrite Hsk; apply prefix_attempt|].
    split; [done|]. left. split; [done|]. left.
    exists 0. rewrite Nat.add_0_r. split; [lia|done].
  - destruct Hend as [(Hlast & -> & Hsk)|(Hlast & Hsk & Ho1)].
    + intros [= <- <-]. exists tr1. split; [done|].
      split; [rewrite Hsk; apply prefix_attempt|].
      split; [done|]. right.
      assert (n = 0) as -> by lia.
      exists [], e0. simpl. rewrite !Nat.add_0_r.
      repeat split; auto. lia.
    + destruct Ho1 as [-> |(-> & Hw)].
      2:{ intros [= <- <-]. exists tr1. split; [done|].
          split; [rewrite Hsk; apply prefix_attempt_backoff|].
          split; [done|]. left. split; [done|]. by right. }
      run_pure. intros Hrest.
      assert (HN' : Z.of_nat (S i + n) = N) by lia.
      destruct (IH (S i) m1 m' o r st1 HN' Hr1 Hst1 (or_intror Hs1) Hrest)
        as (tr2 & H2 & Hpre & (k2 & Hk2 & Hnk2 & Hreq2) & Ho).
      exists (tr1 ++ tr2). split; [eapply advances_trans; eauto|].
      split; [rewrite skeleton_app, Hsk; by apply prefix_app|].
      split.
      { exists (S k2). rewrite requests_app, Hreq1, Hreq2.
        repeat split; auto; lia. }
      destruct o as [[res|]|e].
      * destruct Ho as (Hres & Hdone & k & chunks & Hk & Hresp & Htext).
        split; [done|]. split; [done|].
        exists (S k), chunks. split; [lia|]. split; [|done].
        rewrite <- Hresp. f_equal. lia.
      * lia.
      * destruct Ho as [(Hcancel & Hsrc)|(msgs & e1 & Hlen & -> & He1 & Hexc1 & Herr2
                                          & Hreq2' & Hn2)].
        -- left. split; [done|].
           destruct Hsrc as [(k & Hk & Hsrc)|Hsrc]; [left|by right].
           exists (S k). split; [lia|].
           replace (n_requests m + S k) with (n_requests m1 + k) by lia. done.
        -- right. exists (str e0 :: msgs), e1.
           rewrite errors_logged_app, requests_app, Herr, Herr2, Hreq1, Hreq2'.
           simpl. rewrite Nat.add_0_r.
           replace (n_requests m + S (length msgs)) with (n_requests m1 + length msgs)
             by lia.
           repeat split; auto; try lia.
           f_equal. apply imap_ext. intros k x _. simpl.
           by replace (i + S k) with (S (i + k)) by lia.
Qed.
End retry_loop.

(** ** [generate_code_with_explanation] *)

Lemma range_attempts (N : Z) : range N = attempts_from 0 (Z.to_nat N).
Proof. reflexivity. Qed.

Section generate_spec.
Context (E : env) (self : StreamingCodeGenerator) (prompt : string)
        (cb : callback_t) (N : Z) (pcb : option progress_callback_t).

Local Abbreviation req := (the_request self prompt).

(** A whole call: the object it makes is [r], the contents of the store
    from then on are [store_at_start E m :: h], and it ends as the retry loop
    does. *)
Lemma generate_spec m m' o :
  run E (generate_code_with_explanation self prompt cb N pcb) m = (m', o) ->
  let r := length (objs (store m)) in
  exists tr h,
    trace m' = trace m ++ tr /\
    history m' = history m ++ store_at_start E m :: h /\
    path (evolves r status_step) (store_at_start E m) h (store m') /\
    skeleton tr `prefix_of` retry_schedule (range N) /\
    (exists k, k <= Z.to_nat N /\ n_requests m' = n_requests m + k /\
               requests tr = replicate k req) /\
    match o with
    | Returned (Some res) =>
        stats res = Some r /\
        (exists st', objs (store m') !! r = Some st' /\ status st' = COMPLETED) /\
        exists k chunks,
          k < Z.to_nat N /\
          service E req (n_requests m + k) = inr (stream_of chunks) /\
          text res = join (texts chunks)
    | Returned None => (N <= 0)%Z /\ tr = []
    | Raised e =>
        (is_CancelledError e = true /\
         ((exists k, k < Z.to_nat N /\
             raised_in_attempt E cb pcb (service E req (n_requests m + k)) e) \/
          (e = mk_exn CancelledError "" /\ exists k, cancel_wakeup E k = true))) \/
        (exists msgs e0,
           S (length msgs) = Z.to_nat N /\
           e = mk_exn APIError (final_message N (str e0)) /\
           raised_in_attempt E cb pcb
             (service E req (n_requests m + length msgs)) e0 /\
           is_Exception e0 = true /\
           errors_logged tr =
             imap (fun k msg => failure_message (Z.of_nat k) msg)
                  (msgs ++ [str e0]) /\
           requests tr = replicate (Z.to_nat N) req /\
           n_requests m' = n_requests m + Z.to_nat N)
    end.
Proof.
  unfold generate_code_with_explanation, init_stats. run_pure.
  simpl run at 2. run_pure.
  set (st0 := store_at_start E m).
  set (m0 := write st0 (ticked m)).
  set (r := length (objs (store m))).
  assert (Hr : self_stats (store m0) = Some r) by done.
  assert (Hst : objs (store m0) !! r = Some (new_StreamStats (clock E (n_clock m)))).
  { simpl. by apply list_lookup_middle. }
  rewrite range_attempts.
  destruct (Z.to_nat N) as [|n] eqn:HN.
  { simpl. intros [= <- <-]. exists [], []. simpl. rewrite app_nil_r.
    repeat split; auto; try lia; try constructor.
    exists 0. repeat split; auto. }
  intros Hrun.
  assert (HN' : Z.of_nat (0 + S n) = N) by lia.
  destruct (for_attempt_in_spec E self prompt cb N pcb (S n) 0 m0 m' o r _
              HN' Hr Hst (or_introl eq_refl) Hrun)
    as (tr & (Htr & h & Hh & Hp) & Hpre & Hreq & Ho).
  exists tr, h. split; [done|].
  split; [rewrite Hh; simpl; by rewrite <- app_assoc|].
  split; [done|]. split; [done|]. split; [done|].
  destruct o as [[res|]|e]; [done|done|].
  destruct Ho as [Hc|(msgs & e0 & H1 & H2 & H3 & H4 & H5 & H6 & H7)]; [by left|].
  right. exists msgs, e0. repeat split; auto.
Qed.
End generate_spec.

(** * The properties of the specification *)

(** C3. [format_chunk] raises for no chunk, whatever its shape: it always
    returns a string, and leaves the store as it is. For a chunk without
    the path [choices[0].delta.content] (no [choices], [choices] that is
    [None] or empty, no [delta], a [delta] that is [None], no [content]), or
    whose content is [None] or the empty string, that string is empty. *)
Theorem format_chunk_never_raises (E : env) (chunk : Chunk) (m : machine) :
  exists m' s,
    run E (format_chunk chunk) m = (m', Returned s) /\
    store m' = store m /\
    (lacks_text chunk -> s = "").
Proof.
  destruct (format_chunk_run E chunk m) as (evs & _ & Hrun).
  exists (records evs m), (fragment_of chunk).
  split; [exact Hrun|]. split; [reflexivity|].
  unfold lacks_text, fragment_of. intros [-> |[-> |[-> | ->]]]; reflexivity.
Qed.

Lemma format_chunk_never_raises_witness :
  lacks_text malformed_chunk /\
  exists m', run (calm (fun _ => inr SEnd)) (format_chunk malformed_chunk) machine0
             = (m', Returned "").
Proof.
  assert (H : lacks_text malformed_chunk) by (left; reflexivity).
  split; [exact H|].
  destruct (format_chunk_never_raises (calm (fun _ => inr SEnd)) malformed_chunk machine0)
    as (m' & s & Hrun & _ & Hs).
  exists m'. rewrite Hrun, (Hs H). reflexivity.
Defined.

(** C2, as the code has it. When [handle_stream] consumes a finite
    sequence of chunks to its end and returns, the chunk callback has been
    called once for each chunk whose text is not empty, in the order of the
    stream, and with that text; the value returned is the concatenation of
    these fragments; and of the object [self.stats] refers to,
    [chunks_processed] is its value at entry plus the number of these
    calls, [total_tokens] its value at entry plus the number of words of
    these fragments, and [status] is [COMPLETED]. The counters are zero at
    entry in the first attempt of a call, and then end equal to these
    numbers. *)
Theorem handle_stream_completed (E : env) cb pcb chunks m m' text st :
  current_stats (store m) = Some st ->
  run E (handle_stream cb pcb (stream_of chunks)) m = (m', Returned text) ->
  exists tr st',
    trace m' = trace m ++ tr /\
    fragments tr = texts chunks /\
    text = join (texts chunks) /\
    current_stats (store m') = Some st' /\
    chunks_processed st' =
      (chunks_processed st + Z.of_nat (length (fragments tr)))%Z /\
    total_tokens st' =
      (total_tokens st + sum_list (word_count <$> fragments tr))%Z /\
    status st' = COMPLETED.
Proof.
  intros Hcur Hrun.
  destruct (current_stats_inv _ _ Hcur) as (r & Hr & Hst).
  destruct (handle_stream_spec E cb pcb _ m m' _ r st Hr Hst Hrun) as (Hstay & Ho).
  destruct Ho as (chunks' & tr & st' & Heq & _ & _ & -> & Htr & Hf & _ & Hst' & Hn & Ht & Hs).
  apply stream_of_inj in Heq as <-.
  exists tr, st'. rewrite Hf. repeat split; auto.
  apply (current_stats_refers r); [|done].
  eapply stays_refers; [|exact Hstay]. split; eauto.
Qed.

Lemma handle_stream_completed_witness :
  let m' := fst (run (calm (fun _ => inr SEnd))
                     (handle_stream silent watching (stream_of add_chunks)) machine1) in
  exists tr st',
    trace m' = trace machine1 ++ tr /\
    fragments tr = texts add_chunks /\
    "def add(aOkay, c... urn a+b" = join (texts add_chunks) /\
    current_stats (store m') = Some st' /\
    chunks_processed st' = (0 + Z.of_nat (length (fragments tr)))%Z /\
    total_tokens st' = (0 + sum_list (word_count <$> fragments tr))%Z /\
    status st' = COMPLETED.
Proof.
  intros m'.
  apply (handle_stream_completed (calm (fun _ => inr SEnd)) silent watching add_chunks
           machine1 m' "def add(aOkay, c... urn a+b" (new_StreamStats 0%Z)).
  - reflexivity.
  - vm_compute. reflexivity.
Defined.

(** A call whose first attempt delivers ["a"] and fails, and whose second
    attempt consumes the single chunk ["b"] to its end: for that chunk
    the callback is called once, with one word, and the counters end at
    two. So does [handle_stream] alone, entered with the counters the
    first attempt left. *)
Lemma counters_after_retry :
  let E := calm retry_service in
  let whole := run E (generate_code_with_explanation generator "add two numbers"
                        silent 3 None) machine0 in
  let second := run E (handle_stream silent None (stream_of [text_chunk "b"]))
                      machine_retried in
  (exists res,
     snd whole = Returned (Some res) /\ text res = "b" /\
     stats_of (fst whole) res = Some (mk_StreamStats 0%Z 2%Z 2%Z COMPLETED)) /\
  fragments (trace (fst whole)) = ["a"; "b"] /\
  snd second = Returned "b" /\
  fragments (trace (fst second)) = ["b"] /\
  word_count "b" = 1%Z /\
  current_stats (store (fst second)) = Some (mk_StreamStats 0%Z 2%Z 2%Z COMPLETED) /\
  (2 <> Z.of_nat (length (fragments (trace (fst second)))))%Z /\
  (2 <> sum_list (word_count <$> fragments (trace (fst second))))%Z.
Proof.
  split; [eexists; vm_compute; repeat split; reflexivity|].
  vm_compute. repeat split; try reflexivity; discriminate.
Qed.

(** C8. When [handle_stream] consumes a sequence of [n] chunks to its end
    and returns, a progress callback has been called [n + 1] times: once
    for each chunk, whether it carried text or not, and once more at the
    end, when it sees the status [COMPLETED]. *)
Theorem progress_callback_calls (E : env) cb p chunks m m' text st :
  current_stats (store m) = Some st ->
  run E (handle_stream cb (Some p) (stream_of chunks)) m = (m', Returned text) ->
  exists tr seen last,
    trace m' = trace m ++ tr /\
    snapshots tr = seen ++ [Some last] /\
    length seen = length chunks /\
    length (snapshots tr) = S (length chunks) /\
    status last = COMPLETED.
Proof.
  intros Hcur Hrun.
  destruct (current_stats_inv _ _ Hcur) as (r & Hr & Hst).
  destruct (handle_stream_spec E cb (Some p) _ m m' _ r st Hr Hst Hrun) as (_ & Ho).
  destruct Ho as (chunks' & tr & st' & Heq & _ & _ & _ & Htr & _ & (seen & Hp & Hlen)
                  & _ & _ & _ & Hs).
  apply stream_of_inj in Heq as <-.
  exists tr, seen, st'. rewrite Hp, length_app. simpl.
  repeat split; auto. lia.
Qed.

Lemma progress_callback_calls_witness :
  let m' := fst (run (calm (fun _ => inr SEnd))
                     (handle_stream silent (Some (fun _ => None))
                        (stream_of [text_chunk "a"; malformed_chunk])) machine1) in
  exists tr seen last,
    trace m' = trace machine1 ++ tr /\
    snapshots tr = seen ++ [Some last] /\
    length seen = length [text_chunk "a"; malformed_chunk] /\
    length (snapshots tr) = 3 /\
    status last = COMPLETED.
Proof.
  intros m'.
  apply (progress_callback_calls (calm (fun _ => inr SEnd)) silent (fun _ => None)
           [text_chunk "a"; malformed_chunk] machine1 m' "a" (new_StreamStats 0%Z)).
  - reflexivity.
  - vm_compute. reflexivity.
Defined.

(** C5. When the traversal of the stream raises an exception that is not
    a cancellation, be it raised by the stream when it is advanced or by
    the processing of a chunk, [handle_stream] raises a
    [StreamProcessError] whose message is ["Error processing stream: "]
    followed by the message of that exception; it returns nothing, and so
    not the text accumulated so far. *)
Theorem handle_stream_wraps (E : env) cb pcb s m m1 e :
  run E (for_chunk_in cb pcb s "") m = (m1, Raised e) ->
  is_CancelledError e = false ->
  run E (handle_stream cb pcb s) m =
  (m1, Raised (mk_exn StreamProcessError ("Error processing stream: " +:+ str e))).
Proof.
  intros Hloop Hnot. unfold handle_stream, consume.
  rewrite run_bind, run_try_except, run_bind, Hloop. run_pure.
  rewrite Hnot. run_pure. reflexivity.
Qed.

Lemma handle_stream_wraps_witness :
  run (calm (fun _ => inr SEnd)) (handle_stream silent watching broken_stream) machine1 =
  (fst (run (calm (fun _ => inr SEnd)) (for_chunk_in silent watching broken_stream "")
          machine1),
   Raised (mk_exn StreamProcessError "Error processing stream: Connection error.")).
Proof.
  apply (handle_stream_wraps (calm (fun _ => inr SEnd)) silent watching broken_stream
           machine1 _
           (mk_exn (OtherException "APIConnectionError") "Connection error.")).
  - vm_compute. reflexivity.
  - reflexivity.
Defined.

(** C10. With [max_retries] zero or negative the loop body never runs: the
    call opens no request, calls no callback, logs and sleeps nothing,
    raises nothing, and returns [None]. *)
Theorem no_attempt_without_retries (E : env) self prompt cb N pcb m :
  (N <= 0)%Z ->
  exists m',
    run E (generate_code_with_explanation self prompt cb N pcb) m = (m', Returned None) /\
    trace m' = trace m /\ n_requests m' = n_requests m.
Proof.
  intros HN. unfold generate_code_with_explanation, init_stats. run_pure.
  simpl run at 2. run_pure.
  rewrite range_attempts. replace (Z.to_nat N) with 0 by lia. simpl.
  eexists. split; [reflexivity|]. split; reflexivity.
Qed.

Lemma no_attempt_without_retries_witness :
  exists m',
    run (calm (fun _ => inr (stream_of add_chunks)))
        (generate_code_with_explanation generator "add two numbers" silent 0 watching)
        machine0 = (m', Returned None) /\
    trace m' = trace machine0 /\ n_requests m' = n_requests machine0.
Proof.
  apply (no_attempt_without_retries (calm (fun _ => inr (stream_of add_chunks)))
           generator "add two numbers" silent 0 watching machine0).
  lia.
Defined.

Lemma cancelled_not_exception (e : exn) :
  is_CancelledError e = true -> is_Exception e = true -> False.
Proof. unfold is_Exception. by intros ->. Qed.

(** Without cancellation, what leaves the loop of [handle_stream] on a
    stream that raises an [Exception] is an [Exception]. *)
Lemma loop_not_cancelled (E : env) cb pcb chunks e0 e :
  no_cancellation E cb pcb -> is_Exception e0 = true ->
  raised_in_loop E cb pcb (stream_app chunks (SRaise e0)) e ->
  is_CancelledError e = true -> False.
Proof.
  intros (Hpoll & _ & Hcb & Hpcb) He0 Hsrc Hc.
  destruct Hsrc as [(_ & k & Hk)|[(x & Hx)|[(p & x & -> & Hx)|Hs]]].
  - by rewrite Hpoll in Hk.
  - eauto using cancelled_not_exception.
  - eapply cancelled_not_exception; [exact Hc|]. eapply Hpcb; eauto.
  - apply stream_app_raises in Hs as ->. eauto using cancelled_not_exception.
Qed.

(** Without cancellation, an attempt whose response fails is not
    cancelled. *)
Lemma attempt_not_cancelled (E : env) cb pcb response e :
  no_cancellation E cb pcb -> fails response ->
  raised_in_attempt E cb pcb response e ->
  is_CancelledError e = true -> False.
Proof.
  intros Hno Hfails Hsrc Hc.
  destruct Hfails as [(e0 & -> & He0)|(chunks & e0 & -> & He0)];
    destruct Hsrc as [[= <-]|(s & [= <-] & Hsrc)].
  - eauto using cancelled_not_exception.
  - destruct Hsrc as [(e1 & _ & _ & ->)|[(_ & [Hsrc|(_ & k & Hk)])|(p & x & -> & Hx)]].
    + done.
    + eauto using loop_not_cancelled.
    + destruct Hno as (_ & Hw & _). by rewrite Hw in Hk.
    + destruct Hno as (_ & _ & _ & Hpcb).
      eapply cancelled_not_exception; [exact Hc|]. eapply Hpcb; eauto.
Qed.

(** The message of the failure of an attempt, when the callbacks raise
    nothing and nothing is cancelled. *)
Lemma attempt_failure_message (E : env) cb pcb chunks e e0 :
  never_raises cb -> never_raises_if pcb ->
  raised_in_attempt E cb pcb (inr (stream_app chunks (SRaise e))) e0 ->
  is_Exception e0 = true ->
  str e0 = "Error processing stream: " +:+ str e.
Proof.
  intros Hcb Hpcb [[=]|(s & [= <-] & Hsrc)] Hexc.
  destruct Hsrc as [(e1 & Hsrc & He1 & ->)|[(Hc & _)|(p & x & -> & Hx)]].
  - destruct Hsrc as [(-> & _)|[(x & Hx)|[(p & x & -> & Hx)|Hs]]].
    + done.
    + by rewrite Hcb in Hx.
    + by rewrite (Hpcb x) in Hx.
    + by apply stream_app_raises in Hs as ->.
  - by destruct (cancelled_not_exception e0).
  - by rewrite (Hpcb x) in Hx.
Qed.

(** C1. With [max_retries = N >= 1]: if every attempt fails, the request
    raising an [Exception] or the stream raising one when consumed, and
    nothing is cancelled, the call makes exactly [N] attempts (it opens [N]
    requests and logs [N] failures, numbered from 1 to [N]) and raises an
    [APIError] whose message is ["Failed after N attempts: "] followed by
    the message of the failure of the [N]-th attempt: the message of the
    exception of the request or, for a stream that raised, the one of the
    [StreamProcessError] that [handle_stream] made of it. And whenever the
    call raises, it is a cancellation or this [APIError], after [N]
    attempts. *)
Theorem retries_exhausted (E : env) self prompt cb N pcb m :
  (1 <= N)%Z ->
  ((forall k, k < Z.to_nat N ->
      fails (service E (the_request self prompt) (n_requests m + k))) ->
   no_cancellation E cb pcb ->
   exists m' tr msgs msg,
     run E (generate_code_with_explanation self prompt cb N pcb) m =
       (m', Raised (mk_exn APIError (final_message N msg))) /\
     trace m' = trace m ++ tr /\
     requests tr = replicate (Z.to_nat N) (the_request self prompt) /\
     S (length msgs) = Z.to_nat N /\
     errors_logged tr =
       imap (fun k msg => failure_message (Z.of_nat k) msg) (msgs ++ [msg]) /\
     (forall e,
        service E (the_request self prompt) (n_requests m + length msgs) = inl e ->
        msg = str e) /\
     (forall chunks e,
        service E (the_request self prompt) (n_requests m + length msgs)
          = inr (stream_app chunks (SRaise e)) ->
        never_raises cb -> never_raises_if pcb ->
        msg = "Error processing stream: " +:+ str e)) /\
  (forall m' e,
     run E (generate_code_with_explanation self prompt cb N pcb) m = (m', Raised e) ->
     is_CancelledError e = true \/
     exists tr msg,
       e = mk_exn APIError (final_message N msg) /\
       trace m' = trace m ++ tr /\
       requests tr = replicate (Z.to_nat N) (the_request self prompt)).
Proof.
  intros HN. split.
  - intros Hfails Hno.
    destruct (run E (generate_code_with_explanation self prompt cb N pcb) m)
      as [m' o] eqn:Hrun.
    destruct (generate_spec E self prompt cb N pcb m m' o Hrun)
      as (tr & h & Htr & _ & _ & _ & _ & Ho).
    destruct o as [[res|]|e].
    + destruct Ho as (_ & _ & k & chunks & Hk & Hresp & _).
      destruct (Hfails k Hk) as [(e0 & He0 & _)|(cs & e0 & He0 & _)].
      * congruence.
      * rewrite Hresp in He0. injection He0 as He0.
        symmetry in He0. by apply stream_app_not_ended in He0.
    + lia.
    + destruct Ho as [(Hc & Hsrc)|(msgs & e0 & Hlen & -> & He0 & Hexc & Herr & Hreq & _)].
      * destruct Hsrc as [(k & Hk & Hsrc)|(_ & k & Hk)].
        -- destruct (attempt_not_cancelled E cb pcb _ e Hno (Hfails k Hk) Hsrc Hc).
        -- destruct Hno as (_ & Hw & _). by rewrite Hw in Hk.
      * exists m', tr, msgs, (str e0). repeat split; auto.
        -- intros e Hresp. rewrite Hresp in He0.
           by destruct He0 as [[= ->]|(s & [=] & _)].
        -- intros chunks e Hresp Hcb Hpcb. rewrite Hresp in He0.
           eauto using attempt_failure_message.
  - intros m' e Hrun.
    destruct (generate_spec E self prompt cb N pcb m m' _ Hrun)
      as (tr & h & Htr & _ & _ & _ & _ & Ho).
    destruct Ho as [(Hc & _)|(msgs & e0 & Hlen & -> & _ & _ & _ & Hreq & _)];
      [by left|right; eauto].
Qed.

Lemma retries_exhausted_witness :
  exists m',
    run (calm failing_service)
        (generate_code_with_explanation generator "add two numbers" silent 3 watching)
        machine0 =
    (m', Raised (mk_exn APIError "Failed after 3 attempts: Request timed out.")).
Proof.
  assert (H3 : (1 <= 3)%Z) by lia.
  assert (Hfails : forall k, k < Z.to_nat 3 ->
            fails (service (calm failing_service)
                     (the_request generator "add two numbers")
                     (n_requests machine0 + k))).
  { intros [|[|[|k]]] Hk; simpl in *; try lia.
    - left. eexists. split; reflexivity.
    - right. eexists _, _. split; reflexivity.
    - left. eexists. split; reflexivity. }
  assert (Hno : no_cancellation (calm failing_service) silent watching).
  { repeat split; try reflexivity; intros x e; discriminate. }
  destruct (proj1 (retries_exhausted (calm failing_service) generator "add two numbers"
                     silent 3 watching machine0 H3) Hfails Hno)
    as (m' & tr & msgs & msg & Hrun & _ & _ & Hlen & _ & Hmsg & _).
  exists m'. rewrite Hrun.
  assert (Hl : length msgs = 2) by (simpl in Hlen; lia).
  rewrite (Hmsg timeout_error) by (rewrite Hl; reflexivity).
  reflexivity.
Defined.

(** The scenario of the specification: a request that always times out,
    one attempt. *)
Example timeout_scenario :
  snd (run (calm (fun _ => inl timeout_error))
           (generate_code_with_explanation generator "add two numbers" silent 1 None)
           machine0) =
  Raised (mk_exn APIError "Failed after 1 attempts: Request timed out.").
Proof. vm_compute. reflexivity. Qed.

(** ** The schedule of the delays *)

Lemma retry_schedule_lookup n : forall i a mk,
  retry_schedule (attempts_from i n) !! (2 * a + 1) = Some mk ->
  mk = Backoff (Z.min (2 ^ Z.of_nat (i + a)) 10).
Proof.
  induction n as [|n IH]; intros i a mk; [done|].
  rewrite attempts_from_S, retry_schedule_cons.
  destruct a as [|a].
  - simpl. rewrite Nat.add_0_r. by intros [= <-].
  - replace (2 * S a + 1) with (S (S (2 * a + 1))) by lia. simpl.
    intros H. apply IH in H as ->. do 3 f_equal. lia.
Qed.

Lemma retry_schedule_within_cap (l : list Z) : Forall within_cap (retry_schedule l).
Proof.
  induction l as [|a l IH]; [constructor|].
  rewrite retry_schedule_cons. repeat constructor; [|exact IH].
  simpl. lia.
Qed.

Section delays.
Context (E : env) (self : StreamingCodeGenerator) (prompt : string)
        (cb : callback_t) (N : Z) (pcb : option progress_callback_t).

Local Abbreviation req := (the_request self prompt).

(** When the attempts [i], ..., [i + j - 1] fail, an attempt being left
    after them, and nothing is cancelled, each of them is followed by its
    delay, and the attempt [i + j] is made. *)
Lemma for_attempt_in_delays j : forall i n m m' o r st,
  Z.of_nat (i + n) = N -> j < n ->
  self_stats (store m) = Some r -> objs (store m) !! r = Some st ->
  status st = INITIALIZING \/ status st = ERROR ->
  (forall a, a < j -> fails (service E req (n_requests m + a))) ->
  no_cancellation E cb pcb ->
  run E (for_attempt_in self prompt cb N pcb (attempts_from i n)) m = (m', o) ->
  exists tr,
    trace m' = trace m ++ tr /\
    retry_schedule (attempts_from i j) ++ [Attempt] `prefix_of` skeleton tr.
Proof.
  induction j as [|j IH]; intros i n m m' o r st HN Hj Hr Hst Hstatus Hfails Hno;
    (destruct n as [|n]; [lia|]);
    rewrite attempts_from_S; cbn [for_attempt_in]; rewrite run_bind;
    destruct (run E (one_attempt self prompt cb N pcb (Z.of_nat i)) m)
      as [m1 o1] eqn:Hone;
    destruct (one_attempt_spec E self prompt cb N pcb _ m m1 o1 r st Hr Hst Hstatus Hone)
      as (tr1 & st1 & H1 & Hn1 & _ & Hst1 & Hcases);
    assert (Hr1 : self_stats (store m1) = Some r)
      by (eapply advances_refers; [|exact H1]; split; eauto);
    destruct H1 as (Htr1 & _).
  - destruct Hcases as [(res & chunks & -> & Hsk & _)
                       |[(e & -> & _ & Hsk & _)|(e0 & _ & _ & _ & Hs1 & Hend)]].
    + run_pure. intros [= <- <-]. exists tr1. by rewrite Hsk.
    + intros [= <- <-]. exists tr1. by rewrite Hsk.
    + destruct Hend as [(_ & -> & Hsk)|(_ & Hsk & [-> |(-> & _)])].
      * intros [= <- <-]. exists tr1. by rewrite Hsk.
      * run_pure. intros Hrest.
        assert (HN' : Z.of_nat (S i + n) = N) by lia.
        destruct (for_attempt_in_spec E self prompt cb N pcb n (S i) m1 m' o r st1
                    HN' Hr1 Hst1 (or_intror Hs1) Hrest) as (tr2 & (Htr2 & _) & _).
        exists (tr1 ++ tr2). split; [by rewrite Htr2, Htr1, app_assoc|].
        rewrite skeleton_app, Hsk. apply prefix_attempt.
      * intros [= <- <-]. exists tr1. split; [done|].
        rewrite Hsk. apply (prefix_attempt _ []).
  - assert (Hfail0 : fails (service E req (n_requests m))).
    { rewrite <- (Nat.add_0_r (n_requests m)). apply Hfails. lia. }
    destruct Hcases as [(res & chunks & _ & _ & _ & _ & _ & Hresp & _)
                       |[(e & _ & Hc & _ & _ & He)|(e0 & _ & _ & _ & Hs1 & Hend)]].
    + exfalso. destruct Hfail0 as [(e & He & _)|(cs & e & He & _)].
      * congruence.
      * rewrite Hresp in He. injection He as He. symmetry in He.
        by apply stream_app_not_ended in He.
    + destruct (attempt_not_cancelled E cb pcb _ e Hno Hfail0 He Hc).
    + destruct Hend as [(Hlast & _)|(_ & Hsk & [-> |(_ & k & Hk)])].
      * lia.
      * run_pure. intros Hrest.
        assert (HN' : Z.of_nat (S i + n) = N) by lia.
        destruct (IH (S i) n m1 m' o r st1 HN' ltac:(lia) Hr1 Hst1 (or_intror Hs1))
          as (tr2 & Htr2 & Hpre); auto.
        { intros a Ha. replace (n_requests m1 + a) with (n_requests m + S a) by lia.
          apply Hfails. lia. }
        exists (tr1 ++ tr2). split; [by rewrite Htr2, Htr1, app_assoc|].
        rewrite skeleton_app, Hsk, attempts_from_S, retry_schedule_cons, <- app_assoc.
        by apply prefix_app.
      * destruct Hno as (_ & Hwake & _). by rewrite Hwake in Hk.
Qed.
End delays.

(** C6. In every run, the attempts and the delays requested between them
    follow the schedule: an attempt, the delay [min(2^0, 10)], an attempt,
    the delay [min(2^1, 10)], and so on. So the delay requested after the
    attempt of index [a], before the attempt [k = a + 1], is exactly
    [min(2^a, 10) = min(2^(k-1), 10)] seconds, and no delay exceeds 10. And
    the delays are requested: when the attempts of index less than [j]
    fail, an attempt being left after them, and nothing is cancelled, each
    of them is followed by its delay and by the next attempt, so that the
    run begins with an attempt, [min(2^0, 10)], ..., an attempt,
    [min(2^(j-1), 10)], and the attempt of index [j]. *)
Theorem backoff_schedule (E : env) self prompt cb N pcb m m' o :
  run E (generate_code_with_explanation self prompt cb N pcb) m = (m', o) ->
  exists tr,
    trace m' = trace m ++ tr /\
    skeleton tr `prefix_of` retry_schedule (range N) /\
    (forall a mk, skeleton tr !! (2 * a + 1) = Some mk ->
                  mk = Backoff (Z.min (2 ^ Z.of_nat a) 10)) /\
    Forall within_cap (skeleton tr) /\
    (forall j,
       j < Z.to_nat N ->
       (forall a, a < j ->
          fails (service E (the_request self prompt) (n_requests m + a))) ->
       no_cancellation E cb pcb ->
       retry_schedule (attempts_from 0 j) ++ [Attempt] `prefix_of` skeleton tr).
Proof.
  intros Hrun.
  destruct (generate_spec E self prompt cb N pcb m m' o Hrun)
    as (tr & h & Htr & _ & _ & Hpre & _).
  exists tr. split; [done|]. split; [done|]. split; [|split].
  - intros a mk Ha.
    apply (prefix_lookup_Some _ _ _ _ Ha) in Hpre.
    rewrite range_attempts in Hpre. by apply retry_schedule_lookup in Hpre.
  - destruct Hpre as (k & Hk).
    pose proof (retry_schedule_within_cap (range N)) as Hcap.
    rewrite Hk in Hcap. by apply Forall_app in Hcap as [? _].
  - intros j Hj Hfails Hno. revert Hrun.
    unfold generate_code_with_explanation. rewrite run_bind.
    change (run E init_stats m)
      with (write (store_at_start E m) (ticked m), @Returned unit tt).
    rewrite range_attempts. intros Hrun.
    destruct (for_attempt_in_delays E self prompt cb N pcb j 0 (Z.to_nat N)
                (write (store_at_start E m) (ticked m)) m' o
                (length (objs (store m))) (new_StreamStats (clock E (n_clock m))))
      as (tr' & Htr' & Hlive); auto.
    + lia.
    + simpl. by apply list_lookup_middle.
    + assert (tr' = tr) as ->; [|done].
      rewrite Htr in Htr'. simpl in Htr'. by apply app_inv_head in Htr'.
Qed.

Lemma backoff_schedule_witness :
  let m' := fst (run (calm failing_service)
                   (generate_code_with_explanation generator "add two numbers"
                      silent 3 watching) machine0) in
  exists tr,
    trace m' = trace machine0 ++ tr /\
    skeleton tr `prefix_of` retry_schedule (range 3) /\
    Forall within_cap (skeleton tr) /\
    [Attempt; Backoff 1; Attempt; Backoff 2; Attempt] `prefix_of` skeleton tr.
Proof.
  intros m'.
  destruct (backoff_schedule (calm failing_service) generator "add two numbers"
              silent 3 watching machine0 m'
              (Raised (mk_exn APIError "Failed after 3 attempts: Request timed out.")))
    as (tr & Htr & Hpre & _ & Hcap & Hlive).
  { vm_compute. reflexivity. }
  exists tr. split; [exact Htr|]. split; [exact Hpre|]. split; [exact Hcap|].
  apply (Hlive 2).
  - simpl. lia.
  - intros [|[|a]] Ha; simpl; try lia.
    + left. eexists. split; reflexivity.
    + right. eexists _, _. split; reflexivity.
  - repeat split; try reflexivity; intros x e; discriminate.
Defined.

(** The delays of a call of seven attempts that all fail. *)
Example seven_attempts :
  skeleton (trace (fst (run (calm (fun _ => inl timeout_error))
                          (generate_code_with_explanation generator "add two numbers"
                             silent 7 None) machine0))) =
  [Attempt; Backoff 1; Attempt; Backoff 2; Attempt; Backoff 4; Attempt; Backoff 8;
   Attempt; Backoff 10; Attempt; Backoff 10; Attempt].
Proof. vm_compute. reflexivity. Qed.

(** ** The statistics over a whole call *)

Lemma path_step_lookup {A : Type} (R : A -> A -> Prop) x l y :
  path R x l y ->
  forall i a b, (x :: l) !! i = Some a -> (x :: l) !! S i = Some b -> R a b.
Proof.
  induction 1 as [x|x y l z Hxy Hp IH]; intros i a b Ha Hb.
  - by destruct i.
  - destruct i as [|i]; simpl in *.
    + by injection Ha as <-; injection Hb as <-.
    + eapply IH; eauto.
Qed.

Lemma grows_refl r st : is_Some (objs st !! r) -> grows r st st.
Proof. intros [s Hs]. exists s, s. repeat split; auto; lia. Qed.

Lemma grows_trans r st1 st2 st3 : grows r st1 st2 -> grows r st2 st3 -> grows r st1 st3.
Proof.
  intros (s1 & s2 & H1 & H2 & H3 & H4) (s2' & s3 & H5 & H6 & H7 & H8).
  assert (s2' = s2) as -> by congruence.
  exists s1, s3. repeat split; auto; lia.
Qed.

Lemma evolves_grows r T st st' : evolves r T st st' -> grows r st st'.
Proof.
  intros (_ & _ & s & s' & H1 & H2 & _ & H3 & H4 & _). exists s, s'. auto.
Qed.

Lemma path_grows r T x l y :
  is_Some (objs x !! r) ->
  path (evolves r T) x l y ->
  forall i j a b, i <= j -> (x :: l) !! i = Some a -> (x :: l) !! j = Some b ->
                  grows r a b.
Proof.
  intros Hx Hp. induction Hp as [x|x y l z Hxy Hp IH]; intros i j a b Hij Ha Hb.
  - destruct i, j; simpl in *; try done.
    injection Ha as <-; injection Hb as <-. by apply grows_refl.
  - assert (Hy : is_Some (objs y !! r)).
    { destruct Hxy as (_ & _ & s & s' & _ & Hs' & _). eauto. }
    destruct i as [|i], j as [|j]; simpl in *; try lia.
    + injection Ha as <-; injection Hb as <-. by apply grows_refl.
    + injection Ha as <-.
      eapply grows_trans; [eapply evolves_grows; exact Hxy|].
      eapply (IH Hy 0 j); eauto. lia.
    + eapply (IH Hy i j); eauto. lia.
Qed.

(** After [ERROR] the status can only become [PROCESSING], and it
    becomes so from [INITIALIZING] and [ERROR] only: at the start of an
    attempt. *)
Lemma status_step_error (b : StreamStatus) : status_step ERROR b -> b = PROCESSING.
Proof. by inversion 1. Qed.

Lemma status_step_initializing (b : StreamStatus) :
  status_step INITIALIZING b -> b = PROCESSING.
Proof. by inversion 1. Qed.

(** C7, as the code has it. Within one call, [self.stats] is set once, to
    a new object with zero counters and the status [INITIALIZING], before
    the first attempt. From each content of the store to the next, no
    other object is made, [self.stats] refers to that object, its counters
    [chunks_processed] and [total_tokens] do not decrease (so they are not
    reset between attempts, and do not decrease over the whole call), and
    its status makes one of the moves of [status_step]: from
    [INITIALIZING] or [ERROR] to [PROCESSING] at the start of an attempt,
    from [PROCESSING] to [COMPLETED] or [ERROR], and also from [COMPLETED]
    to [ERROR] in the same attempt. *)
Theorem stats_over_a_call (E : env) self prompt cb N pcb m m' o :
  run E (generate_code_with_explanation self prompt cb N pcb) m = (m', o) ->
  let r := length (objs (store m)) in
  exists h,
    history m' = history m ++ store_at_start E m :: h /\
    current_stats (store_at_start E m) = Some (new_StreamStats (clock E (n_clock m))) /\
    path (evolves r status_step) (store_at_start E m) h (store m') /\
    (forall i st st',
       (store_at_start E m :: h) !! i = Some st ->
       (store_at_start E m :: h) !! S i = Some st' ->
       evolves r status_step st st') /\
    (forall i j st st',
       i <= j ->
       (store_at_start E m :: h) !! i = Some st ->
       (store_at_start E m :: h) !! j = Some st' ->
       grows r st st').
Proof.
  intros Hrun r.
  destruct (generate_spec E self prompt cb N pcb m m' o Hrun)
    as (tr & h & _ & Hh & Hp & _).
  assert (Hlook : objs (store_at_start E m) !! r
                  = Some (new_StreamStats (clock E (n_clock m)))).
  { simpl. by apply list_lookup_middle. }
  exists h. split; [done|]. split; [by apply (current_stats_refers r)|].
  split; [done|]. split.
  - exact (path_step_lookup _ _ _ _ Hp).
  - exact (path_grows r status_step _ _ _ (ex_intro _ _ Hlook) Hp).
Qed.

Lemma stats_over_a_call_witness :
  let E := calm failing_service in
  let m' := fst (run E (generate_code_with_explanation generator "add two numbers"
                          silent 3 watching) machine0) in
  exists h,
    history m' = history machine0 ++ store_at_start E machine0 :: h /\
    current_stats (store_at_start E machine0) = Some (new_StreamStats (clock E 0)) /\
    path (evolves 0 status_step) (store_at_start E machine0) h (store m') /\
    (forall i st st',
       (store_at_start E machine0 :: h) !! i = Some st ->
       (store_at_start E machine0 :: h) !! S i = Some st' ->
       evolves 0 status_step st st') /\
    (forall i j st st',
       i <= j ->
       (store_at_start E machine0 :: h) !! i = Some st ->
       (store_at_start E machine0 :: h) !! j = Some st' ->
       grows 0 st st').
Proof.
  intros E m'.
  apply (stats_over_a_call E generator "add two numbers" silent 3 watching machine0 m'
           (Raised (mk_exn APIError "Failed after 3 attempts: Request timed out."))).
  vm_compute. reflexivity.
Defined.

(** The status of a call of one attempt whose last call of the progress
    callback raises: [COMPLETED], then [ERROR], which is no move of the
    state machine of the specification. *)
Lemma status_completed_then_error :
  let E := calm (fun _ => inr (stream_of [])) in
  let m' := fst (run E (generate_code_with_explanation generator "add two numbers"
                          silent 1 raising) machine0) in
  requests (trace m') = [the_request generator "add two numbers"] /\
  omap (status_in 0) (history m') = [INITIALIZING; PROCESSING; COMPLETED; ERROR] /\
  ~ spec_status_step COMPLETED ERROR /\
  exists h,
    history m' = store_at_start E machine0 :: h /\
    ~ path (evolves 0 spec_status_step) (store_at_start E machine0) h (store m').
Proof.
  intros E m'.
  split; [vm_compute; reflexivity|]. split; [vm_compute; reflexivity|].
  assert (Hno : ~ spec_status_step COMPLETED ERROR) by (intros H; inversion H).
  split; [exact Hno|].
  eexists. split; [vm_compute; reflexivity|].
  intros Hp.
  pose proof (path_step_lookup _ _ _ _ Hp 2 _ _ eq_refl eq_refl) as Hstep.
  destruct Hstep as (_ & _ & s & s' & Hs & Hs' & _ & _ & _ & Hmove).
  vm_compute in Hs, Hs'. injection Hs as <-. injection Hs' as <-.
  exact (Hno Hmove).
Qed.

(** ** Cancellation *)

Lemma run_init_stats (E : env) (m : machine) :
  run E init_stats m = (write (store_at_start E m) (ticked m), Returned tt).
Proof. reflexivity. Qed.

Lemma stays_quiet r T m m' tr :
  stays r T m m' -> trace m' = trace m ++ tr -> Forall quiet tr.
Proof.
  intros (tr' & h & Ht & Hq & _) Htr.
  rewrite Htr in Ht. by apply app_inv_head in Ht as ->.
Qed.

(** The loop of [handle_stream] on a stream that ends, when no test of
    cancellation succeeds and the callbacks return: every chunk is
    processed. *)
Lemma for_chunk_in_returns (E : env) cb pcb chunks :
  forall full m r st,
    self_stats (store m) = Some r -> objs (store m) !! r = Some st ->
    (forall k, k < length chunks -> cancelled_at E (n_polls m + k) = false) ->
    returns_on cb (texts chunks) -> never_raises_if pcb ->
    exists m' tr,
      run E (for_chunk_in cb pcb (stream_of chunks) full) m =
        (m', Returned (full +:+ join (texts chunks))) /\
      trace m' = trace m ++ tr /\ fragments tr = texts chunks /\ Forall quiet tr /\
      n_sleeps m' = n_sleeps m.
Proof.
  induction chunks as [|c chunks IH]; intros full m r st Hr Hst Hfalse Hcb Hpcb.
  - exists m, []. simpl. rewrite append_empty_r, app_nil_r. repeat split; auto.
  - change (stream_of (c :: chunks)) with (SYield c (stream_of chunks)).
    cbn [for_chunk_in]. rewrite run_bind.
    destruct (run E (for_body cb pcb c full) m) as [m1 o1] eqn:Hbody.
    destruct (for_body_spec E cb pcb c full m m1 o1 r st Hr Hst Hbody)
      as (Hstay & Hsl & Hpo & Ho1).
    assert (H0 : cancelled_at E (n_polls m) = false).
    { rewrite <- (Nat.add_0_r (n_polls m)). apply Hfalse. simpl. lia. }
    rewrite texts_cons in Hcb.
    destruct o1 as [full1|e].
    + destruct Ho1 as (_ & -> & tr1 & st1 & Htr1 & Hf1 & _ & Hst1 & _).
      assert (Hr1 : self_stats (store m1) = Some r).
      { eapply stays_refers; [|exact Hstay]. split; eauto. }
      destruct (IH (full +:+ fragment_of c) m1 r st1 Hr1 Hst1)
        as (m' & tr2 & Hrun & Htr2 & Hf2 & Hq2 & Hsl2).
      * intros k Hk. replace (n_polls m1 + k) with (n_polls m + S k) by lia.
        apply Hfalse. simpl. lia.
      * destruct (truthy (fragment_of c)); [by inversion Hcb|done].
      * done.
      * exists m', (tr1 ++ tr2). rewrite Hrun, Htr2, Htr1, app_assoc.
        rewrite texts_cons, fragments_app, Hf1, Hf2.
        repeat split; auto.
        -- do 2 f_equal. rewrite append_assoc.
           destruct (truthy (fragment_of c)) eqn:Ht; [done|].
           by rewrite (truthy_false _ Ht).
        -- by destruct (truthy (fragment_of c)).
        -- apply Forall_app. split; [|done]. eapply stays_quiet; eauto.
        -- congruence.
    + exfalso. destruct Ho1 as [(Hc & _)|(_ & [(Ht & He)|(p & x & -> & He)])].
      * congruence.
      * rewrite Ht in Hcb. inversion Hcb as [|? ? Hnone _]. congruence.
      * by rewrite (Hpcb x) in He.
Qed.

(** C4 on the code. The test [asyncio.current_task().cancelled()] before
    each chunk answers [False] for the task that runs, so that a
    cancellation requested while the stream is traversed, after chunk [i]
    of [n], stops nothing: the loop has no [await], every chunk is
    processed and the [CancelledError] comes with the sleep that follows the
    loop. Let the stream of the first attempt be the chunks [chunks], the
    callbacks raise nothing, and that sleep be woken by the cancellation.
    Then the call returns no result: it raises the [CancelledError],
    neither wrapped in a [StreamProcessError] nor in an [APIError], after
    one attempt and without a delay; but the chunk callback has been called
    for every chunk whose text is not empty, so [n] times and not [i] times
    when each chunk carries text. *)
Theorem cancellation_waits_for_the_pause (E : env) self prompt cb N pcb m chunks :
  (1 <= N)%Z ->
  service E (the_request self prompt) (n_requests m) = inr (stream_of chunks) ->
  running_task E ->
  cancel_wakeup E (n_sleeps m) = true ->
  returns_on cb (texts chunks) -> never_raises_if pcb ->
  exists m' tr,
    run E (generate_code_with_explanation self prompt cb N pcb) m =
      (m', Raised (mk_exn CancelledError "")) /\
    trace m' = trace m ++ tr /\
    fragments tr = texts chunks /\
    (Forall (fun c => truthy (fragment_of c) = true) chunks ->
     length (fragments tr) = length chunks /\
     forall i, i < length chunks -> length (fragments tr) <> i) /\
    skeleton tr = [Attempt] /\
    errors_logged tr = [].
Proof.
  intros HN Hresp Hrunning Hwake Hcb Hpcb.
  destruct (run E (generate_code_with_explanation self prompt cb N pcb) m)
    as [m' o] eqn:Hrun0.
  revert Hrun0.
  unfold generate_code_with_explanation.
  rewrite run_bind, run_init_stats. run_pure.
  set (req := the_request self prompt) in *.
  set (r := length (objs (store m))).
  set (st0 := new_StreamStats (clock E (n_clock m))).
  set (m0 := write (store_at_start E m) (ticked m)).
  assert (Hst0 : objs (store m0) !! r = Some st0).
  { simpl. by apply list_lookup_middle. }
  rewrite range_attempts.
  destruct (Z.to_nat N) as [|n] eqn:HNn; [lia|].
  rewrite attempts_from_S. cbn [for_attempt_in].
  rewrite run_bind. unfold one_attempt. rewrite run_try_except, run_bind.
  unfold attempt_body. rewrite run_bind.
  rewrite (run_stats_update E _ _ m0 r st0) by auto. run_pure.
  set (st1 := set_status PROCESSING st0).
  set (m1 := updated r st1 m0).
  change (n_requests m1) with (n_requests m). fold req. rewrite Hresp. run_pure.
  unfold handle_stream, consume.
  rewrite run_bind, run_try_except, run_bind.
  destruct (for_chunk_in_returns E cb pcb chunks "" (requested req m1) r st1)
    as (m3 & tr3 & Hrun & Htr3 & Hf3 & Hq3 & Hsl3); auto.
  { simpl. eauto using lookup_updated. }
  rewrite Hrun. run_pure. rewrite Hsl3.
  change (n_sleeps (requested req m1)) with (n_sleeps m). rewrite Hwake. run_pure.
  simpl is_CancelledError. run_pure. simpl is_Exception. run_pure.
  destruct (quiet_silent tr3 Hq3) as (_ & Herr3 & Hsk3).
  intros [= <- <-].
  eexists _, (EvRequest req :: tr3 ++
              [EvSleep Hundredth; EvLog WARNING "Stream processing cancelled"]).
  split; [reflexivity|].
  simpl. rewrite Htr3, fragments_app, skeleton_app, errors_logged_app, Hf3, Hsk3, Herr3.
  simpl. rewrite <- !app_assoc, !app_nil_r.
  repeat split; auto.
  - clear -H. induction chunks as [|c chunks IH]; [done|].
    inversion H as [|? ? Hc Hall]; subst.
    rewrite texts_cons, Hc. simpl. f_equal. by apply IH.
  - intros i Hi. assert (Hlen : length (texts chunks) = length chunks); [|lia].
    clear -H. induction chunks as [|c chunks IH]; [done|].
    inversion H as [|? ? Hc Hall]; subst.
    rewrite texts_cons, Hc. simpl. f_equal. by apply IH.
Qed.

Lemma cancellation_waits_for_the_pause_witness :
  exists m' tr,
    run cancelled_while_streaming
        (generate_code_with_explanation generator "add two numbers" silent 3 watching)
        machine0 =
      (m', Raised (mk_exn CancelledError "")) /\
    trace m' = trace machine0 ++ tr /\
    fragments tr = ["def add(a"; "Okay, c"; "... urn a+b"] /\
    length (fragments tr) = 3 /\ length (fragments tr) <> 1.
Proof.
  destruct (cancellation_waits_for_the_pause cancelled_while_streaming
              generator "add two numbers" silent 3 watching machine0 add_chunks)
    as (m' & tr & Hrun & Htr & Hf & Hall & _).
  - lia.
  - reflexivity.
  - intros k. reflexivity.
  - reflexivity.
  - repeat constructor.
  - intros x. reflexivity.
  - exists m', tr. split; [exact Hrun|]. split; [exact Htr|]. split; [exact Hf|].
    destruct Hall as (Hlen & Hne); [repeat constructor|].
    split; [exact Hlen|]. apply (Hne 1). simpl. lia.
Defined.

(** ** Calls that overlap *)

(** A task that sleeps has been given the number of its sleep. *)
Lemma advance_suspended {A : Type} (E : env) (c : coro A) (m m' : machine) k :
  advance E c m = (m', Suspended k) -> n_sleeps m' = S (n_sleeps m).
Proof.
  revert m.
  induction c as [a|e|k0 IH|st k0 IH|ev k0 IH|req k0 IH|k0 IH|d k0 IH|k0 IH];
    intros m; simpl; try done; try (intros H; by apply IH in H).
  by intros [= <- _].
Qed.

(** C9 on the code: two calls on one generator, run by the event loop as
    [asyncio.gather] runs them (each up to its sleep, then each to its
    end). Alone, the first call returns its own object, with the three
    words of its text. Together, the second call sets [self.stats] while
    the first one sleeps, and both return the same object, the one of the
    second call: the result of the first call, whose text has three words,
    counts one, and the object the first call made is left behind with the
    status [PROCESSING]. *)
Theorem concurrent_calls_share_stats :
  let E := calm two_streams in
  let alone :=
    run E (generate_code_with_explanation generator "first" silent 3 None) machine0 in
  let together := event_loop E [0; 1; 0; 1] two_calls machine0 in
  (exists res,
     snd alone = Returned (Some res) /\ text res = "x y z" /\
     stats_of (fst alone) res = Some (mk_StreamStats 0%Z 1%Z 3%Z COMPLETED)) /\
  (exists res1 res2,
     returned_by (snd together !! 0) = Some res1 /\
     returned_by (snd together !! 1) = Some res2 /\
     text res1 = "x y z" /\ text res2 = "w" /\
     stats res1 = stats res2 /\
     stats_of (fst together) res1 = Some (mk_StreamStats 1%Z 1%Z 1%Z COMPLETED) /\
     objs (store (fst together)) !! 0 = Some (mk_StreamStats 0%Z 1%Z 3%Z PROCESSING)).
Proof.
  split.
  - eexists. vm_compute. repeat split; reflexivity.
  - eexists _, _. vm_compute. repeat split; reflexivity.
Qed.

(** The scenario of the specification: three chunks, one attempt. *)
Example add_two_numbers_scenario :
  let r := run (calm (fun _ => inr (stream_of add_chunks)))
             (generate_code_with_explanation generator "add two numbers" silent 3
                watching) machine0 in
  exists res,
    snd r = Returned (Some res) /\
    text res = "def add(aOkay, c... urn a+b" /\
    (chunks_processed <$> stats_of (fst r) res) = Some 3%Z /\
    (status <$> stats_of (fst r) res) = Some COMPLETED /\
    fragments (trace (fst r)) = ["def add(a"; "Okay, c"; "... urn a+b"].
Proof. eexists. vm_compute. repeat split; reflexivity. Qed.

(** * Further properties of the code *)

(** ** The deliveries and the counters *)

Lemma audit_app (tr1 tr2 : list event) : forall n t,
  audit n t (tr1 ++ tr2) =
  audit n t tr1 &&
  audit (n + Z.of_nat (length (fragments tr1)))
        (t + sum_list (word_count <$> fragments tr1)) tr2.
Proof.
  induction tr1 as [|ev tr1 IH]; intros n t.
  - simpl. by rewrite !Z.add_0_r.
  - destruct ev as [req|f|[s|]|lvl msg|d]; simpl; rewrite ?IH; try done.
    + f_equal. f_equal; [lia|]. rewrite Z.add_assoc. reflexivity.
    + by rewrite <- !andb_assoc.
Qed.

Lemma audit_silent (tr : list event) (n t : Z) :
  fragments tr = [] -> snapshots tr = [] -> audit n t tr = true.
Proof.
  induction tr as [|ev tr IH]; [done|].
  destruct ev as [req|f|[s|]|lvl msg|d]; simpl; try done; auto.
Qed.

Lemma accounts_refl r m s :
  self_stats (store m) = Some r -> objs (store m) !! r = Some s ->
  accounts r m m [].
Proof.
  intros Hr Hs. unfold accounts. rewrite app_nil_r.
  repeat split; auto. exists s, s. simpl. repeat split; auto; lia.
Qed.

Lemma accounts_trans r m1 m2 m3 tr1 tr2 :
  accounts r m1 m2 tr1 -> accounts r m2 m3 tr2 -> accounts r m1 m3 (tr1 ++ tr2).
Proof.
  intros (Ht1 & Hr1 & Hl1 & Ho1 & s1 & s2 & Hs1 & Hs2 & Hst1 & Hc1 & Hk1 & Ha1)
         (Ht2 & Hr2 & Hl2 & Ho2 & s2' & s3 & Hs2' & Hs3 & Hst2 & Hc2 & Hk2 & Ha2).
  assert (s2' = s2) as -> by congruence.
  split; [by rewrite Ht2, Ht1, app_assoc|]. split; [done|].
  split; [congruence|]. split; [intros j Hj; by rewrite Ho2, Ho1|].
  exists s1, s3. rewrite fragments_app, length_app, fmap_app, audit_app, Ha1.
  rewrite <- Hc1, <- Hk1, Ha2.
  repeat split; auto; try congruence; try lia.
  rewrite Hk2, Hk1. clear. induction (word_count <$> fragments tr1); simpl in *; lia.
Qed.

(** A step that leaves the store as it is and delivers nothing. *)
Lemma accounts_idle r m m1 m2 tr1 tr2 :
  accounts r m m1 tr1 ->
  store m2 = store m1 -> trace m2 = trace m1 ++ tr2 ->
  fragments tr2 = [] -> snapshots tr2 = [] ->
  accounts r m m2 (tr1 ++ tr2).
Proof.
  intros H Hstore Htr Hf Hp. eapply accounts_trans; [exact H|].
  destruct H as (_ & Hr1 & _ & _ & _ & s1 & _ & Hs1 & _).
  unfold accounts. rewrite Hstore, Hf. split; [done|]. repeat split; auto.
  exists s1, s1. simpl. rewrite audit_silent by done. repeat split; auto; lia.
Qed.

Lemma accounts_same r m m1 m2 tr1 :
  accounts r m m1 tr1 ->
  store m2 = store m1 -> trace m2 = trace m1 ->
  accounts r m m2 tr1.
Proof.
  intros H Hstore Htr. rewrite <- (app_nil_r tr1).
  eapply accounts_idle; eauto. by rewrite app_nil_r.
Qed.

(** [self.stats.status = x] *)
Lemma accounts_status r m m1 tr1 s1 f :
  accounts r m m1 tr1 -> objs (store m1) !! r = Some s1 ->
  start_time (f s1) = start_time s1 ->
  chunks_processed (f s1) = chunks_processed s1 ->
  total_tokens (f s1) = total_tokens s1 ->
  accounts r m (updated r (f s1) m1) tr1.
Proof.
  intros H Hs1 Hst Hc Hk. rewrite <- (app_nil_r tr1).
  eapply accounts_trans; [exact H|].
  unfold accounts. simpl. rewrite app_nil_r, length_insert.
  repeat split; auto.
  { intros j Hj. by apply list_lookup_insert_ne. }
  exists s1, (f s1). rewrite (lookup_updated r s1) by done.
  repeat split; auto; lia.
Qed.

(** The two counters are updated and the fragment is delivered. *)
Lemma accounts_deliver r m m1 tr1 s1 f :
  accounts r m m1 tr1 -> objs (store m1) !! r = Some s1 ->
  let s2 := set_chunks_processed (chunks_processed s1 + 1) s1 in
  let s3 := set_total_tokens (total_tokens s2 + word_count f) s2 in
  accounts r m (record (EvChunk f) (updated r s3 (updated r s2 m1))) (tr1 ++ [EvChunk f]).
Proof.
  intros H Hs1 s2 s3. eapply accounts_trans; [exact H|].
  unfold accounts. simpl. rewrite !length_insert.
  repeat split; auto.
  { intros j Hj. by rewrite !list_lookup_insert_ne. }
  exists s1, s3. rewrite list_insert_insert_eq, (lookup_updated r s1) by done.
  repeat split; auto; simpl; lia.
Qed.

(** [progress_callback(self.stats)] *)
Lemma accounts_notify r m m1 tr1 s1 :
  accounts r m m1 tr1 -> objs (store m1) !! r = Some s1 ->
  accounts r m (record (EvProgress (Some s1)) m1) (tr1 ++ [EvProgress (Some s1)]).
Proof.
  intros H Hs1. eapply accounts_trans; [exact H|].
  destruct H as (_ & Hr1 & _).
  unfold accounts. simpl. repeat split; auto.
  exists s1, s1. simpl. rewrite !Z.eqb_refl. repeat split; auto; lia.
Qed.

Lemma accounts_final r m m' tr :
  accounts r m m' tr ->
  self_stats (store m') = Some r /\ exists s', objs (store m') !! r = Some s'.
Proof. intros (_ & Hr & _ & _ & s & s' & _ & Hs' & _). eauto. Qed.

Lemma shown_weaken (P Q : StreamStatus -> Prop) (l : list (option StreamStats)) :
  (forall x, P x -> Q x) -> Forall (shown P) l -> Forall (shown Q) l.
Proof.
  intros HPQ H. eapply Forall_impl; [exact H|].
  intros x (s & -> & Hs). exists s. auto.
Qed.

(** One turn of the loop of [handle_stream], whatever its outcome. *)
Lemma for_body_accounts (E : env) cb pcb chunk full m m' o r s :
  self_stats (store m) = Some r -> objs (store m) !! r = Some s ->
  run E (for_body cb pcb chunk full) m = (m', o) ->
  exists tr s',
    accounts r m m' tr /\ objs (store m') !! r = Some s' /\ status s' = status s /\
    Forall (shown (eq (status s))) (snapshots tr) /\
    requests tr = [] /\ n_clock m' = n_clock m.
Proof.
  intros Hr Hs. unfold for_body. run_pure.
  pose proof (accounts_refl r m s Hr Hs) as H0.
  assert (H1 : accounts r m (polled m) []) by (by eapply accounts_same).
  destruct (cancelled_at E (n_polls m)) eqn:Hc; run_pure.
  { intros [= <- <-]. exists [], s. split; [exact H1|]. repeat split; auto. }
  destruct (format_chunk_run E chunk (polled m)) as (evs & Hw & ->). run_pure.
  set (f := fragment_of chunk).
  set (m1 := records evs (polled m)).
  destruct (warnings_silent evs Hw) as (Hf1 & Hp1).
  assert (Hq1 : requests evs = []).
  { by destruct (quiet_silent evs (warnings_quiet evs Hw)). }
  assert (H2 : accounts r m m1 evs).
  { change evs with ([] ++ evs). by eapply accounts_idle. }
  destruct (truthy f) eqn:Ht; run_pure.
  - erewrite run_stats_get by (simpl; eauto). run_pure.
    erewrite run_stats_update by (simpl; eauto). run_pure.
    set (s2 := set_chunks_processed (chunks_processed s + 1) s).
    set (m2 := updated r s2 m1).
    erewrite (run_stats_get _ _ _ m2 r s2) by (simpl; eauto using lookup_updated).
    run_pure.
    erewrite (run_stats_update _ _ _ m2 r s2) by (simpl; eauto using lookup_updated).
    run_pure.
    set (s3 := set_total_tokens (total_tokens s2 + word_count f) s2).
    set (m3 := updated r s3 m2).
    assert (H3 : accounts r m (record (EvChunk f) m3) (evs ++ [EvChunk f])).
    { by apply (accounts_deliver r m m1 evs s f). }
    assert (Hs3 : objs (store (record (EvChunk f) m3)) !! r = Some s3).
    { simpl. eauto using lookup_updated. }
    assert (Hcur : current_stats (store (record (EvChunk f) m3)) = Some s3).
    { by apply (current_stats_refers r). }
    destruct (cb f) as [e|] eqn:Hcb; run_pure.
    { intros [= <- <-]. exists (evs ++ [EvChunk f]), s3. split; [exact H3|].
      rewrite snapshots_app, requests_app, Hp1, Hq1. repeat split; auto. }
    destruct pcb as [p|]; unfold notify_if; run_pure.
    + rewrite Hcur.
      assert (H4 : accounts r m (record (EvProgress (Some s3)) (record (EvChunk f) m3))
                     ((evs ++ [EvChunk f]) ++ [EvProgress (Some s3)])).
      { by apply accounts_notify. }
      assert (Hshape :
        Forall (shown (eq (status s)))
               (snapshots ((evs ++ [EvChunk f]) ++ [EvProgress (Some s3)])) /\
        requests ((evs ++ [EvChunk f]) ++ [EvProgress (Some s3)]) = []).
      { rewrite !snapshots_app, !requests_app, Hp1, Hq1. simpl.
        split; [|done]. repeat constructor. by exists s3. }
      destruct Hshape as (Hshown & Hreq).
      destruct (p (Some s3)) as [e|] eqn:Hp; intros [= <- <-];
        eexists _, s3; (split; [exact H4|]); repeat split; eauto.
    + intros [= <- <-]. exists (evs ++ [EvChunk f]), s3. split; [exact H3|].
      rewrite snapshots_app, requests_app, Hp1, Hq1. repeat split; auto.
  - assert (Hs1 : objs (store m1) !! r = Some s) by done.
    assert (Hcur : current_stats (store m1) = Some s).
    { by apply (current_stats_refers r). }
    destruct pcb as [p|]; unfold notify_if; run_pure.
    + rewrite Hcur.
      assert (H4 : accounts r m (record (EvProgress (Some s)) m1)
                     (evs ++ [EvProgress (Some s)])).
      { by apply accounts_notify. }
      assert (Hshape :
        Forall (shown (eq (status s))) (snapshots (evs ++ [EvProgress (Some s)])) /\
        requests (evs ++ [EvProgress (Some s)]) = []).
      { rewrite !snapshots_app, !requests_app, Hp1, Hq1. simpl.
        split; [|done]. repeat constructor. by exists s. }
      destruct Hshape as (Hshown & Hreq).
      destruct (p (Some s)) as [e|] eqn:Hp; intros [= <- <-];
        eexists _, s; (split; [exact H4|]); repeat split; eauto.
    + intros [= <- <-]. exists evs, s. split; [exact H2|].
      rewrite Hp1. repeat split; auto.
Qed.

(** The loop of [handle_stream], whatever its outcome. *)
Lemma for_chunk_in_accounts (E : env) cb pcb s : forall full m m' o r st,
  self_stats (store m) = Some r -> objs (store m) !! r = Some st ->
  run E (for_chunk_in cb pcb s full) m = (m', o) ->
  exists tr st',
    accounts r m m' tr /\ objs (store m') !! r = Some st' /\ status st' = status st /\
    Forall (shown (eq (status st))) (snapshots tr) /\
    requests tr = [] /\ n_clock m' = n_clock m /\
    n_sleeps m' = n_sleeps m.
Proof.
  induction s as [|e0|chunk rest IH]; intros full m m' o r st Hr Hst.
  - simpl. intros [= <- <-]. exists [], st.
    split; [by eapply accounts_refl|]. repeat split; auto.
  - simpl. intros [= <- <-]. exists [], st.
    split; [by eapply accounts_refl|]. repeat split; auto.
  - cbn [for_chunk_in]. rewrite run_bind.
    destruct (run E (for_body cb pcb chunk full) m) as [m1 o1] eqn:Hbody.
    destruct (for_body_accounts E cb pcb chunk full m m1 o1 r st Hr Hst Hbody)
      as (tr1 & st1 & H1 & Hst1 & Hs1 & Hp1 & Hq1 & Hc1).
    destruct (for_body_spec E cb pcb chunk full m m1 o1 r st Hr Hst Hbody)
      as (_ & Hsl1 & _).
    destruct o1 as [full1|e1].
    + intros Hrest.
      destruct (accounts_final _ _ _ _ H1) as (Hr1 & _).
      destruct (IH full1 m1 m' o r st1 Hr1 Hst1 Hrest)
        as (tr2 & st2 & H2 & Hst2 & Hs2 & Hp2 & Hq2 & Hc2 & Hsl2).
      exists (tr1 ++ tr2), st2. split; [by eapply accounts_trans|].
      rewrite snapshots_app, requests_app, Hq1, Hq2.
      repeat split; auto; try congruence.
      apply Forall_app. split; [done|]. by rewrite <- Hs1.
    + intros [= <- <-]. exists tr1, st1. split; [done|]. repeat split; auto.
Qed.

Lemma handle_stream_accounts (E : env) cb pcb s m m' o r st :
  self_stats (store m) = Some r -> objs (store m) !! r = Some st ->
  run E (handle_stream cb pcb s) m = (m', o) ->
  exists tr st',
    accounts r m m' tr /\ objs (store m') !! r = Some st' /\
    Forall (shown (fun x => x = status st \/ x = COMPLETED)) (snapshots tr) /\
    requests tr = [] /\ n_clock m' = n_clock m.
Proof.
  intros Hr Hst. unfold handle_stream, consume.
  rewrite run_bind, run_try_except, run_bind.
  destruct (run E (for_chunk_in cb pcb s "") m) as [m1 o1] eqn:Hloop.
  destruct (for_chunk_in_accounts E cb pcb s "" m m1 o1 r st Hr Hst Hloop)
    as (tr1 & st1 & H1 & Hst1 & Hs1 & Hp1 & Hq1 & Hc1 & Hsl1).
  destruct (accounts_final _ _ _ _ H1) as (Hr1 & _).
  assert (Hp1' : Forall (shown (fun x => x = status st \/ x = COMPLETED)) (snapshots tr1)).
  { eapply shown_weaken; [|exact Hp1]. intros x <-. by left. }
  destruct o1 as [full|e1]; run_pure.
  - set (m2 := slept Hundredth m1).
    assert (H2 : accounts r m m2 (tr1 ++ [EvSleep Hundredth])).
    { by eapply accounts_idle. }
    assert (Hshape2 :
      Forall (shown (fun x => x = status st \/ x = COMPLETED))
             (snapshots (tr1 ++ [EvSleep Hundredth])) /\
      requests (tr1 ++ [EvSleep Hundredth]) = []).
    { rewrite snapshots_app, requests_app, Hq1. simpl. by rewrite app_nil_r. }
    destruct Hshape2 as (Hp2 & Hq2).
    destruct (cancel_wakeup E (n_sleeps m1)) eqn:Hw; run_pure.
    + simpl. run_pure. intros [= <- <-].
      eexists _, st1. split.
      { eapply accounts_idle; [exact H2| | | |]; simpl; reflexivity. }
      rewrite snapshots_app, requests_app, Hq2. simpl. rewrite app_nil_r.
      repeat split; auto.
    + rewrite (run_stats_update E _ _ _ r st1) by (simpl; auto). run_pure.
      set (st2 := set_status COMPLETED st1).
      set (m3 := updated r st2 m2).
      assert (H3 : accounts r m m3 (tr1 ++ [EvSleep Hundredth])).
      { by apply (accounts_status r m m2 _ st1 (set_status COMPLETED)). }
      assert (Hst2 : objs (store m3) !! r = Some st2).
      { simpl. eauto using lookup_updated. }
      assert (Hcur : current_stats (store m3) = Some st2).
      { by apply (current_stats_refers r). }
      destruct pcb as [p|]; unfold notify_if; run_pure.
      * rewrite Hcur.
        assert (H4 : accounts r m (record (EvProgress (Some st2)) m3)
                       ((tr1 ++ [EvSleep Hundredth]) ++ [EvProgress (Some st2)])).
        { by apply accounts_notify. }
        assert (Hshape4 :
          Forall (shown (fun x => x = status st \/ x = COMPLETED))
                 (snapshots ((tr1 ++ [EvSleep Hundredth]) ++ [EvProgress (Some st2)])) /\
          requests ((tr1 ++ [EvSleep Hundredth]) ++ [EvProgress (Some st2)]) = []).
        { rewrite (snapshots_app (tr1 ++ _)), (requests_app (tr1 ++ _)), Hq2.
          split; [|done]. apply Forall_app. split; [done|].
          repeat constructor. exists st2. split; [done|]. by right. }
        destruct Hshape4 as (Hp4 & Hq4).
        destruct (p (Some st2)) as [e|] eqn:Hp; intros [= <- <-];
          eexists _, st2; (split; [exact H4|]); repeat split; auto.
      * intros [= <- <-]. eexists _, st2. split; [exact H3|]. repeat split; auto.
  - destruct (is_CancelledError e1) eqn:Hcancel; run_pure.
    + intros [= <- <-]. eexists _, st1. split.
      { eapply accounts_idle; [exact H1| | | |]; simpl; reflexivity. }
      rewrite snapshots_app, requests_app, Hq1. simpl. rewrite app_nil_r.
      repeat split; auto.
    + intros [= <- <-]. exists tr1, st1. split; [done|]. repeat split; auto.
Qed.

Section accounting.
Context (E : env) (self : StreamingCodeGenerator) (prompt : string)
        (cb : callback_t) (N : Z) (pcb : option progress_callback_t).

Local Abbreviation req := (the_request self prompt).

Lemma attempt_body_accounts m m' o r st :
  self_stats (store m) = Some r -> objs (store m) !! r = Some st ->
  run E (attempt_body self prompt cb pcb) m = (m', o) ->
  exists tr,
    accounts r m m' (EvRequest req :: tr) /\ Forall in_progress (snapshots tr) /\
    requests tr = [] /\
    timed E Some m m' (start_time st) o.
Proof.
  intros Hr Hst. unfold attempt_body.
  rewrite run_bind, (run_stats_update E _ _ _ r st) by auto. run_pure.
  set (st1 := set_status PROCESSING st).
  set (m1 := updated r st1 m).
  assert (H1 : accounts r m m1 []).
  { apply (accounts_status r m m [] st (set_status PROCESSING)); auto.
    by eapply accounts_refl. }
  assert (H2 : accounts r m (requested req m1) [EvRequest req]).
  { change [EvRequest req] with ([] ++ [EvRequest req]).
    by eapply accounts_idle. }
  assert (Hst1 : objs (store (requested req m1)) !! r = Some st1).
  { simpl. eauto using lookup_updated. }
  change (n_requests m1) with (n_requests m).
  destruct (service E req (n_requests m)) as [e|s] eqn:Hresp; run_pure.
  { intros [= <- <-]. exists []. split; [exact H2|]. repeat split; auto. }
  destruct (run E (handle_stream cb pcb s) (requested req m1)) as [m3 o3] eqn:Hhs.
  assert (Hr1 : self_stats (store (requested req m1)) = Some r) by done.
  destruct (handle_stream_accounts E cb pcb s _ m3 o3 r st1 Hr1 Hst1 Hhs)
    as (tr3 & st3 & H3 & Hst3 & Hp3 & Hq3 & Hc3).
  assert (H4 : accounts r m m3 (EvRequest req :: tr3)).
  { change (EvRequest req :: tr3) with ([EvRequest req] ++ tr3).
    by eapply accounts_trans. }
  destruct (accounts_final _ _ _ _ H4) as (Hr3 & _).
  assert (Hp3' : Forall in_progress (snapshots tr3)).
  { eapply shown_weaken; [|exact Hp3]. simpl. auto. }
  destruct o3 as [final|e]; run_pure.
  - rewrite (run_stats_update E _ _ _ r st3) by auto. run_pure.
    set (st4 := set_status COMPLETED st3).
    set (m4 := updated r st4 m3).
    assert (Hst4 : objs (store m4) !! r = Some st4).
    { simpl. eauto using lookup_updated. }
    simpl run at 1. run_pure.
    rewrite (run_stats_get E _ _ (ticked m4) r st4) by (simpl; auto). run_pure.
    intros [= <- <-].
    assert (H5 : accounts r m m4 (EvRequest req :: tr3)).
    { by apply (accounts_status r m m3 _ st3 (set_status COMPLETED)). }
    exists tr3. split; [by eapply accounts_same|].
    split; [done|]. split; [done|].
    simpl in Hc3. simpl. rewrite Hc3. split; [done|].
    destruct H3 as (_ & _ & _ & _ & s0 & s' & Hs & Hs' & Hstart & _).
    simpl in Hs. rewrite (lookup_updated r st) in Hs by done.
    injection Hs as <-. rewrite Hst3 in Hs'. injection Hs' as <-.
    by rewrite Hstart.
  - intros [= <- <-]. exists tr3. split; [exact H4|]. repeat split; auto.
Qed.

Lemma one_attempt_accounts a m m' o r st :
  self_stats (store m) = Some r -> objs (store m) !! r = Some st ->
  run E (one_attempt self prompt cb N pcb a) m = (m', o) ->
  exists tr,
    accounts r m m' tr /\ Forall in_progress (snapshots tr) /\
    timed E id m m' (start_time st) o.
Proof.
  intros Hr Hst. unfold one_attempt.
  rewrite run_try_except, run_bind.
  destruct (run E (attempt_body self prompt cb pcb) m) as [m1 o1] eqn:Hbody.
  destruct (attempt_body_accounts m m1 o1 r st Hr Hst Hbody)
    as (tr1 & H1 & Hp1 & _ & Hc1).
  destruct (accounts_final _ _ _ _ H1) as (Hr1 & st1 & Hst1).
  destruct o1 as [res|e]; run_pure.
  { intros [= <- <-]. exists (EvRequest req :: tr1). split; [done|]. by split. }
  simpl in Hc1.
  destruct (is_Exception e) eqn:Hexc; run_pure.
  2:{ intros [= <- <-]. exists (EvRequest req :: tr1). split; [done|]. by split. }
  unfold on_failure. run_pure.
  rewrite (run_stats_update E _ _ _ r st1) by auto. run_pure.
  set (st2 := set_status ERROR st1).
  set (m2 := updated r st2 m1).
  set (line := EvLog ERROR_LEVEL
                 ("Attempt " +:+ str_of_int (a + 1) +:+ " failed: " +:+ str e)).
  assert (H2 : accounts r m (record line m2) ((EvRequest req :: tr1) ++ [line])).
  { eapply (accounts_idle r m m2); [|reflexivity|reflexivity|done|done].
    by apply (accounts_status r m m1 _ st1 (set_status ERROR)). }
  assert (Hp2 : Forall in_progress (snapshots ((EvRequest req :: tr1) ++ [line]))).
  { rewrite snapshots_app. simpl. by rewrite app_nil_r. }
  destruct (Z.eqb_spec a (N - 1)) as [Hlast|Hlast]; run_pure.
  { intros [= <- <-]. eexists. split; [exact H2|]. by split. }
  set (d := Seconds (Z.min (2 ^ a) 10)).
  assert (H3 : accounts r m (slept d (record line m2))
                 (((EvRequest req :: tr1) ++ [line]) ++ [EvSleep d])).
  { eapply accounts_idle; [exact H2| | | |]; reflexivity. }
  assert (Hp3 : Forall in_progress
                  (snapshots (((EvRequest req :: tr1) ++ [line]) ++ [EvSleep d]))).
  { rewrite (snapshots_app (_ ++ _)). simpl. by rewrite app_nil_r. }
  destruct (cancel_wakeup E (n_sleeps (record line m2))) eqn:Hw; run_pure;
    intros [= <- <-]; (eexists; split; [exact H3|]; by split).
Qed.

(** The retry loop, whatever the attempts and its outcome. *)
Lemma for_attempt_in_accounts attempts : forall m m' o r st,
  self_stats (store m) = Some r -> objs (store m) !! r = Some st ->
  run E (for_attempt_in self prompt cb N pcb attempts) m = (m', o) ->
  exists tr,
    accounts r m m' tr /\ Forall in_progress (snapshots tr) /\
    timed E id m m' (start_time st) o.
Proof.
  induction attempts as [|a attempts IH]; intros m m' o r st Hr Hst.
  { simpl. intros [= <- <-]. exists []. split; [by eapply accounts_refl|]. by split. }
  cbn [for_attempt_in]. rewrite run_bind.
  destruct (run E (one_attempt self prompt cb N pcb a) m) as [m1 o1] eqn:Hone.
  destruct (one_attempt_accounts a m m1 o1 r st Hr Hst Hone) as (tr1 & H1 & Hp1 & Hc1).
  destruct o1 as [[res|]|e]; run_pure.
  - intros [= <- <-]. exists tr1. split; [done|]. by split.
  - intros Hrest. simpl in Hc1.
    destruct (accounts_final _ _ _ _ H1) as (Hr1 & st1 & Hst1).
    destruct (IH m1 m' o r st1 Hr1 Hst1 Hrest) as (tr2 & H2 & Hp2 & Hc2).
    exists (tr1 ++ tr2). split; [by eapply accounts_trans|].
    split; [rewrite snapshots_app; by apply Forall_app|].
    destruct H1 as (_ & _ & _ & _ & s0 & s' & Hs & Hs' & Hstart & _).
    assert (s0 = st) as -> by congruence. assert (s' = st1) as -> by congruence.
    unfold timed in *. rewrite <- Hstart, <- Hc1. exact Hc2.
  - intros [= <- <-]. exists tr1. split; [done|]. by split.
Qed.
End accounting.

Section whole_call.
Context (E : env) (self : StreamingCodeGenerator) (prompt : string)
        (cb : callback_t) (N : Z) (pcb : option progress_callback_t).

(** A whole call, from the machine in which [self.stats] has just been
    set. *)
Lemma generate_accounts m m' o :
  run E (generate_code_with_explanation self prompt cb N pcb) m = (m', o) ->
  exists tr,
    accounts (length (objs (store m))) (write (store_at_start E m) (ticked m)) m' tr /\
    Forall in_progress (snapshots tr) /\
    timed E id (ticked m) m' (clock E (n_clock m)) o.
Proof.
  unfold generate_code_with_explanation. rewrite run_bind, run_init_stats. run_pure.
  set (m0 := write (store_at_start E m) (ticked m)).
  set (r := length (objs (store m))).
  intros Hrun.
  assert (Hr : self_stats (store m0) = Some r) by done.
  assert (Hst : objs (store m0) !! r = Some (new_StreamStats (clock E (n_clock m)))).
  { simpl. by apply list_lookup_middle. }
  destruct (for_attempt_in_accounts E self prompt cb N pcb _ m0 m' o r _ Hr Hst Hrun)
    as (tr & H & Hp & Hc).
  exists tr. split; [done|]. split; [done|]. exact Hc.
Qed.

(** In every run of a call, whatever its outcome, the object the call
    made has counted the calls of the chunk callback and the words it was
    given. *)
Lemma generate_counts m m' o :
  run E (generate_code_with_explanation self prompt cb N pcb) m = (m', o) ->
  exists tr s',
    trace m' = trace m ++ tr /\
    objs (store m') !! length (objs (store m)) = Some s' /\
    start_time s' = clock E (n_clock m) /\
    chunks_processed s' = Z.of_nat (length (fragments tr)) /\
    total_tokens s' = sum_list (word_count <$> fragments tr) /\
    audit 0 0 tr = true /\ Forall in_progress (snapshots tr).
Proof.
  intros Hrun. destruct (generate_accounts m m' o Hrun) as (tr & H & Hp & _).
  destruct H as (Htr & _ & _ & _ & s & s' & Hs & Hs' & Hstart & Hc & Hk & Ha).
  simpl in Hs. rewrite list_lookup_middle in Hs by done. injection Hs as <-.
  exists tr, s'. repeat split; auto.
Qed.
End whole_call.

(** ** How a call ends *)

Lemma backoffs_app tr1 tr2 : backoffs (tr1 ++ tr2) = backoffs tr1 ++ backoffs tr2.
Proof. apply omap_app. Qed.

Lemma quiet_no_backoff tr : Forall quiet tr -> backoffs tr = [].
Proof.
  induction 1 as [|ev tr Hev _ IH]; [done|].
  destruct ev as [?|?|?|[] ?|[]]; simpl in *; try done.
Qed.

Lemma backoffs_skeleton tr :
  backoffs tr =
  omap (fun mk => match mk with Backoff d => Some d | Attempt => None end) (skeleton tr).
Proof.
  induction tr as [|ev tr IH]; [done|].
  destruct ev as [?|?|?|? ?|[]]; simpl; by rewrite ?IH.
Qed.

Section ends.
Context (E : env) (self : StreamingCodeGenerator) (prompt : string)
        (cb : callback_t) (N : Z) (pcb : option progress_callback_t).

Local Abbreviation req := (the_request self prompt).

(** A turn of the retry loop that returns a result is an attempt that
    returned it. *)
Lemma one_attempt_returned a m m' res :
  run E (one_attempt self prompt cb N pcb a) m = (m', Returned (Some res)) ->
  run E (attempt_body self prompt cb pcb) m = (m', Returned res).
Proof.
  unfold one_attempt. rewrite run_try_except, run_bind.
  destruct (run E (attempt_body self prompt cb pcb) m) as [m1 [res1|e]]; run_pure.
  { by intros [= <- <-]. }
  destruct (is_Exception e); run_pure; [|done].
  destruct (run E (on_failure N a e) m1) as [m2 [[]|e2]]; run_pure; done.
Qed.

(** An attempt that returns has consumed the stream of its request. *)
Lemma attempt_body_returned m m' res r st :
  self_stats (store m) = Some r -> objs (store m) !! r = Some st ->
  run E (attempt_body self prompt cb pcb) m = (m', Returned res) ->
  exists s m3,
    service E req (n_requests m) = inr s /\
    run E (handle_stream cb pcb s)
          (requested req (updated r (set_status PROCESSING st) m))
      = (m3, Returned (text res)) /\
    trace m' = trace m3 /\
    exists st3, objs (store m3) !! r = Some st3 /\
                objs (store m') !! r = Some (set_status COMPLETED st3).
Proof.
  intros Hr Hst. unfold attempt_body.
  rewrite run_bind, (run_stats_update E _ _ _ r st) by auto. run_pure.
  set (st1 := set_status PROCESSING st).
  set (m1 := updated r st1 m).
  change (n_requests m1) with (n_requests m).
  destruct (service E req (n_requests m)) as [e|s] eqn:Hresp; run_pure; [done|].
  destruct (run E (handle_stream cb pcb s) (requested req m1)) as [m3 o3] eqn:Hhs.
  assert (Hr1 : self_stats (store (requested req m1)) = Some r) by done.
  assert (Hst1 : objs (store (requested req m1)) !! r = Some st1).
  { simpl. eauto using lookup_updated. }
  destruct (handle_stream_accounts E cb pcb s _ m3 o3 r st1 Hr1 Hst1 Hhs)
    as (tr3 & st3 & H3 & Hst3 & _).
  destruct (accounts_final _ _ _ _ H3) as (Hr3 & _).
  destruct o3 as [final|e]; run_pure; [|done].
  rewrite (run_stats_update E _ _ _ r st3) by auto. run_pure.
  set (st4 := set_status COMPLETED st3).
  set (m4 := updated r st4 m3).
  assert (Hst4 : objs (store m4) !! r = Some st4).
  { simpl. eauto using lookup_updated. }
  simpl run at 1. run_pure.
  rewrite (run_stats_get E _ _ (ticked m4) r st4) by (simpl; auto). run_pure.
  intros [= <- <-]. exists s, m3. simpl. repeat split; auto.
  exists st3. split; [done|]. eauto using lookup_updated.
Qed.

Lemma one_attempt_succeeded a m m' res r st :
  self_stats (store m) = Some r -> objs (store m) !! r = Some st ->
  status st = INITIALIZING \/ status st = ERROR ->
  run E (one_attempt self prompt cb N pcb a) m = (m', Returned (Some res)) ->
  exists chunks tr st',
    trace m' = trace m ++ EvRequest req :: tr /\ Forall quiet tr /\
    fragments tr = texts chunks /\ text res = join (texts chunks) /\
    service E req (n_requests m) = inr (stream_of chunks) /\
    n_requests m' = S (n_requests m) /\
    objs (store m') !! r = Some st' /\ status st' = COMPLETED /\
    stats res = Some r /\
    shown_last pcb tr (length chunks) st'.
Proof.
  intros Hr Hst Hstatus Hone. apply one_attempt_returned in Hone.
  destruct (attempt_body_spec E self prompt cb pcb m m' _ r st Hr Hst Hstatus Hone)
    as (tr & st' & (Htr & _) & Hq & Hn & Hst' & Hs' & Hres & chunks & Hresp & Htext & Hf & _).
  destruct (attempt_body_returned m m' res r st Hr Hst Hone)
    as (s & m3 & Hresp' & Hhs & Htr3 & st3 & Hst3 & Hst4).
  exists chunks, tr, st'. repeat split; auto.
  rewrite Hresp in Hresp'. injection Hresp' as <-.
  set (m1 := requested req (updated r (set_status PROCESSING st) m)) in *.
  assert (Hr1 : self_stats (store m1) = Some r) by done.
  assert (Hst1 : objs (store m1) !! r = Some (set_status PROCESSING st)).
  { simpl. eauto using lookup_updated. }
  destruct (handle_stream_spec E cb pcb _ m1 m3 _ r _ Hr1 Hst1 Hhs)
    as (_ & chunks' & tr' & st3' & Heq & _ & _ & _ & Htr' & _ & Hp & Hst3' & _ & _ & Hs3).
  apply stream_of_inj in Heq as <-.
  assert (tr' = tr) as ->.
  { rewrite Htr3, Htr' in Htr. simpl in Htr. rewrite <- app_assoc in Htr.
    apply app_inv_head in Htr. by injection Htr. }
  assert (st3' = st3) as -> by congruence.
  assert (st' = set_status COMPLETED st3) as -> by congruence.
  unfold shown_last. destruct pcb as [p|]; [|done].
  destruct Hp as (seen & Hp & Hlen). exists seen, st3. repeat split; auto.
Qed.

(** How the retry loop ends, from attempt [i] on with [n] attempts left. *)
Lemma for_attempt_in_ends n : forall i m m' o r st,
  Z.of_nat (i + n) = N ->
  self_stats (store m) = Some r -> objs (store m) !! r = Some st ->
  status st = INITIALIZING \/ status st = ERROR ->
  run E (for_attempt_in self prompt cb N pcb (attempts_from i n)) m = (m', o) ->
  exists tr st',
    trace m' = trace m ++ tr /\ objs (store m') !! r = Some st' /\
    backoffs tr `prefix_of` (backoff_delay <$> attempts_from i (pred n)) /\
    match o with
    | Returned (Some res) =>
        status st' = COMPLETED /\
        exists tr1 tr2 chunks,
          tr = tr1 ++ EvRequest req :: tr2 /\
          skeleton tr1 = retry_schedule (attempts_from i (length (requests tr1))) /\
          length (errors_logged tr1) = length (requests tr1) /\
          length (requests tr1) < n /\
          Forall quiet tr2 /\
          fragments tr2 = texts chunks /\ text res = join (texts chunks) /\
          service E req (n_requests m + length (requests tr1)) = inr (stream_of chunks) /\
          n_requests m' = n_requests m + S (length (requests tr1)) /\
          shown_last pcb tr2 (length chunks) st'
    | Returned None => n = 0
    | Raised e =>
        is_Exception e = true ->
        status st' = ERROR /\
        backoffs tr = backoff_delay <$> attempts_from i (pred n)
    end.
Proof.
  induction n as [|n IH]; intros i m m' o r st HN Hr Hst Hstatus.
  { simpl. intros [= <- <-]. exists [], st. rewrite app_nil_r. repeat split; auto. }
  rewrite attempts_from_S. cbn [for_attempt_in]. rewrite run_bind.
  destruct (run E (one_attempt self prompt cb N pcb (Z.of_nat i)) m)
    as [m1 o1] eqn:Hone.
  destruct (one_attempt_spec E self prompt cb N pcb _ m m1 o1 r st Hr Hst Hstatus Hone)
    as (tr1 & st1 & (Htr1 & H1) & Hn1 & Hreq1 & Hst1 & Hcases).
  assert (Hr1 : self_stats (store m1) = Some r).
  { eapply (advances_refers r m m1 tr1); [split; eauto|]. by split. }
  destruct Hcases as [(res & chunks0 & -> & Hsk & Herr & Hres & Hs1 & Hresp & Htext)
                     |[(e & -> & Hcancel & Hsk & Herr & He)
                      |(e0 & He0 & Hexc & Herr & Hs1 & Hend)]].
  - run_pure. intros [= <- <-].
    destruct (one_attempt_succeeded _ m m1 res r st
                Hr Hst Hstatus Hone)
      as (chunks & tr & st' & Htr & Hq & Hf & Htext' & Hresp' & Hn' & Hst' & Hs' & _ & Hlast).
    assert (st' = st1) as -> by congruence.
    assert (tr1 = EvRequest req :: tr) as ->.
    { rewrite Htr in Htr1. by apply app_inv_head in Htr1. }
    exists (EvRequest req :: tr), st1. split; [done|]. split; [done|].
    split. { rewrite backoffs_skeleton, Hsk. apply prefix_nil. }
    split; [done|].
    exists [], tr, chunks. simpl. rewrite !Nat.add_0_r.
    repeat split; auto; lia.
  - intros [= <- <-]. exists tr1, st1. split; [done|]. split; [done|].
    split. { rewrite backoffs_skeleton, Hsk. apply prefix_nil. }
    intros Hexc. destruct (cancelled_not_exception _ Hcancel Hexc).
  - destruct Hend as [(Hlast & -> & Hsk)|(Hlast & Hsk & Ho1)].
    + intros [= <- <-]. exists tr1, st1. split; [done|]. split; [done|].
      assert (n = 0) as -> by lia.
      rewrite backoffs_skeleton, Hsk. simpl. split; [done|]. by intros _.
    + assert (exists n', n = S n') as (n' & ->) by (exists (pred n); lia).
      assert (Hb1 : backoffs tr1 = [backoff_delay (Z.of_nat i)]).
      { by rewrite backoffs_skeleton, Hsk. }
      cbn [pred]. rewrite (attempts_from_S i n'), fmap_cons.
      destruct Ho1 as [-> |(-> & Hw)].
      2:{ intros [= <- <-]. exists tr1, st1. split; [done|]. split; [done|].
          rewrite Hb1. split; [by apply prefix_cons, prefix_nil|]. done. }
      run_pure. intros Hrest.
      assert (HN' : Z.of_nat (S i + S n') = N) by lia.
      destruct (IH (S i) m1 m' o r st1 HN' Hr1 Hst1 (or_intror Hs1) Hrest)
        as (tr2 & st2 & Htr2 & Hst2 & Hpre & Ho).
      cbn [pred] in Hpre.
      exists (tr1 ++ tr2), st2. split; [by rewrite Htr2, Htr1, app_assoc|].
      split; [done|]. rewrite backoffs_app, Hb1.
      split; [by apply prefix_cons|].
      destruct o as [[res|]|e].
      * destruct Ho as (Hs2 & tr3 & tr4 & chunks & -> & Hsk3 & Herr3 & Hk & Hq4 & Hf4
                        & Htext & Hresp & Hn4 & Hlast4).
        split; [done|].
        exists (tr1 ++ tr3), tr4, chunks.
        rewrite requests_app, errors_logged_app, skeleton_app, !length_app,
                Hreq1, Herr, Hsk, Hsk3.
        cbn [length Nat.add]. rewrite attempts_from_S, retry_schedule_cons.
        rewrite <- app_assoc.
        repeat split; auto; try lia.
        rewrite <- Hresp. f_equal. lia.
      * done.
      * intros Hexc2. destruct (Ho Hexc2) as (Hs2 & Hb2). split; [done|].
        by rewrite Hb2.
Qed.
End ends.

Lemma attempts_from_pred (N : Z) :
  attempts_from 0 (pred (Z.to_nat N)) = range (N - 1).
Proof. unfold range, attempts_from. do 2 f_equal. lia. Qed.

Lemma sum_list_app (l1 l2 : list Z) : sum_list (l1 ++ l2) = (sum_list l1 + sum_list l2)%Z.
Proof. induction l1 as [|x l1 IH]; simpl in *; lia. Qed.

Lemma backoff_delay_bounds (a : Z) : (0 <= backoff_delay a <= 10)%Z.
Proof.
  unfold backoff_delay. pose proof (Z.pow_nonneg 2 a). lia.
Qed.

Lemma sum_backoff_delays (l : list Z) :
  (0 <= sum_list (backoff_delay <$> l) <= 10 * Z.of_nat (length l))%Z.
Proof.
  induction l as [|a l IH]; [simpl; lia|].
  rewrite fmap_cons. pose proof (backoff_delay_bounds a).
  cbn [sum_list foldr length]. unfold sum_list in IH. lia.
Qed.

Section generate_ends.
Context (E : env) (self : StreamingCodeGenerator) (prompt : string)
        (cb : callback_t) (N : Z) (pcb : option progress_callback_t).

Local Abbreviation req := (the_request self prompt).

Lemma generate_ends m m' o :
  run E (generate_code_with_explanation self prompt cb N pcb) m = (m', o) ->
  exists tr st',
    trace m' = trace m ++ tr /\
    objs (store m') !! length (objs (store m)) = Some st' /\
    backoffs tr `prefix_of` (backoff_delay <$> range (N - 1)) /\
    match o with
    | Returned (Some res) =>
        status st' = COMPLETED /\
        exists tr1 tr2 chunks,
          tr = tr1 ++ EvRequest req :: tr2 /\
          skeleton tr1 = retry_schedule (attempts_from 0 (length (requests tr1))) /\
          length (errors_logged tr1) = length (requests tr1) /\
          length (requests tr1) < Z.to_nat N /\
          Forall quiet tr2 /\
          fragments tr2 = texts chunks /\ text res = join (texts chunks) /\
          service E req (n_requests m + length (requests tr1)) = inr (stream_of chunks) /\
          n_requests m' = n_requests m + S (length (requests tr1)) /\
          shown_last pcb tr2 (length chunks) st'
    | Returned None => (N <= 0)%Z
    | Raised e =>
        is_Exception e = true ->
        status st' = ERROR /\ backoffs tr = backoff_delay <$> range (N - 1)
    end.
Proof.
  unfold generate_code_with_explanation. rewrite run_bind, run_init_stats. run_pure.
  set (m0 := write (store_at_start E m) (ticked m)).
  set (r := length (objs (store m))).
  rewrite range_attempts. intros Hrun.
  assert (Hr : self_stats (store m0) = Some r) by done.
  assert (Hst : objs (store m0) !! r = Some (new_StreamStats (clock E (n_clock m)))).
  { simpl. by apply list_lookup_middle. }
  assert (HN : Z.of_nat (0 + Z.to_nat N) = N \/ (N <= 0)%Z) by lia.
  destruct HN as [HN|HN].
  - destruct (for_attempt_in_ends E self prompt cb N pcb _ 0 m0 m' o r _
                HN Hr Hst (or_introl eq_refl) Hrun)
      as (tr & st' & Htr & Hst' & Hpre & Ho).
    rewrite attempts_from_pred in Hpre, Ho.
    exists tr, st'. split; [done|]. split; [done|]. split; [done|].
    destruct o as [[res|]|e]; [done| lia |done].
  - revert Hrun. replace (Z.to_nat N) with 0 by lia. simpl.
    intros [= <- <-]. exists [], (new_StreamStats (clock E (n_clock m))).
    rewrite app_nil_r. split; [done|]. split; [done|]. split; [apply prefix_nil|done].
Qed.
End generate_ends.

(** ** What [format_chunk] returns and logs *)

(** X1. When the path [chunk.choices[0].delta.content] exists and holds a
    string, [format_chunk] returns that string, as it is, logs nothing and
    changes nothing. *)
Theorem format_chunk_returns_content (E : env) (chunk : Chunk) (s : string) (m : machine) :
  content_path chunk = Some (Val s) ->
  run E (format_chunk chunk) m = (m, Returned s).
Proof.
  destruct chunk as [ty [| |[|[cty [| |[dty c]]] l]]]; try done.
  unfold content_path. simpl. intros [= ->].
  unfold format_chunk. simpl. by destruct s.
Qed.

Lemma format_chunk_returns_content_witness :
  run (calm (fun _ => inr SEnd)) (format_chunk (text_chunk "test")) machine0
  = (machine0, Returned "test").
Proof.
  apply (format_chunk_returns_content (calm (fun _ => inr SEnd)) (text_chunk "test")
           "test" machine0).
  reflexivity.
Defined.

(** X2. [format_chunk] logs a warning exactly when the evaluation of
    [chunk.choices[0].delta] raises ([choices] missing, [None] or empty,
    [delta] missing): one warning, ["Error formatting chunk: "] followed by
    the message of that exception, and the result is the empty string.
    When it does not raise, a [delta] that is [None] or has no [content]
    included, nothing is logged. *)
Theorem format_chunk_warns (E : env) (chunk : Chunk) (m : machine) :
  run E (format_chunk chunk) m =
  match snd (run E (first_delta chunk) m) with
  | Raised e =>
      (record (EvLog WARNING ("Error formatting chunk: " +:+ str e)) m, Returned "")
  | Returned _ => (m, Returned (fragment_of chunk))
  end.
Proof.
  destruct chunk as [ty [| |[|[cty [| |[dty [| |s]]]] l]]]; try reflexivity.
  unfold format_chunk, fragment_of, content_path. simpl. by destruct s.
Qed.

(** ** [handle_stream] before [self.stats] is set *)

Lemma run_stats_get_unset {X : Type} (E : env) name (f : StreamStats -> X) m :
  current_stats (store m) = None ->
  run E (stats_get name f) m = (m, Raised (no_attribute "NoneType" name)).
Proof. intros H. simpl. by rewrite H. Qed.

Lemma run_stats_update_unset (E : env) name f m :
  current_stats (store m) = None ->
  run E (stats_update name f) m = (m, Raised (no_attribute "NoneType" name)).
Proof. intros H. simpl. rewrite H. by destruct (self_stats (store m)). Qed.

Lemma for_body_unset (E : env) cb pcb chunk full m m' o :
  current_stats (store m) = None ->
  run E (for_body cb pcb chunk full) m = (m', o) ->
  store m' = store m /\ fragments (trace m') = fragments (trace m) /\
  (cancelled_at E (n_polls m) = false -> truthy (fragment_of chunk) = true ->
   o = Raised (no_attribute "NoneType" "chunks_processed")).
Proof.
  intros Hnone. unfold for_body. run_pure.
  destruct (cancelled_at E (n_polls m)) eqn:Hc; run_pure.
  { by intros [= <- <-]. }
  destruct (format_chunk_run E chunk (polled m)) as (evs & Hw & ->). run_pure.
  destruct (warnings_silent evs Hw) as (Hf & _).
  assert (Hfr : fragments (trace (records evs (polled m))) = fragments (trace m)).
  { simpl. by rewrite fragments_app, Hf, app_nil_r. }
  destruct (truthy (fragment_of chunk)) eqn:Ht; run_pure.
  - rewrite run_stats_get_unset by done. run_pure. by intros [= <- <-].
  - destruct pcb as [p|]; unfold notify_if; run_pure.
    + destruct (p _); intros [= <- <-]; simpl;
        rewrite !fragments_app, Hf; simpl; by rewrite !app_nil_r.
    + by intros [= <- <-].
Qed.

(** The loop of [handle_stream] when [self.stats] is [None]: nothing is
    delivered, and a first chunk that carries text raises. *)
Lemma for_chunk_in_unset (E : env) cb pcb s : forall full m m' o,
  current_stats (store m) = None ->
  run E (for_chunk_in cb pcb s full) m = (m', o) ->
  store m' = store m /\ fragments (trace m') = fragments (trace m) /\
  (s = SEnd -> n_sleeps m' = n_sleeps m) /\
  (forall chunk rest,
     s = SYield chunk rest ->
     cancelled_at E (n_polls m) = false -> truthy (fragment_of chunk) = true ->
     o = Raised (no_attribute "NoneType" "chunks_processed")).
Proof.
  induction s as [|e0|chunk rest IH]; intros full m m' o Hnone.
  - simpl. by intros [= <- <-].
  - simpl. by intros [= <- <-].
  - cbn [for_chunk_in]. rewrite run_bind.
    destruct (run E (for_body cb pcb chunk full) m) as [m1 o1] eqn:Hbody.
    destruct (for_body_unset E cb pcb chunk full m m1 o1 Hnone Hbody)
      as (Hs1 & Hf1 & Ho1).
    destruct o1 as [full1|e1].
    + intros Hrest.
      assert (Hnone1 : current_stats (store m1) = None) by (by rewrite Hs1).
      destruct (IH full1 m1 m' o Hnone1 Hrest) as (Hs2 & Hf2 & _).
      split; [congruence|]. split; [congruence|]. split; [done|].
      intros chunk' rest' [= <- <-] Hc Ht. by specialize (Ho1 Hc Ht).
    + intros [= <- <-]. split; [done|]. split; [done|]. split; [done|].
      intros chunk' rest' [= <- <-]. exact Ho1.
Qed.

(** X3. [handle_stream] needs the [StreamStats] that
    [generate_code_with_explanation] makes: on a generator just
    constructed, whose [stats] is [None], it never returns and never calls
    the chunk callback, whatever the stream. A first chunk that carries
    text makes it raise the [StreamProcessError] of the [AttributeError]
    on [chunks_processed]; on a stream without chunks the assignment of
    the status, which is outside the [try], raises the [AttributeError]
    itself. *)
Theorem handle_stream_needs_stats (E : env) api_key model timeout chunk_size
    cb pcb s m m0 self m' o :
  run E (new_StreamingCodeGenerator api_key model timeout chunk_size) m
    = (m0, Returned self) ->
  run E (handle_stream cb pcb s) m0 = (m', o) ->
  exists e,
    o = Raised e /\
    fragments (trace m') = fragments (trace m) /\
    current_stats (store m') = None /\
    (forall chunk rest,
       s = SYield chunk rest ->
       cancelled_at E (n_polls m) = false -> truthy (fragment_of chunk) = true ->
       e = mk_exn StreamProcessError
             "Error processing stream: 'NoneType' object has no attribute 'chunks_processed'") /\
    (s = SEnd -> cancel_wakeup E (n_sleeps m) = false ->
     e = mk_exn AttributeError "'NoneType' object has no attribute 'status'").
Proof.
  simpl. intros [= <- <-].
  set (m0 := write _ m).
  assert (Hnone : current_stats (store m0) = None) by done.
  unfold handle_stream, consume.
  rewrite run_bind, run_try_except, run_bind.
  destruct (run E (for_chunk_in cb pcb s "") m0) as [m1 o1] eqn:Hloop.
  destruct (for_chunk_in_unset E cb pcb s "" m0 m1 o1 Hnone Hloop)
    as (Hs1 & Hf1 & Hend & Htext).
  assert (Hnone1 : current_stats (store m1) = None) by (by rewrite Hs1).
  destruct o1 as [full|e1]; run_pure.
  - assert (Hno : forall chunk rest,
              s = SYield chunk rest -> cancelled_at E (n_polls m) = false ->
              truthy (fragment_of chunk) = true -> False).
    { intros chunk rest Hs Hc Ht. by specialize (Htext chunk rest Hs Hc Ht). }
    destruct (cancel_wakeup E (n_sleeps m1)) eqn:Hw; run_pure.
    + simpl. run_pure. intros [= <- <-]. eexists. split; [done|]. simpl.
      rewrite !fragments_app, Hf1. simpl. rewrite !app_nil_r.
      repeat split; auto.
      * intros chunk rest Hs Hc Ht. destruct (Hno chunk rest Hs Hc Ht).
      * intros Hs Hw0. rewrite (Hend Hs) in Hw. simpl in Hw. congruence.
    + rewrite run_stats_update_unset by done.
      intros [= <- <-]. eexists. split; [done|]. simpl.
      rewrite !fragments_app, Hf1. simpl. rewrite !app_nil_r.
      repeat split; auto.
      intros chunk rest Hs Hc Ht. destruct (Hno chunk rest Hs Hc Ht).
  - assert (Hends : s = SEnd -> False).
    { intros ->. by simpl in Hloop. }
    destruct (is_CancelledError e1) eqn:Hcancel; run_pure.
    + intros [= <- <-]. eexists. split; [done|]. simpl.
      rewrite !fragments_app, Hf1. simpl. rewrite !app_nil_r.
      repeat split; auto.
      * intros chunk rest Hs Hc Ht.
        specialize (Htext chunk rest Hs Hc Ht). injection Htext as ->. done.
      * intros Hs. destruct (Hends Hs).
    + intros [= <- <-]. eexists. split; [done|].
      repeat split; auto.
      * intros chunk rest Hs Hc Ht.
        specialize (Htext chunk rest Hs Hc Ht). by injection Htext as ->.
      * intros Hs. destruct (Hends Hs).
Qed.

Lemma handle_stream_needs_stats_witness :
  let E := calm (fun _ => inr SEnd) in
  let m0 := fst (run E (new_StreamingCodeGenerator "sk-test" "gpt-3.5-turbo" 60 1024)
                   machine0) in
  let m' := fst (run E (handle_stream silent None (stream_of [text_chunk "test"])) m0) in
  run E (handle_stream silent None (stream_of [text_chunk "test"])) m0
  = (m', Raised (mk_exn StreamProcessError
       "Error processing stream: 'NoneType' object has no attribute 'chunks_processed'")).
Proof.
  intros E m0 m'.
  destruct (handle_stream_needs_stats E "sk-test" "gpt-3.5-turbo" 60 1024 silent None
              (stream_of [text_chunk "test"]) machine0 m0 generator m'
              (snd (run E (handle_stream silent None (stream_of [text_chunk "test"])) m0)))
    as (e & He & _ & _ & Htext & _).
  - reflexivity.
  - vm_compute. reflexivity.
  - rewrite (Htext (text_chunk "test") SEnd) in He by reflexivity.
    rewrite <- He. vm_compute. reflexivity.
Defined.

(** ** The words of a fragment *)

Lemma split_from_word (s : string) : forall a w, split_from (String a w) s <> [].
Proof.
  induction s as [|c s IH]; intros a w; simpl; [done|].
  destruct (isspace c); [done|]. apply IH.
Qed.

Lemma split_blank (s : string) : split s = [] <-> blank s = true.
Proof.
  unfold split. induction s as [|c s IH]; simpl; [done|].
  destruct (isspace c); simpl; [exact IH|].
  split; [|done]. intros H. by apply split_from_word in H.
Qed.

Lemma word_count_blank (s : string) : word_count s = 0%Z <-> blank s = true.
Proof.
  unfold word_count. rewrite <- split_blank.
  destruct (split s); simpl; split; intros H; try done; lia.
Qed.

Lemma word_count_nonneg (s : string) : (0 <= word_count s)%Z.
Proof. unfold word_count. lia. Qed.

Lemma sum_list_nonneg (l : list Z) :
  Forall (fun x => (0 <= x)%Z) l -> (0 <= sum_list l)%Z.
Proof. induction 1; simpl in *; lia. Qed.

Lemma sum_list_cons (x : Z) (l : list Z) : sum_list (x :: l) = (x + sum_list l)%Z.
Proof. reflexivity. Qed.

Lemma no_words (chunks : list Chunk) :
  sum_list (word_count <$> texts chunks) = 0%Z <->
  Forall (fun c => blank (fragment_of c) = true) chunks.
Proof.
  induction chunks as [|c chunks IH]; [simpl; split; [constructor|done]|].
  rewrite texts_cons, Forall_cons.
  assert (Hnn : (0 <= sum_list (word_count <$> texts chunks))%Z).
  { apply sum_list_nonneg, Forall_fmap, Forall_forall.
    intros f _. apply word_count_nonneg. }
  destruct (truthy (fragment_of c)) eqn:Ht.
  - rewrite fmap_cons, sum_list_cons.
    pose proof (word_count_nonneg (fragment_of c)).
    rewrite <- IH, <- word_count_blank. lia.
  - rewrite (truthy_false _ Ht). simpl. rewrite IH. tauto.
Qed.

(** X4. [total_tokens] counts the words separated by whitespace, so a
    fragment made of whitespace only is delivered and counted as a chunk
    but adds no token: when [handle_stream] returns, [total_tokens] is what
    it was at entry exactly when the text of every chunk is empty or
    whitespace, while [chunks_processed] has grown by the number of
    fragments delivered. *)
Theorem blank_fragments_carry_no_token (E : env) cb pcb chunks m m' text st :
  current_stats (store m) = Some st ->
  run E (handle_stream cb pcb (stream_of chunks)) m = (m', Returned text) ->
  exists st',
    current_stats (store m') = Some st' /\
    chunks_processed st' = (chunks_processed st + Z.of_nat (length (texts chunks)))%Z /\
    (total_tokens st' = total_tokens st <->
     Forall (fun c => blank (fragment_of c) = true) chunks).
Proof.
  intros Hcur Hrun.
  destruct (current_stats_inv _ _ Hcur) as (r & Hr & Hst).
  destruct (handle_stream_spec E cb pcb _ m m' _ r st Hr Hst Hrun) as (Hstay & Ho).
  destruct Ho as (chunks' & tr & st' & Heq & _ & _ & _ & _ & _ & _ & Hst' & Hn & Ht & _).
  apply stream_of_inj in Heq as <-.
  exists st'. split.
  { apply (current_stats_refers r); [|done].
    eapply stays_refers; [|exact Hstay]. split; eauto. }
  split; [done|]. rewrite <- no_words, Ht. lia.
Qed.

Lemma blank_fragments_carry_no_token_witness :
  let m' := fst (run (calm (fun _ => inr SEnd))
                   (handle_stream silent None (stream_of [text_chunk " "; text_chunk ""]))
                   machine1) in
  exists st',
    current_stats (store m') = Some st' /\
    chunks_processed st' = (0 + Z.of_nat (length (texts [text_chunk " "; text_chunk ""])))%Z /\
    (total_tokens st' = 0%Z <->
     Forall (fun c => blank (fragment_of c) = true) [text_chunk " "; text_chunk ""]).
Proof.
  intros m'.
  apply (blank_fragments_carry_no_token (calm (fun _ => inr SEnd)) silent None
           [text_chunk " "; text_chunk ""] machine1 m' " " (new_StreamStats 0%Z)).
  - reflexivity.
  - vm_compute. reflexivity.
Defined.

(** ** Cancellation at the pause of [handle_stream] *)

(** X5. A cancellation that wakes the pause after the last chunk: when
    the loop over the stream has run to its end and the sleep of 0.01 s is
    woken by a cancellation, [handle_stream] logs the warning and raises
    the [CancelledError]; the text accumulated is not returned, although
    every fragment has been delivered, the status is not set to
    [COMPLETED] and the progress callback is not called a last time. *)
Theorem cancelled_at_the_pause (E : env) cb pcb s m m1 full :
  run E (for_chunk_in cb pcb s "") m = (m1, Returned full) ->
  cancel_wakeup E (n_sleeps m1) = true ->
  run E (handle_stream cb pcb s) m =
  (record (EvLog WARNING "Stream processing cancelled") (slept Hundredth m1),
   Raised (mk_exn CancelledError "")).
Proof.
  intros Hloop Hwake. unfold handle_stream, consume.
  rewrite run_bind, run_try_except, run_bind, Hloop. run_pure.
  rewrite Hwake. run_pure. reflexivity.
Qed.

Lemma cancelled_at_the_pause_witness :
  let E := mk_env (fun _ _ => inr SEnd) (fun _ => false) (fun _ => true) Z.of_nat in
  let m1 := fst (run E (for_chunk_in silent watching (stream_of add_chunks) "") machine1) in
  run E (handle_stream silent watching (stream_of add_chunks)) machine1 =
  (record (EvLog WARNING "Stream processing cancelled") (slept Hundredth m1),
   Raised (mk_exn CancelledError "")).
Proof.
  intros E m1.
  apply (cancelled_at_the_pause E silent watching (stream_of add_chunks) machine1 m1
           "def add(aOkay, c... urn a+b").
  - vm_compute. reflexivity.
  - reflexivity.
Defined.

(** ** The last call of the progress callback *)

(** X6. The last call of the progress callback is outside the [try] of
    [handle_stream]: when the loop over the stream has run to its end, the
    pause is not cancelled and the progress callback raises [e] when shown
    the completed statistics, [handle_stream] raises [e] itself, not a
    [StreamProcessError] made of it, after the status has been set to
    [COMPLETED]. *)
Theorem last_progress_error_is_not_wrapped (E : env) cb p s m m1 full st1 e :
  run E (for_chunk_in cb (Some p) s "") m = (m1, Returned full) ->
  cancel_wakeup E (n_sleeps m1) = false ->
  current_stats (store m1) = Some st1 ->
  p (Some (set_status COMPLETED st1)) = Some e ->
  exists m',
    run E (handle_stream cb (Some p) s) m = (m', Raised e) /\
    current_stats (store m') = Some (set_status COMPLETED st1) /\
    snapshots (trace m') = snapshots (trace m1) ++ [Some (set_status COMPLETED st1)].
Proof.
  intros Hloop Hwake Hcur Hp.
  destruct (current_stats_inv _ _ Hcur) as (r & Hr & Hst).
  unfold handle_stream, consume.
  rewrite run_bind, run_try_except, run_bind, Hloop. run_pure.
  rewrite Hwake. run_pure.
  rewrite (run_stats_update E _ _ (slept Hundredth m1) r st1) by done. run_pure.
  set (st2 := set_status COMPLETED st1).
  set (m2 := updated r st2 (slept Hundredth m1)).
  assert (Hcur2 : current_stats (store m2) = Some st2).
  { apply (current_stats_refers r); [done|]. simpl. eauto using lookup_updated. }
  unfold notify_if. run_pure. rewrite Hcur2. subst st2. rewrite Hp.
  eexists. split; [reflexivity|]. split; [exact Hcur2|]. subst m2.
  simpl. rewrite !snapshots_app. simpl. by rewrite app_nil_r.
Qed.

Lemma last_progress_error_is_not_wrapped_witness :
  exists m',
    run (calm (fun _ => inr SEnd)) (handle_stream silent raising (stream_of [])) machine1
      = (m', Raised (mk_exn (OtherException "RuntimeError") "observer failed")) /\
    current_stats (store m') = Some (set_status COMPLETED (new_StreamStats 0%Z)) /\
    snapshots (trace m') =
      snapshots (trace machine1) ++ [Some (set_status COMPLETED (new_StreamStats 0%Z))].
Proof.
  apply (last_progress_error_is_not_wrapped (calm (fun _ => inr SEnd)) silent
           (fun _ => Some (mk_exn (OtherException "RuntimeError") "observer failed"))
           (stream_of []) machine1 machine1 "" (new_StreamStats 0%Z)
           (mk_exn (OtherException "RuntimeError") "observer failed")).
  - reflexivity.
  - reflexivity.
  - reflexivity.
  - reflexivity.
Defined.

(** ** The counters and the callbacks over a whole call *)

(** X7. In every run of [generate_code_with_explanation], however it ends
    (a result, an [APIError] after the retries, a cancellation), the
    object the call made and left in [self.stats] has counted exactly the
    calls of the chunk callback made during the call, over all attempts,
    and the words of the fragments it was given. *)
Theorem deliveries_are_counted (E : env) self prompt cb N pcb m m' o :
  run E (generate_code_with_explanation self prompt cb N pcb) m = (m', o) ->
  exists tr s',
    trace m' = trace m ++ tr /\
    current_stats (store m') = Some s' /\
    chunks_processed s' = Z.of_nat (length (fragments tr)) /\
    total_tokens s' = sum_list (word_count <$> fragments tr).
Proof.
  intros Hrun.
  destruct (generate_accounts E self prompt cb N pcb m m' o Hrun) as (tr & H & _).
  destruct H as (Htr & Hr & _ & _ & s & s' & Hs & Hs' & _ & Hc & Hk & _).
  simpl in Hs. rewrite list_lookup_middle in Hs by done. injection Hs as <-.
  exists tr, s'. split; [done|]. split; [by apply (current_stats_refers _ _ _ Hr)|].
  split; [exact Hc|exact Hk].
Qed.

Lemma deliveries_are_counted_witness :
  let m' := fst (run (calm failing_service)
                   (generate_code_with_explanation generator "add two numbers"
                      silent 3 watching) machine0) in
  exists tr s',
    trace m' = trace machine0 ++ tr /\
    current_stats (store m') = Some s' /\
    chunks_processed s' = Z.of_nat (length (fragments tr)) /\
    total_tokens s' = sum_list (word_count <$> fragments tr).
Proof.
  intros m'.
  apply (deliveries_are_counted (calm failing_service) generator "add two numbers"
           silent 3 watching machine0 m'
           (Raised (mk_exn APIError "Failed after 3 attempts: Request timed out."))).
  vm_compute. reflexivity.
Defined.

(** X8. In every run of a call, each call of the progress callback is
    given the object of the call, never [None], with the status
    [PROCESSING] or [COMPLETED], and with counters that are those of the
    deliveries made before it: [chunks_processed] is the number of calls of
    the chunk callback so far, [total_tokens] the number of their words. *)
Theorem progress_sees_the_count (E : env) self prompt cb N pcb m m' o :
  run E (generate_code_with_explanation self prompt cb N pcb) m = (m', o) ->
  exists tr,
    trace m' = trace m ++ tr /\
    audit 0 0 tr = true /\
    Forall in_progress (snapshots tr).
Proof.
  intros Hrun.
  destruct (generate_counts E self prompt cb N pcb m m' o Hrun)
    as (tr & s' & Htr & _ & _ & _ & _ & Ha & Hp).
  by exists tr.
Qed.

Lemma progress_sees_the_count_witness :
  let m' := fst (run (calm retry_service)
                   (generate_code_with_explanation generator "add two numbers"
                      silent 3 watching) machine0) in
  exists tr,
    trace m' = trace machine0 ++ tr /\
    audit 0 0 tr = true /\
    Forall in_progress (snapshots tr).
Proof.
  intros m'.
  apply (progress_sees_the_count (calm retry_service) generator "add two numbers"
           silent 3 watching machine0 m'
           (Returned (Some (mk_result "b" (Some 0) 1%Z)))).
  vm_compute. reflexivity.
Defined.

(** X9. A call leaves the objects made by earlier calls as they are: the
    statistics of a result returned by a call on a generator are the same
    after a later call on that generator, which starts after the first
    has returned, whatever that later call does; and the later call returns
    another object. *)
Theorem earlier_results_untouched (E : env) self
    prompt1 cb1 N1 pcb1 prompt2 cb2 N2 pcb2 m m1 m2 res1 o2 :
  run E (generate_code_with_explanation self prompt1 cb1 N1 pcb1) m
    = (m1, Returned (Some res1)) ->
  run E (generate_code_with_explanation self prompt2 cb2 N2 pcb2) m1 = (m2, o2) ->
  is_Some (stats_of m1 res1) /\
  stats_of m2 res1 = stats_of m1 res1 /\
  match o2 with
  | Returned (Some res2) => stats res2 <> stats res1
  | _ => True
  end.
Proof.
  intros Hrun1 Hrun2.
  destruct (generate_spec E self prompt1 cb1 N1 pcb1 m m1 _ Hrun1)
    as (_ & _ & _ & _ & _ & _ & _ & Hres1 & (st1 & Hst1 & _) & _).
  set (r1 := length (objs (store m))) in *.
  assert (Hlt : r1 < length (objs (store m1))) by (by eapply lookup_lt_Some).
  destruct (generate_accounts E self prompt2 cb2 N2 pcb2 m1 m2 o2 Hrun2)
    as (tr & (_ & _ & _ & Hothers & _) & _).
  unfold stats_of. rewrite Hres1. simpl.
  split; [by exists st1|]. split.
  - rewrite Hothers by lia. simpl. by apply lookup_app_l.
  - destruct o2 as [[res2|]|e]; [|done|done].
    destruct (generate_spec E self prompt2 cb2 N2 pcb2 m1 m2 _ Hrun2)
      as (_ & _ & _ & _ & _ & _ & _ & Hres2 & _).
    rewrite Hres2. intros [=]. lia.
Qed.

Lemma earlier_results_untouched_witness :
  let E := calm two_streams in
  let first := run E (generate_code_with_explanation generator "first" silent 3 None)
                   machine0 in
  let second := run E (generate_code_with_explanation generator "second" silent 3 None)
                    (fst first) in
  stats_of (fst second) (mk_result "x y z" (Some 0) 1%Z)
  = Some (mk_StreamStats 0%Z 1%Z 3%Z COMPLETED).
Proof.
  intros E first second.
  destruct (earlier_results_untouched E generator "first" silent 3 None
              "second" silent 3 None machine0 (fst first) (fst second)
              (mk_result "x y z" (Some 0) 1%Z) (snd second))
    as (_ & -> & _).
  - vm_compute. reflexivity.
  - vm_compute. reflexivity.
  - vm_compute. reflexivity.
Defined.

(** X10. The clock is read twice in a call that returns a result, once when
    it starts and once when it returns, and not at all by the attempts that
    fail: [completion_time] is the second reading less the first, so it
    spans the failed attempts and the delays between them; a call that
    does not return a result reads the clock once. *)
Theorem completion_time_spans_the_call (E : env) self prompt cb N pcb m m' o :
  run E (generate_code_with_explanation self prompt cb N pcb) m = (m', o) ->
  match o with
  | Returned (Some res) =>
      completion_time res = (clock E (S (n_clock m)) - clock E (n_clock m))%Z /\
      n_clock m' = S (S (n_clock m)) /\
      (start_time <$> stats_of m' res) = Some (clock E (n_clock m))
  | _ => n_clock m' = S (n_clock m)
  end.
Proof.
  intros Hrun.
  destruct (generate_accounts E self prompt cb N pcb m m' o Hrun) as (tr & H & _ & Hc).
  destruct o as [[res|]|e]; try exact Hc.
  destruct Hc as (Hn & Ht). split; [exact Ht|]. split; [exact Hn|].
  destruct (generate_spec E self prompt cb N pcb m m' _ Hrun)
    as (_ & _ & _ & _ & _ & _ & _ & Hres & _).
  destruct H as (_ & _ & _ & _ & s & s' & Hs & Hs' & Hstart & _).
  simpl in Hs. rewrite list_lookup_middle in Hs by done. injection Hs as <-.
  unfold stats_of. rewrite Hres. simpl. rewrite Hs'. simpl. by rewrite Hstart.
Qed.

Lemma completion_time_spans_the_call_witness :
  exists m',
    run (calm retry_service)
        (generate_code_with_explanation generator "add two numbers" silent 3 None)
        machine0 = (m', Returned (Some (mk_result "b" (Some 0) 1%Z))) /\
    n_clock m' = 2.
Proof.
  pose proof (completion_time_spans_the_call (calm retry_service) generator
                "add two numbers" silent 3 None machine0
                (fst (run (calm retry_service)
                        (generate_code_with_explanation generator "add two numbers"
                           silent 3 None) machine0))
                (Returned (Some (mk_result "b" (Some 0) 1%Z)))) as H.
  eexists. split; [vm_compute; reflexivity|].
  apply H. vm_compute. reflexivity.
Defined.

(** ** The end of a call *)

(** X11. When a call returns a result, it does so on the first attempt
    that succeeds and makes no attempt after it: with [k] the number of the
    attempts before it, each of them logged one failure and was followed by
    its delay, the request of the result is the one numbered [k], its
    stream was consumed to its end, and the text returned is the
    concatenation of the fragments the chunk callback was given during that
    attempt alone, although the callback was also given the fragments of
    the attempts that failed. *)
Theorem result_is_last_attempt (E : env) self prompt cb N pcb m m' res :
  run E (generate_code_with_explanation self prompt cb N pcb) m
    = (m', Returned (Some res)) ->
  exists tr1 tr2 chunks,
    let k := length (requests tr1) in
    trace m' = trace m ++ tr1 ++ EvRequest (the_request self prompt) :: tr2 /\
    k < Z.to_nat N /\
    skeleton tr1 = retry_schedule (attempts_from 0 k) /\
    length (errors_logged tr1) = k /\
    requests tr2 = [] /\ errors_logged tr2 = [] /\ skeleton tr2 = [] /\
    service E (the_request self prompt) (n_requests m + k) = inr (stream_of chunks) /\
    n_requests m' = n_requests m + S k /\
    fragments tr2 = texts chunks /\
    text res = join (fragments tr2).
Proof.
  intros Hrun.
  destruct (generate_ends E self prompt cb N pcb m m' _ Hrun)
    as (tr & st' & Htr & _ & _ & _ & tr1 & tr2 & chunks & -> & Hsk & Herr & Hk & Hq
        & Hf & Htext & Hresp & Hn & _).
  destruct (quiet_silent tr2 Hq) as (Hreq2 & Herr2 & Hsk2).
  exists tr1, tr2, chunks. simpl. rewrite Hf. repeat split; auto.
Qed.

Lemma result_is_last_attempt_witness :
  let m' := fst (run (calm retry_service)
                   (generate_code_with_explanation generator "add two numbers"
                      silent 3 None) machine0) in
  exists tr1 tr2 chunks,
    let k := length (requests tr1) in
    trace m' = trace machine0 ++ tr1 ++
               EvRequest (the_request generator "add two numbers") :: tr2 /\
    k < Z.to_nat 3 /\
    skeleton tr1 = retry_schedule (attempts_from 0 k) /\
    length (errors_logged tr1) = k /\
    requests tr2 = [] /\ errors_logged tr2 = [] /\ skeleton tr2 = [] /\
    service (calm retry_service) (the_request generator "add two numbers")
            (n_requests machine0 + k) = inr (stream_of chunks) /\
    n_requests m' = n_requests machine0 + S k /\
    fragments tr2 = texts chunks /\
    "b" = join (fragments tr2).
Proof.
  intros m'.
  apply (result_is_last_attempt (calm retry_service) generator "add two numbers"
           silent 3 None machine0 m' (mk_result "b" (Some 0) 1%Z)).
  vm_compute. reflexivity.
Defined.

(** X12. In every run of a call the delays of the backoff sleeps are, in
    order, [min(2^0, 10)], [min(2^1, 10)], ... for the attempts but the
    last: there are at most [max_retries - 1] of them, none after the last
    attempt, and they add up to at most [10 * (max_retries - 1)]
    seconds. *)
Theorem backoff_total (E : env) self prompt cb N pcb m m' o :
  run E (generate_code_with_explanation self prompt cb N pcb) m = (m', o) ->
  exists tr,
    trace m' = trace m ++ tr /\
    backoffs tr `prefix_of` (backoff_delay <$> range (N - 1)) /\
    length (backoffs tr) <= Z.to_nat (N - 1) /\
    (sum_list (backoffs tr) <= sum_list (backoff_delay <$> range (N - 1))
                            <= 10 * Z.max 0 (N - 1))%Z.
Proof.
  intros Hrun.
  destruct (generate_ends E self prompt cb N pcb m m' _ Hrun)
    as (tr & st' & Htr & _ & Hpre & _).
  exists tr. split; [done|]. split; [done|].
  pose proof (prefix_length _ _ Hpre) as Hlen.
  rewrite length_fmap in Hlen. unfold range in Hlen at 1.
  rewrite length_fmap, length_seq in Hlen. split; [done|].
  destruct Hpre as (rest & Heq).
  pose proof (sum_backoff_delays (range (N - 1))) as Hall.
  unfold range in Hall at 3. rewrite length_fmap, length_seq in Hall.
  assert (Hrest : (0 <= sum_list rest)%Z).
  { assert (Hnn : Forall (fun d => (0 <= d)%Z) (backoff_delay <$> range (N - 1))).
    { apply Forall_fmap, Forall_forall. intros a _. apply backoff_delay_bounds. }
    rewrite Heq in Hnn. apply Forall_app in Hnn as [_ Hnn].
    clear -Hnn. induction Hnn; simpl in *; lia. }
  rewrite Heq in *. rewrite sum_list_app in *. lia.
Qed.

Lemma backoff_total_witness :
  let m' := fst (run (calm failing_service)
                   (generate_code_with_explanation generator "add two numbers"
                      silent 3 watching) machine0) in
  exists tr,
    trace m' = trace machine0 ++ tr /\
    backoffs tr `prefix_of` (backoff_delay <$> range (3 - 1)) /\
    length (backoffs tr) <= Z.to_nat (3 - 1) /\
    (sum_list (backoffs tr) <= sum_list (backoff_delay <$> range (3 - 1))
                            <= 10 * Z.max 0 (3 - 1))%Z.
Proof.
  intros m'.
  apply (backoff_total (calm failing_service) generator "add two numbers"
           silent 3 watching machine0 m'
           (Raised (mk_exn APIError "Failed after 3 attempts: Request timed out."))).
  vm_compute. reflexivity.
Defined.

(** X13. When a call raises an [Exception], which is then the [APIError]
    of the last attempt, the object of the call is left in [self.stats]
    with the status [ERROR], and the call has slept every delay of the
    schedule: [min(2^a, 10)] seconds after each attempt [a] but the
    last. *)
Theorem api_error_after_all_delays (E : env) self prompt cb N pcb m m' e :
  run E (generate_code_with_explanation self prompt cb N pcb) m = (m', Raised e) ->
  is_Exception e = true ->
  exists tr st',
    trace m' = trace m ++ tr /\
    current_stats (store m') = Some st' /\ status st' = ERROR /\
    exn_class_of e = APIError /\
    backoffs tr = backoff_delay <$> range (N - 1).
Proof.
  intros Hrun Hexc.
  destruct (generate_ends E self prompt cb N pcb m m' _ Hrun)
    as (tr & st' & Htr & Hst' & _ & Ho).
  destruct (Ho Hexc) as (Hs & Hb).
  destruct (generate_accounts E self prompt cb N pcb m m' _ Hrun)
    as (tr' & (_ & Hr & _) & _).
  exists tr, st'. split; [done|].
  split; [by apply (current_stats_refers _ _ _ Hr)|]. split; [done|].
  split; [|done].
  destruct (generate_spec E self prompt cb N pcb m m' _ Hrun)
    as (_ & _ & _ & _ & _ & _ & _ & [(Hc & _)|(msgs & e0 & _ & -> & _)]).
  - destruct (cancelled_not_exception _ Hc Hexc).
  - reflexivity.
Qed.

Lemma api_error_after_all_delays_witness :
  let m' := fst (run (calm failing_service)
                   (generate_code_with_explanation generator "add two numbers"
                      silent 3 watching) machine0) in
  exists tr st',
    trace m' = trace machine0 ++ tr /\
    current_stats (store m') = Some st' /\ status st' = ERROR /\
    exn_class_of (mk_exn APIError "Failed after 3 attempts: Request timed out.")
      = APIError /\
    backoffs tr = [1; 2]%Z.
Proof.
  intros m'.
  apply (api_error_after_all_delays (calm failing_service) generator "add two numbers"
           silent 3 watching machine0 m'
           (mk_exn APIError "Failed after 3 attempts: Request timed out.")).
  - vm_compute. reflexivity.
  - reflexivity.
Defined.

(** ** Retrying until an attempt succeeds *)

Lemma stream_of_never_raises (chunks : list Chunk) (e : exn) :
  ~ stream_raises (stream_of chunks) e.
Proof. induction chunks; simpl; auto. Qed.

Lemma undisturbed_no_cancellation E cb pcb :
  undisturbed E cb pcb -> no_cancellation E cb pcb.
Proof.
  intros (H1 & H2 & H3 & H4). repeat split; auto.
  - intros x e He. by rewrite H3 in He.
  - destruct pcb as [p|]; [|done]. intros x e He. by rewrite (H4 x) in He.
Qed.

(** Undisturbed, an attempt whose stream ends raises nothing. *)
Lemma attempt_undisturbed E cb pcb chunks e :
  undisturbed E cb pcb ->
  ~ raised_in_attempt E cb pcb (inr (stream_of chunks)) e.
Proof.
  intros (Hpoll & Hwake & Hcb & Hpcb) [[=]|(s & [= <-] & Hsrc)].
  assert (Hloop : forall e1, ~ raised_in_loop E cb pcb (stream_of chunks) e1).
  { intros e1 [(_ & k & Hk)|[(x & Hx)|[(p & x & -> & Hx)|Hs]]].
    - by rewrite Hpoll in Hk.
    - by rewrite Hcb in Hx.
    - by rewrite (Hpcb x) in Hx.
    - by apply stream_of_never_raises in Hs. }
  destruct Hsrc as [(e1 & Hsrc & _)|[(_ & [Hsrc|(_ & k & Hk)])|(p & x & -> & Hx)]].
  - by apply Hloop in Hsrc.
  - by apply Hloop in Hsrc.
  - by rewrite Hwake in Hk.
  - by rewrite (Hpcb x) in Hx.
Qed.

Lemma fails_not_ended (response : exn + stream) (chunks : list Chunk) :
  fails response -> response <> inr (stream_of chunks).
Proof.
  intros [(e & -> & _)|(cs & e & -> & _)]; [done|].
  intros [= H]. by apply stream_app_not_ended in H.
Qed.

Section retries.
Context (E : env) (self : StreamingCodeGenerator) (prompt : string)
        (cb : callback_t) (N : Z) (pcb : option progress_callback_t).

Local Abbreviation req := (the_request self prompt).

(** The retry loop when [j] attempts fail and the next one succeeds. *)
Lemma for_attempt_in_retries (chunks : list Chunk) j : forall i n m r st,
  Z.of_nat (i + n) = N -> j < n ->
  self_stats (store m) = Some r -> objs (store m) !! r = Some st ->
  status st = INITIALIZING \/ status st = ERROR ->
  (forall k, k < j -> fails (service E req (n_requests m + k))) ->
  service E req (n_requests m + j) = inr (stream_of chunks) ->
  undisturbed E cb pcb ->
  exists m' res,
    run E (for_attempt_in self prompt cb N pcb (attempts_from i n)) m
      = (m', Returned (Some res)) /\
    n_requests m' = n_requests m + S j.
Proof.
  induction j as [|j IH]; intros i n m r st HN Hj Hr Hst Hstatus Hfails Hresp Hun.
  - destruct n as [|n]; [lia|].
    rewrite attempts_from_S. cbn [for_attempt_in]. rewrite run_bind.
    rewrite Nat.add_0_r in Hresp.
    destruct (run E (one_attempt self prompt cb N pcb (Z.of_nat i)) m)
      as [m1 o1] eqn:Hone.
    destruct (one_attempt_spec E self prompt cb N pcb _ m m1 o1 r st Hr Hst Hstatus Hone)
      as (tr1 & st1 & _ & Hn1 & _ & _ & Hcases).
    rewrite Hresp in Hcases.
    destruct Hcases as [(res & chunks0 & -> & _)
                       |[(e & _ & _ & _ & _ & He)|(e0 & He0 & _)]].
    + run_pure. exists m1, res. split; [done|lia].
    + by apply attempt_undisturbed in He.
    + by apply attempt_undisturbed in He0.
  - destruct n as [|n]; [lia|].
    rewrite attempts_from_S. cbn [for_attempt_in]. rewrite run_bind.
    destruct (run E (one_attempt self prompt cb N pcb (Z.of_nat i)) m)
      as [m1 o1] eqn:Hone.
    destruct (one_attempt_spec E self prompt cb N pcb _ m m1 o1 r st Hr Hst Hstatus Hone)
      as (tr1 & st1 & H1 & Hn1 & _ & Hst1 & Hcases).
    assert (Hr1 : self_stats (store m1) = Some r).
    { eapply advances_refers; [|exact H1]. split; eauto. }
    assert (Hfail0 : fails (service E req (n_requests m))).
    { rewrite <- (Nat.add_0_r (n_requests m)). apply Hfails. lia. }
    destruct Hcases as [(res & chunks0 & -> & _ & _ & _ & _ & Hresp0 & _)
                       |[(e & _ & Hc & _ & _ & He)
                        |(e0 & _ & _ & _ & Hs1 & Hend)]].
    + by apply (fails_not_ended _ chunks0) in Hfail0.
    + destruct (attempt_not_cancelled E cb pcb _ e
                  (undisturbed_no_cancellation _ _ _ Hun) Hfail0 He Hc).
    + destruct Hend as [(Hlast & _)|(_ & _ & [-> |(_ & k & Hk)])].
      * lia.
      * run_pure.
        destruct (IH (S i) n m1 r st1) as (m' & res & Hrun & Hn'); auto; try lia.
        -- intros k Hk. replace (n_requests m1 + k) with (n_requests m + S k) by lia.
           apply Hfails. lia.
        -- rewrite <- Hresp. f_equal. lia.
        -- exists m', res. split; [done|lia].
      * destruct Hun as (_ & Hwake & _). by rewrite Hwake in Hk.
Qed.
End retries.

(** X14. The call retries until an attempt succeeds: if the first [j]
    responses of the service fail (the request raises an [Exception], or
    the stream does after some chunks), the next one is a stream that ends,
    [j] is less than [max_retries], nothing is cancelled and the callbacks
    raise nothing, then the call returns a result after exactly [j + 1]
    requests; its text is the concatenation of the fragments of that last
    stream; [j] failures were logged, and the delays slept were
    [min(2^0, 10)], ..., [min(2^(j-1), 10)]. *)
Theorem retry_until_success (E : env) self prompt cb N pcb m j chunks :
  j < Z.to_nat N ->
  (forall k, k < j -> fails (service E (the_request self prompt) (n_requests m + k))) ->
  service E (the_request self prompt) (n_requests m + j) = inr (stream_of chunks) ->
  undisturbed E cb pcb ->
  exists m' res tr,
    run E (generate_code_with_explanation self prompt cb N pcb) m
      = (m', Returned (Some res)) /\
    trace m' = trace m ++ tr /\
    text res = join (texts chunks) /\
    requests tr = replicate (S j) (the_request self prompt) /\
    length (errors_logged tr) = j /\
    backoffs tr = backoff_delay <$> attempts_from 0 j /\
    (status <$> stats_of m' res) = Some COMPLETED.
Proof.
  intros Hj Hfails Hresp Hun.
  assert (Hret : exists m' res,
            run E (generate_code_with_explanation self prompt cb N pcb) m
              = (m', Returned (Some res)) /\
            n_requests m' = n_requests m + S j).
  { unfold generate_code_with_explanation. rewrite run_bind, run_init_stats. run_pure.
    rewrite range_attempts.
    eapply (for_attempt_in_retries E self prompt cb N pcb chunks j 0 (Z.to_nat N)
              (write (store_at_start E m) (ticked m)) (length (objs (store m)))
              (new_StreamStats (clock E (n_clock m)))); auto.
    - lia.
    - simpl. by apply list_lookup_middle. }
  destruct Hret as (m' & res & Hrun & Hn).
  exists m', res.
  destruct (generate_ends E self prompt cb N pcb m m' _ Hrun)
    as (tr & st' & Htr & Hst' & _ & Hs' & tr1 & tr2 & chunks' & -> & Hsk & Herr & _ & Hq
        & Hf & Htext & Hresp' & Hn' & _).
  destruct (generate_spec E self prompt cb N pcb m m' _ Hrun)
    as (tr0 & _ & Htr0 & _ & _ & _ & (k & _ & Hnk & Hreq) & Hres & _).
  assert (tr0 = tr1 ++ EvRequest (the_request self prompt) :: tr2) as ->.
  { rewrite Htr in Htr0. by apply app_inv_head in Htr0. }
  assert (Hk : length (requests tr1) = j) by lia.
  rewrite Hk in *. rewrite Hresp in Hresp'. injection Hresp' as Heq.
  apply stream_of_inj in Heq as <-.
  destruct (quiet_silent tr2 Hq) as (Hreq2 & Herr2 & Hsk2).
  exists (tr1 ++ EvRequest (the_request self prompt) :: tr2).
  split; [done|]. split; [done|]. split; [done|].
  split. { rewrite Hreq. f_equal. lia. }
  split. { rewrite errors_logged_app, length_app. simpl. rewrite Herr2. simpl. lia. }
  split.
  { rewrite backoffs_app. simpl. rewrite (quiet_no_backoff tr2 Hq), app_nil_r.
    rewrite backoffs_skeleton, Hsk. clear.
    generalize 0. induction j as [|j IH]; intros i; [done|].
    rewrite attempts_from_S, retry_schedule_cons, fmap_cons. simpl.
    f_equal. apply IH. }
  unfold stats_of. rewrite Hres. simpl. by rewrite Hst', <- Hs'.
Qed.

Lemma retry_until_success_witness :
  exists m' res tr,
    run (calm retry_service)
        (generate_code_with_explanation generator "add two numbers" silent 3 watching)
        machine0 = (m', Returned (Some res)) /\
    trace m' = trace machine0 ++ tr /\
    text res = join (texts [text_chunk "b"]) /\
    requests tr = replicate 2 (the_request generator "add two numbers") /\
    length (errors_logged tr) = 1 /\
    backoffs tr = backoff_delay <$> attempts_from 0 1 /\
    (status <$> stats_of m' res) = Some COMPLETED.
Proof.
  apply (retry_until_success (calm retry_service) generator "add two numbers"
           silent 3 watching machine0 1 [text_chunk "b"]).
  - simpl. lia.
  - intros [|k] Hk; [|lia]. right. eexists _, _. split; reflexivity.
  - reflexivity.
  - repeat split; intros x; reflexivity.
Defined.

(** ** Cancellation during the backoff *)

(** X15. A cancellation that wakes the backoff sleep ends the call: when
    the request of the first attempt raises an [Exception], that attempt is
    not the last one and the sleep that follows is woken by a
    cancellation, the call raises the [CancelledError] after one request,
    one logged failure and the delay of one second, with the status
    [ERROR]; there is no second attempt. *)
Theorem cancelled_during_backoff (E : env) self prompt cb N pcb m e0 :
  (1 < N)%Z ->
  service E (the_request self prompt) (n_requests m) = inl e0 ->
  is_Exception e0 = true ->
  cancel_wakeup E (n_sleeps m) = true ->
  exists m',
    run E (generate_code_with_explanation self prompt cb N pcb) m
      = (m', Raised (mk_exn CancelledError "")) /\
    trace m' = trace m ++ [EvRequest (the_request self prompt);
                           EvLog ERROR_LEVEL (failure_message 0 (str e0));
                           EvSleep (Seconds 1)] /\
    (status <$> current_stats (store m')) = Some ERROR.
Proof.
  intros HN Hresp Hexc Hwake.
  unfold generate_code_with_explanation. rewrite run_bind, run_init_stats. run_pure.
  set (req := the_request self prompt) in *.
  set (r := length (objs (store m))).
  set (st0 := new_StreamStats (clock E (n_clock m))).
  set (m0 := write (store_at_start E m) (ticked m)).
  assert (Hst0 : objs (store m0) !! r = Some st0).
  { simpl. by apply list_lookup_middle. }
  rewrite range_attempts.
  destruct (Z.to_nat N) as [|n] eqn:HNn; [lia|].
  rewrite attempts_from_S. cbn [for_attempt_in].
  rewrite run_bind. unfold one_attempt. rewrite run_try_except, run_bind.
  unfold attempt_body. rewrite run_bind.
  rewrite (run_stats_update E _ _ m0 r st0) by auto. run_pure.
  set (st1 := set_status PROCESSING st0).
  set (m1 := updated r st1 m0).
  change (n_requests m1) with (n_requests m). fold req. rewrite Hresp. run_pure.
  rewrite Hexc. run_pure. unfold on_failure. run_pure.
  assert (Hst1 : objs (store (requested req m1)) !! r = Some st1).
  { apply (lookup_updated r st0). exact Hst0. }
  rewrite (run_stats_update E _ _ (requested req m1) r st1 eq_refl Hst1).
  run_pure.
  destruct (Z.eqb_spec (Z.of_nat 0) (N - 1)) as [Hlast|_]; [simpl in Hlast; lia|].
  run_pure. simpl n_sleeps. rewrite Hwake.
  eexists. split; [reflexivity|]. simpl. rewrite <- !app_assoc. split; [reflexivity|].
  unfold current_stats. simpl.
  rewrite list_lookup_insert_eq by (rewrite length_insert, length_app; simpl; lia).
  reflexivity.
Qed.

Lemma cancelled_during_backoff_witness :
  exists m',
    run (mk_env (fun _ _ => inl timeout_error) (fun _ => false) (fun _ => true) Z.of_nat)
        (generate_code_with_explanation generator "add two numbers" silent 3 None)
        machine0
      = (m', Raised (mk_exn CancelledError "")) /\
    trace m' = trace machine0 ++
               [EvRequest (the_request generator "add two numbers");
                EvLog ERROR_LEVEL (failure_message 0 (str timeout_error));
                EvSleep (Seconds 1)] /\
    (status <$> current_stats (store m')) = Some ERROR.
Proof.
  apply (cancelled_during_backoff
           (mk_env (fun _ _ => inl timeout_error) (fun _ => false) (fun _ => true) Z.of_nat)
           generator "add two numbers" silent 3 None machine0 timeout_error).
  - lia.
  - reflexivity.
  - reflexivity.
  - reflexivity.
Defined.

(** ** A chunk callback that raises *)

Section callback_raises.
Context (E : env) (self : StreamingCodeGenerator) (prompt : string)
        (cb : callback_t) (N : Z) (pcb : option progress_callback_t) (e : exn).
Hypothesis cb_raises : forall f, cb f = Some e.
Hypothesis e_is_Exception : is_Exception e = true.
Hypothesis not_cancelled : forall k, cancelled_at E k = false.
Hypothesis not_woken : forall k, cancel_wakeup E k = false.

Local Abbreviation req := (the_request self prompt).
Local Abbreviation wrapped :=
  (mk_exn StreamProcessError ("Error processing stream: " +:+ str e)).

(** The first chunk that carries text ends [handle_stream]. *)
Lemma handle_stream_callback_raises chunk rest m r st :
  self_stats (store m) = Some r -> objs (store m) !! r = Some st ->
  truthy (fragment_of chunk) = true ->
  exists m1 tr,
    run E (handle_stream cb pcb (SYield chunk rest)) m = (m1, Raised wrapped) /\
    trace m1 = trace m ++ tr /\ fragments tr = [fragment_of chunk].
Proof.
  intros Hr Hst Ht. unfold handle_stream, consume.
  rewrite run_bind, run_try_except, run_bind. cbn [for_chunk_in].
  rewrite run_bind. unfold for_body. run_pure.
  rewrite not_cancelled. run_pure.
  destruct (format_chunk_run E chunk (polled m)) as (evs & Hw & ->). run_pure.
  destruct (warnings_silent evs Hw) as (Hf & _).
  rewrite Ht. run_pure.
  erewrite run_stats_get by (simpl; eauto). run_pure.
  erewrite run_stats_update by (simpl; eauto). run_pure.
  set (s2 := set_chunks_processed (chunks_processed st + 1) st).
  set (m2 := updated r s2 (records evs (polled m))).
  erewrite (run_stats_get _ _ _ m2 r s2) by (simpl; eauto using lookup_updated).
  run_pure.
  erewrite (run_stats_update _ _ _ m2 r s2) by (simpl; eauto using lookup_updated).
  run_pure. rewrite cb_raises. run_pure.
  replace (is_CancelledError e) with false
    by (unfold is_Exception in e_is_Exception; by destruct (is_CancelledError e)).
  run_pure.
  eexists _, (evs ++ [EvChunk (fragment_of chunk)]). split; [reflexivity|].
  simpl. rewrite fragments_app, Hf, app_assoc. done.
Qed.

(** An attempt whose stream begins with a chunk that carries text fails,
    having delivered that fragment. *)
Lemma one_attempt_callback_raises a chunk rest m r st :
  self_stats (store m) = Some r -> objs (store m) !! r = Some st ->
  status st = INITIALIZING \/ status st = ERROR ->
  service E req (n_requests m) = inr (SYield chunk rest) ->
  truthy (fragment_of chunk) = true ->
  exists m' tr st',
    run E (one_attempt self prompt cb N pcb a) m =
      (m', if (a =? N - 1)%Z
           then Raised (mk_exn APIError (final_message N (str wrapped)))
           else Returned None) /\
    trace m' = trace m ++ tr /\ requests tr = [req] /\
    fragments tr = [fragment_of chunk] /\
    n_requests m' = S (n_requests m) /\
    self_stats (store m') = Some r /\ objs (store m') !! r = Some st' /\
    status st' = ERROR.
Proof.
  intros Hr Hst Hstatus Hresp Ht.
  destruct (run E (one_attempt self prompt cb N pcb a) m) as [m' o] eqn:Hone.
  destruct (one_attempt_spec E self prompt cb N pcb a m m' o r st Hr Hst Hstatus Hone)
    as (tr & st' & H & Hn & Hreq & Hst' & _).
  assert (Hr' : self_stats (store m') = Some r).
  { eapply advances_refers; [|exact H]. split; eauto. }
  destruct H as (Htr & _).
  revert Hone. unfold one_attempt. rewrite run_try_except, run_bind.
  unfold attempt_body. rewrite run_bind, (run_stats_update E _ _ _ r st) by auto.
  run_pure. set (st1 := set_status PROCESSING st). set (m1 := updated r st1 m).
  change (n_requests m1) with (n_requests m). rewrite Hresp. run_pure.
  assert (Hr1 : self_stats (store (requested req m1)) = Some r) by done.
  assert (Hst1 : objs (store (requested req m1)) !! r = Some st1).
  { simpl. eauto using lookup_updated. }
  destruct (handle_stream_callback_raises chunk rest (requested req m1) r st1 Hr1 Hst1 Ht)
    as (m2 & tr2 & Hhs & Htr2 & Hf2).
  destruct (handle_stream_accounts E cb pcb _ _ m2 _ r st1 Hr1 Hst1 Hhs)
    as (tr3 & st2 & Hacc & Hst2 & _).
  destruct (accounts_final _ _ _ _ Hacc) as (Hr2 & _).
  rewrite Hhs. run_pure. change (is_Exception wrapped) with true. run_pure.
  unfold on_failure. run_pure.
  rewrite (run_stats_update E _ _ m2 r st2) by auto.
  run_pure.
  destruct (Z.eqb_spec a (N - 1)) as [Hlast|Hlast]; run_pure.
  - intros [= <- <-]. eexists _, _, (set_status ERROR st2). split; [reflexivity|].
    split; [exact Htr|]. simpl in Htr. rewrite Htr2 in Htr. simpl in Htr.
    rewrite <- !app_assoc in Htr. apply app_inv_head in Htr. subst tr.
    split; [exact Hreq|]. split.
    { simpl. rewrite fragments_app, Hf2. done. }
    split; [done|]. split; [done|]. split; [simpl; eauto using lookup_updated|done].
  - rewrite not_woken. run_pure.
    intros [= <- <-]. eexists _, _, (set_status ERROR st2). split; [reflexivity|].
    split; [exact Htr|]. simpl in Htr. rewrite Htr2 in Htr. simpl in Htr.
    rewrite <- !app_assoc in Htr. apply app_inv_head in Htr. subst tr.
    split; [exact Hreq|]. split.
    { simpl. rewrite fragments_app, Hf2. done. }
    split; [done|]. split; [done|]. split; [simpl; eauto using lookup_updated|done].
Qed.

Lemma for_attempt_in_callback_raises n : forall i m r st,
  Z.of_nat (i + S n) = N ->
  self_stats (store m) = Some r -> objs (store m) !! r = Some st ->
  status st = INITIALIZING \/ status st = ERROR ->
  (forall k, exists chunk rest,
     service E req k = inr (SYield chunk rest) /\ truthy (fragment_of chunk) = true) ->
  exists m' tr,
    run E (for_attempt_in self prompt cb N pcb (attempts_from i (S n))) m =
      (m', Raised (mk_exn APIError (final_message N (str wrapped)))) /\
    trace m' = trace m ++ tr /\ requests tr = replicate (S n) req /\
    length (fragments tr) = S n.
Proof.
  induction n as [|n IH]; intros i m r st HN Hr Hst Hstatus Hserv;
    rewrite attempts_from_S; cbn [for_attempt_in]; rewrite run_bind;
    destruct (Hserv (n_requests m)) as (chunk & rest & Hresp & Ht);
    destruct (one_attempt_callback_raises (Z.of_nat i) chunk rest m r st
                Hr Hst Hstatus Hresp Ht)
      as (m1 & tr1 & st1 & -> & Htr1 & Hreq1 & Hf1 & Hn1 & Hr1 & Hst1 & Hs1).
  - destruct (Z.eqb_spec (Z.of_nat i) (N - 1)) as [_|Hne]; [|lia].
    exists m1, tr1. rewrite Hf1. done.
  - destruct (Z.eqb_spec (Z.of_nat i) (N - 1)) as [Heq|_]; [lia|]. run_pure.
    assert (HN' : Z.of_nat (S i + S n) = N) by lia.
    destruct (IH (S i) m1 r st1 HN' Hr1 Hst1 (or_intror Hs1) Hserv)
      as (m' & tr2 & -> & Htr2 & Hreq2 & Hf2).
    exists m', (tr1 ++ tr2).
    rewrite requests_app, fragments_app, length_app, Hreq1, Hreq2, Hf1, Hf2, Htr2, Htr1,
            app_assoc.
    done.
Qed.
End callback_raises.

(** X16. An exception raised by the chunk callback is handled as a
    failure of the attempt and retried: when the callback raises the
    [Exception] [e] on every fragment, each response of the service is a
    stream whose first chunk carries text, and nothing is cancelled, the
    call opens [max_retries] requests, calls the callback once in each
    attempt, and raises the [APIError] whose message is
    ["Failed after N attempts: Error processing stream: "] followed by the
    message of [e]. *)
Theorem callback_error_is_retried (E : env) self prompt cb N pcb m e :
  (1 <= N)%Z ->
  (forall f, cb f = Some e) -> is_Exception e = true ->
  (forall k, exists chunk rest,
     service E (the_request self prompt) k = inr (SYield chunk rest) /\
     truthy (fragment_of chunk) = true) ->
  (forall k, cancelled_at E k = false) -> (forall k, cancel_wakeup E k = false) ->
  exists m' tr,
    run E (generate_code_with_explanation self prompt cb N pcb) m =
      (m', Raised (mk_exn APIError
                     (final_message N ("Error processing stream: " +:+ str e)))) /\
    trace m' = trace m ++ tr /\
    requests tr = replicate (Z.to_nat N) (the_request self prompt) /\
    length (fragments tr) = Z.to_nat N.
Proof.
  intros HN Hcb Hexc Hserv Hpoll Hwake.
  unfold generate_code_with_explanation. rewrite run_bind, run_init_stats. run_pure.
  rewrite range_attempts.
  destruct (Z.to_nat N) as [|n] eqn:HNn; [lia|].
  destruct (for_attempt_in_callback_raises E self prompt cb N pcb e Hcb Hexc Hpoll Hwake
              n 0 (write (store_at_start E m) (ticked m)) (length (objs (store m)))
              (new_StreamStats (clock E (n_clock m))))
    as (m' & tr & Hrun & Htr & Hreq & Hf); auto.
  - lia.
  - simpl. by apply list_lookup_middle.
  - exists m', tr. done.
Qed.

Lemma callback_error_is_retried_witness :
  exists m' tr,
    run (calm (fun _ => inr (stream_of add_chunks)))
        (generate_code_with_explanation generator "add two numbers"
           (fun _ => Some (mk_exn (OtherException "ValueError") "bad chunk")) 3 None)
        machine0 =
      (m', Raised (mk_exn APIError
                     "Failed after 3 attempts: Error processing stream: bad chunk")) /\
    trace m' = trace machine0 ++ tr /\
    requests tr = replicate 3 (the_request generator "add two numbers") /\
    length (fragments tr) = 3.
Proof.
  apply (callback_error_is_retried (calm (fun _ => inr (stream_of add_chunks)))
           generator "add two numbers"
           (fun _ => Some (mk_exn (OtherException "ValueError") "bad chunk")) 3 None
           machine0 (mk_exn (OtherException "ValueError") "bad chunk")).
  - lia.
  - reflexivity.
  - reflexivity.
  - intros k. eexists _, _. split; reflexivity.
  - reflexivity.
  - reflexivity.
Defined.

(** ** The collector of the tests *)

(** X17. The assertions of [test_simple_code_generation] and
    [test_complex_code_generation] that do not depend on what the service
    streams hold for every call that returns with the callbacks of a
    [StreamCollector]:
    [result['stats'].chunks_processed == len(collector.chunks)], the status
    of the result is [COMPLETED], [collector.progress_updates] is not empty
    and its last entry has the status [COMPLETED] and the final count of
    chunks; and a result whose text is not empty has counted a chunk. *)
Theorem collector_assertions (E : env) self prompt N m m' res :
  run E (generate_code_with_explanation self prompt StreamCollector.chunk_callback N
           (Some StreamCollector.progress_callback)) m = (m', Returned (Some res)) ->
  exists tr st,
    trace m' = trace m ++ tr /\
    stats_of m' res = Some st /\
    chunks_processed st = Z.of_nat (length (fragments tr)) /\
    status st = COMPLETED /\
    0 < length (StreamCollector.progress_updates tr) /\
    last (StreamCollector.progress_updates tr) = Some (chunks_processed st, COMPLETED) /\
    (text res <> "" -> (0 < chunks_processed st)%Z).
Proof.
  intros Hrun.
  destruct (generate_ends E self prompt _ N _ m m' _ Hrun)
    as (tr & st' & Htr & Hst' & _ & Hs' & tr1 & tr2 & chunks & -> & _ & _ & _ & _
        & Hf & Htext & _ & _ & seen & lst & Hp & _ & Hsl & Hcl & _).
  destruct (generate_spec E self prompt _ N _ m m' _ Hrun)
    as (_ & _ & _ & _ & _ & _ & _ & Hres & _).
  destruct (generate_accounts E self prompt _ N _ m m' _ Hrun)
    as (tr' & (Htr' & _ & _ & _ & s & s' & Hs & Hs2 & _ & Hc & _) & _).
  assert (tr' = tr1 ++ EvRequest (the_request self prompt) :: tr2) as ->.
  { rewrite Htr in Htr'. simpl in Htr'. by apply app_inv_head in Htr'. }
  simpl in Hs. rewrite list_lookup_middle in Hs by done. injection Hs as <-.
  assert (s' = st') as -> by congruence.
  assert (Hup : StreamCollector.progress_updates (tr1 ++ EvRequest (the_request self prompt) :: tr2)
                = StreamCollector.progress_updates tr1 ++
                  omap (fun seen => (fun s => (chunks_processed s, status s)) <$> seen) seen
                  ++ [(chunks_processed st', COMPLETED)]).
  { unfold StreamCollector.progress_updates. rewrite snapshots_app. simpl. rewrite Hp.
    rewrite !omap_app. simpl. by rewrite Hsl, Hcl. }
  exists (tr1 ++ EvRequest (the_request self prompt) :: tr2), st'.
  split; [done|]. split; [unfold stats_of; by rewrite Hres|].
  split; [exact Hc|]. split; [done|].
  rewrite Hup, !app_assoc, last_snoc, length_app. simpl.
  split; [lia|]. split; [done|].
  intros Hne. simpl in Hc. rewrite Hc.
  rewrite fragments_app, length_app. simpl. rewrite Hf.
  destruct (texts chunks) as [|f fs]; [by rewrite Htext in Hne|]. simpl. lia.
Qed.

Lemma collector_assertions_witness :
  let m' := fst (run (calm (fun _ => inr (stream_of add_chunks)))
                   (generate_code_with_explanation generator "add two numbers"
                      StreamCollector.chunk_callback 3
                      (Some StreamCollector.progress_callback)) machine0) in
  exists tr st,
    trace m' = trace machine0 ++ tr /\
    stats_of m' (mk_result "def add(aOkay, c... urn a+b" (Some 0) 1%Z) = Some st /\
    chunks_processed st = Z.of_nat (length (fragments tr)) /\
    status st = COMPLETED /\
    0 < length (StreamCollector.progress_updates tr) /\
    last (StreamCollector.progress_updates tr) = Some (chunks_processed st, COMPLETED) /\
    ("def add(aOkay, c... urn a+b" <> "" -> (0 < chunks_processed st)%Z).
Proof.
  intros m'.
  apply (collector_assertions (calm (fun _ => inr (stream_of add_chunks))) generator
           "add two numbers" 3 machine0 m'
           (mk_result "def add(aOkay, c... urn a+b" (Some 0) 1%Z)).
  vm_compute. reflexivity.
Defined.

(** ** What a call gives back *)

(** X18. With [max_retries] at least 1, as in the call of [main], the
    loop is never left at its end: the call does not return [None]. It
    returns a result whose ["stats"] is the object of the call, or it
    raises, and what it raises is a [CancelledError] or an [APIError], the
    only [StreamingError] that leaves it. *)
Theorem call_returns_a_result_or_raises (E : env) self prompt cb N pcb m m' o :
  (1 <= N)%Z ->
  run E (generate_code_with_explanation self prompt cb N pcb) m = (m', o) ->
  match o with
  | Returned (Some res) => stats_of m' res = current_stats (store m') /\
                           is_Some (stats_of m' res)
  | Returned None => False
  | Raised e => is_CancelledError e = true \/ exn_class_of e = APIError
  end.
Proof.
  intros HN Hrun.
  destruct (generate_spec E self prompt cb N pcb m m' o Hrun)
    as (tr & h & _ & _ & _ & _ & _ & Ho).
  destruct (generate_accounts E self prompt cb N pcb m m' o Hrun)
    as (tr' & (_ & Hr & _) & _).
  destruct o as [[res|]|e].
  - destruct Ho as (Hres & (st' & Hst' & _) & _).
    unfold stats_of, current_stats. rewrite Hres, Hr. simpl. split; [done|eauto].
  - lia.
  - destruct Ho as [(Hc & _)|(msgs & e0 & _ & -> & _)]; [by left|by right].
Qed.

Lemma call_returns_a_result_or_raises_witness :
  let r := run (calm (fun _ => inr (stream_of add_chunks)))
             (generate_code_with_explanation generator "add two numbers" silent 3 None)
             machine0 in
  stats_of (fst r) (mk_result "def add(aOkay, c... urn a+b" (Some 0) 1%Z)
    = current_stats (store (fst r)) /\
  is_Some (stats_of (fst r) (mk_result "def add(aOkay, c... urn a+b" (Some 0) 1%Z)).
Proof.
  intros r.
  apply (call_returns_a_result_or_raises (calm (fun _ => inr (stream_of add_chunks)))
           generator "add two numbers" silent 3 None machine0 (fst r)
           (Returned (Some (mk_result "def add(aOkay, c... urn a+b" (Some 0) 1%Z)))).
  - lia.
  - vm_compute. reflexivity.
Defined.
